(** * uadk_engine: the RSA method and its asynchronous submission path

    A shallow embedding of [src/uadk_rsa.c] and of the declarations of
    [src/uadk_async.h].  C [int] values are integers of [Z]; no arithmetic
    of the modelled functions leaves the range of [int].  Pointers are
    addresses of a small store, or [None] for [NULL].  Calls into OpenSSL
    and into the accelerator SDK ([wd_*]) are answered by a record of
    collaborator outcomes, so every control path of the C code is a path
    of the model.  The two loops that wait for the device take a number
    of iterations allowed and return [None] when it does not suffice.
    The store records the calls made, so that statements can speak of
    what was called and how often. *)

From Stdlib Require Import ZArith Lia Bool List.
From stdpp Require Import base numbers option list gmap.

Local Open Scope Z_scope.

(** ** Constants of [uadk_rsa.c] and of [uadk_async.h] *)

Definition UN_SET : Z := 0.
Definition IS_SET : Z := 1.
Definition RSA_MIN_MODULUS_BITS : Z := 512.
Definition RSA1024BITS : Z := 1024.
Definition RSA2048BITS : Z := 2048.
Definition RSA3072BITS : Z := 3072.
Definition RSA4096BITS : Z := 4096.
Definition OPENSSLRSA7680BITS : Z := 7680.
Definition OPENSSLRSA15360BITS : Z := 15360.
Definition CTX_ASYNC : Z := 1.
Definition CTX_SYNC : Z := 0.
Definition SOFT : Z := 2.
Definition UADK_E_SUCCESS : Z := 1.
Definition UADK_E_FAIL : Z := 0.
Definition UADK_DO_SOFT : Z := -224.
Definition UADK_E_POLL_SUCCESS : Z := 0.
Definition CHECK_PADDING_FAIL : Z := -1.
Definition ASYNC_QUEUE_TASK_NUM : Z := 1024.

(** [errno.h] of Linux, and the padding modes of [openssl/rsa.h]. *)
Definition EAGAIN : Z := 11.
Definition ENOMEM : Z := 12.
Definition EBUSY : Z := 16.
Definition RSA_PKCS1_PADDING : Z := 1.
Definition RSA_PKCS1_OAEP_PADDING : Z := 4.
Definition RSA_X931_PADDING : Z := 5.

(** ** Key-size screening *)

(** [rsa_check_bit_useful]: the first test is the C condition
    [!flen && flen > bits]; the [switch] keeps its three arms. *)
Definition rsa_check_bit_useful (bits flen : Z) : Z :=
  if (flen =? 0) && (flen >? bits) then SOFT
  else if bits <? RSA_MIN_MODULUS_BITS then UADK_E_FAIL
  else if (bits =? RSA1024BITS) || (bits =? RSA2048BITS)
          || (bits =? RSA3072BITS) || (bits =? RSA4096BITS)
       then UADK_E_SUCCESS
  else if (bits =? OPENSSLRSA7680BITS) || (bits =? OPENSSLRSA15360BITS)
          || (bits =? RSA_MIN_MODULUS_BITS)
       then SOFT
  else SOFT.

(** The pointer arguments of an RSA method ([true] for a non-null pointer),
    the input length, the padding mode, and [RSA_bits(rsa)]. *)
Record rsa_args := {
  a_flen : Z;
  a_from : bool;
  a_to : bool;
  a_rsa : bool;
  a_padding : Z;
  a_bits : Z
}.

(** [check_rsa_input_para]: [RSA_bits] is read only after the pointers
    and the length passed the test. *)
Definition check_rsa_input_para (a : rsa_args) : Z :=
  if negb (a_rsa a) || negb (a_from a) || negb (a_to a) || (a_flen a <=? 0)
  then UADK_E_FAIL
  else rsa_check_bit_useful (a_bits a) (a_flen a).

Definition hw_bits (bits : Z) : Prop :=
  bits = 1024 \/ bits = 2048 \/ bits = 3072 \/ bits = 4096.

(** ** The slot pool and the suspension context ([uadk_async.h]) *)

Definition addr := nat.

(** [struct async_op]; [op_job] is [None] for a null [ASYNC_JOB *]. *)
Record async_op := {
  op_job : option addr;
  op_done : Z;
  op_idx : Z;
  op_ret : Z
}.

(** [struct uadk_e_cb_info]: [priv] points to the request of a session,
    [op] to a suspension context. *)
Record uadk_e_cb_info := {
  cb_priv : option addr;
  cb_op : option addr
}.

(** [struct async_poll_queue]: the occupancy array, the two cursors and
    the two semaphores as counters.  The task array [head], [is_recv],
    the mutex and the thread identifier play no part below. *)
Record async_poll_queue := {
  q_status : list Z;
  q_sid : Z;
  q_rid : Z;
  q_empty_sem : Z;
  q_full_sem : Z
}.

Definition in_pool (id : Z) : bool :=
  (0 <=? id) && (id <? ASYNC_QUEUE_TASK_NUM).

(** The first free slot met from [start] in circular order, looking at
    no more than [n] slots. *)
Fixpoint next_free (st : list Z) (start : Z) (n : nat) : option Z :=
  match n with
  | O => None
  | S n' =>
      match st !! Z.to_nat start with
      | Some 0 => Some start
      | _ => next_free st ((start + 1) mod ASYNC_QUEUE_TASK_NUM) n'
      end
  end.

(** Modelled from the spec: [async_get_free_task] of [uadk_async.c], which
    is not among the sources.  The spec's [acquire]: "returns the next free
    slot in circular order; fails with EXHAUSTED if no slot is currently
    free".  The result is [(ret, id, queue)], [ret = 0] for exhaustion, as
    [rsa_do_crypto] tests it; the slot handed out becomes occupied and the
    submit cursor moves past it. *)
Definition async_get_free_task (q : async_poll_queue) : Z * Z * async_poll_queue :=
  match next_free (q_status q) (q_sid q) (Z.to_nat ASYNC_QUEUE_TASK_NUM) with
  | None => (0, 0, q)
  | Some i =>
      (1, i,
       {| q_status := <[Z.to_nat i := 1]> (q_status q);
          q_sid := (i + 1) mod ASYNC_QUEUE_TASK_NUM;
          q_rid := q_rid q;
          q_empty_sem := q_empty_sem q;
          q_full_sem := q_full_sem q |})
  end.

(** Modelled from the spec: [async_free_poll_task] of [uadk_async.c], which
    is not among the sources.  The spec's [release]: "idempotent; marks the
    slot free"; a release "from the completion callback path must also
    signal the Flow-Control Gate that a submission slot became available",
    a release from an error unwind must not.  An index outside
    [0, ASYNC_QUEUE_TASK_NUM) names no slot. *)
Definition async_free_poll_task (id : Z) (is_cb : bool) (q : async_poll_queue)
  : async_poll_queue :=
  if in_pool id then
    {| q_status := <[Z.to_nat id := 0]> (q_status q);
       q_sid := q_sid q;
       q_rid := q_rid q;
       q_empty_sem := if is_cb then q_empty_sem q + 1 else q_empty_sem q;
       q_full_sem := q_full_sem q |}
  else q.

(** The part of the queue that is the slot pool: occupancy and cursors. *)
Definition pool_state (q : async_poll_queue) : list Z * Z * Z :=
  (q_status q, q_sid q, q_rid q).

Definition occupied (s : Z) : bool := negb (s =? 0).

(** Number of occupied slots. *)
Definition occupancy (q : async_poll_queue) : nat :=
  length (List.filter occupied (q_status q)).

(** The array has [ASYNC_QUEUE_TASK_NUM] entries and the submit cursor
    points into it. *)
Definition queue_wf (q : async_poll_queue) : Prop :=
  length (q_status q) = Z.to_nat ASYNC_QUEUE_TASK_NUM /\
  0 <= q_sid q < ASYNC_QUEUE_TASK_NUM.

(** Modelled from the spec: the pool as [async_module_init] of
    [uadk_async.c] leaves it, a "fixed-capacity array of task-tracking
    slots" with every slot free. *)
Definition async_queue_init : async_poll_queue :=
  {| q_status := replicate (Z.to_nat ASYNC_QUEUE_TASK_NUM) 0;
     q_sid := 0; q_rid := 0;
     q_empty_sem := ASYNC_QUEUE_TASK_NUM; q_full_sem := 0 |}.

(** Submitters and the poll driver act on the pool through these two
    operations only. *)
Inductive pool_op :=
| Acquire
| Release (id : Z) (is_cb : bool).

Definition pool_step (q : async_poll_queue) (o : pool_op) : async_poll_queue :=
  match o with
  | Acquire => (async_get_free_task q).2
  | Release id is_cb => async_free_poll_task id is_cb q
  end.

Definition pool_run (os : list pool_op) (q : async_poll_queue) : async_poll_queue :=
  fold_left pool_step os q.

(** ** Requests, sessions and the store *)

(** The fields of the SDK's [struct wd_rsa_req] that [uadk_rsa.c] uses for
    control: [status], whether [cb] is set to [uadk_e_rsa_cb], and
    [cb_param] (the carrier record, kept by value). *)
Record wd_rsa_req := {
  req_status : Z;
  req_cb : bool;
  req_cb_param : option uadk_e_cb_info
}.

(** [struct uadk_rsa_sess] without the SDK handle and the key set-up. *)
Record uadk_rsa_sess := {
  sess_req : wd_rsa_req;
  is_pubkey_ready : Z;
  is_prikey_ready : Z;
  key_size : Z
}.

(** One call of a function of another module, with the arguments and the
    result that matter; the store keeps them in the order of the calls. *)
Inductive event :=
| EvSetupNotification (ret : Z)
| EvClearNotification
| EvDoSync (ret : Z)
| EvDoAsync (ret : Z)
| EvGetFreeTask (ret idx : Z)
| EvFreePollTask (id : Z) (is_cb : bool)
| EvPauseJob (idx ret : Z)
| EvWakeJob (job : addr)
| EvInit (ret : Z)
| EvSession (sess : option addr)
| EvCrypto (ret status : Z)
| EvSoft.

(** The store: sessions and suspension contexts by address, the poll
    queue, whether an async event notification is registered, and the
    calls made so far. *)
Record world := {
  w_sessions : gmap addr uadk_rsa_sess;
  w_ops : gmap addr async_op;
  w_queue : async_poll_queue;
  w_notification : bool;
  w_trace : list event
}.

Definition upd_sessions (f : gmap addr uadk_rsa_sess -> gmap addr uadk_rsa_sess)
  (w : world) : world :=
  {| w_sessions := f (w_sessions w); w_ops := w_ops w; w_queue := w_queue w;
     w_notification := w_notification w; w_trace := w_trace w |}.

Definition upd_ops (f : gmap addr async_op -> gmap addr async_op) (w : world) : world :=
  {| w_sessions := w_sessions w; w_ops := f (w_ops w); w_queue := w_queue w;
     w_notification := w_notification w; w_trace := w_trace w |}.

Definition upd_queue (f : async_poll_queue -> async_poll_queue) (w : world) : world :=
  {| w_sessions := w_sessions w; w_ops := w_ops w; w_queue := f (w_queue w);
     w_notification := w_notification w; w_trace := w_trace w |}.

Definition set_notification (b : bool) (w : world) : world :=
  {| w_sessions := w_sessions w; w_ops := w_ops w; w_queue := w_queue w;
     w_notification := b; w_trace := w_trace w |}.

Definition log (e : event) (w : world) : world :=
  {| w_sessions := w_sessions w; w_ops := w_ops w; w_queue := w_queue w;
     w_notification := w_notification w; w_trace := w_trace w ++ [e] |}.

Definition set_req (f : wd_rsa_req -> wd_rsa_req) (s : uadk_rsa_sess) : uadk_rsa_sess :=
  {| sess_req := f (sess_req s); is_pubkey_ready := is_pubkey_ready s;
     is_prikey_ready := is_prikey_ready s; key_size := key_size s |}.

Definition set_status (st : Z) (r : wd_rsa_req) : wd_rsa_req :=
  {| req_status := st; req_cb := req_cb r; req_cb_param := req_cb_param r |}.

Definition set_done (d : Z) (o : async_op) : async_op :=
  {| op_job := op_job o; op_done := d; op_idx := op_idx o; op_ret := op_ret o |}.

Definition set_idx (i : Z) (o : async_op) : async_op :=
  {| op_job := op_job o; op_done := op_done o; op_idx := i; op_ret := op_ret o |}.

Definition zero_req : wd_rsa_req :=
  {| req_status := 0; req_cb := false; req_cb_param := None |}.

Definition zero_op : async_op :=
  {| op_job := None; op_done := 0; op_idx := 0; op_ret := 0 |}.

(** [rsa_sess->req] and [op] read through their addresses. *)
Definition req_at (sess : addr) (w : world) : wd_rsa_req :=
  match w_sessions w !! sess with
  | Some s => sess_req s
  | None => zero_req
  end.

Definition op_at (opa : addr) (w : world) : async_op :=
  default zero_op (w_ops w !! opa).

(** The pool functions as calls on the store. *)
Definition free_poll_task (id : Z) (is_cb : bool) (w : world) : world :=
  log (EvFreePollTask id is_cb) (upd_queue (async_free_poll_task id is_cb) w).

Definition get_free_task (w : world) : Z * Z * world :=
  let '(ret, idx, q) := async_get_free_task (w_queue w) in
  (ret, idx, log (EvGetFreeTask ret idx) (upd_queue (fun _ => q) w)).

(** Modelled from the spec: [async_wake_job] of [uadk_async.c], which
    "requests that the caller's cooperative unit be rescheduled for
    resumption"; the request is recorded. *)
Definition async_wake_job (job : addr) (w : world) : world :=
  log (EvWakeJob job) w.

(** ** The completion callback *)

(** [uadk_e_rsa_cb]: [req_t] is the request the SDK hands back.  The three
    early returns come first; then the status is copied to the request
    [cb_param->priv] points to, and a context with a job that is not done
    is marked done, its slot freed and its job woken. *)
Definition uadk_e_rsa_cb (req_t : option wd_rsa_req) (w : world) : world :=
  match req_t with
  | None => w
  | Some req_new =>
      match req_cb_param req_new with
      | None => w
      | Some cb_param =>
          match cb_priv cb_param with
          | None => w
          | Some req_origin =>
              let w := upd_sessions
                         (alter (set_req (set_status (req_status req_new))) req_origin) w in
              match cb_op cb_param with
              | None => w
              | Some opa =>
                  match w_ops w !! opa with
                  | None => w
                  | Some op =>
                      match op_job op with
                      | Some job =>
                          if op_done op =? 0 then
                            let w := upd_ops (<[opa := set_done 1 op]>) w in
                            let w := free_poll_task (op_idx op) true w in
                            async_wake_job job w
                          else w
                      | None => w
                      end
                  end
              end
          end
      end
  end.

(** ** Submission: [rsa_do_crypto] *)

(** What the job scheduler and the accelerator answer during one call of
    [rsa_do_crypto]: the result of the notification set-up and the current
    job ([None] in synchronous mode), the result and the status of the
    synchronous primitive, the result of the [k]-th asynchronous
    submission, the result of the pause, and the status the hardware
    reports on completion.  [e_op] is the address of the local [op]. *)
Record hw_env := {
  e_op : addr;
  e_setup_ret : Z;
  e_job : option addr;
  e_sync_ret : Z;
  e_sync_status : Z;
  e_async_ret : nat -> Z;
  e_pause_ret : Z;
  e_hw_status : Z
}.

(** Modelled from the spec: [async_setup_async_event_notification] of
    [uadk_async.c], the spec's [prepare(context)]: it fills the context
    with the caller's cooperative unit, "absent/null if the caller chose
    synchronous mode", and a done flag that is not set, and registers the
    notification for a caller that has a job. *)
Definition async_setup_async_event_notification (env : hw_env) (w : world)
  : Z * world :=
  let w := log (EvSetupNotification (e_setup_ret env)) w in
  if e_setup_ret env =? 0 then (0, w)
  else
    let op := {| op_job := e_job env; op_done := 0; op_idx := 0; op_ret := 0 |} in
    (e_setup_ret env,
     set_notification (bool_decide (is_Some (e_job env)))
       (upd_ops (<[e_op env := op]>) w)).

(** Modelled from the spec: [async_clear_async_event_notification] of
    [uadk_async.c]: "clear any registered notification". *)
Definition async_clear_async_event_notification (w : world) : world :=
  log EvClearNotification (set_notification false w).

(** The SDK's [wd_do_rsa_sync]: it blocks, leaves the hardware status in
    the request and returns. *)
Definition wd_do_rsa_sync (env : hw_env) (sess : addr) (w : world) : Z * world :=
  (e_sync_ret env,
   log (EvDoSync (e_sync_ret env))
     (upd_sessions (alter (set_req (set_status (e_sync_status env))) sess) w)).

(** The SDK's [wd_do_rsa_async], called for the [k]-th time. *)
Definition wd_do_rsa_async (env : hw_env) (k : nat) (w : world) : Z * world :=
  (e_async_ret env k, log (EvDoAsync (e_async_ret env k)) w).

(** Modelled from the spec: [async_pause_job] of [uadk_async.c], the
    spec's [park(context)]: "once parked, a caller is only released by a
    completion", so a pause that returns non-zero returns after the poll
    driver ran the request's callback on the SDK's copy of the request,
    which carries the hardware status. *)
Definition async_pause_job (env : hw_env) (sess : addr) (idx : Z) (w : world)
  : Z * world :=
  let w := log (EvPauseJob idx (e_pause_ret env)) w in
  if e_pause_ret env =? 0 then (0, w)
  else
    let req_new := set_status (e_hw_status env) (req_at sess w) in
    (e_pause_ret env, uadk_e_rsa_cb (Some req_new) w).

(** How the [do ... while (ret == -EBUSY)] loop is left. *)
Inductive loop_exit :=
| GotoErr (w : world)
| LoopDone (ret : Z) (w : world).

(** The submission loop from its [k]-th iteration on; [None] when [fuel]
    iterations did not end it. *)
Fixpoint submit_loop (fuel : nat) (env : hw_env) (k : nat) (w : world)
  : option loop_exit :=
  match fuel with
  | O => None
  | S fuel' =>
      let '(ret, w) := wd_do_rsa_async env k w in
      if (ret <? 0) && negb (ret =? - EBUSY) then
        Some (GotoErr (free_poll_task (op_idx (op_at (e_op env) w)) false w))
      else if ret =? - EBUSY then submit_loop fuel' env (S k) w
      else Some (LoopDone ret w)
  end.

(** The label [err] of [rsa_do_crypto]. *)
Definition do_crypto_err (w : world) : option (Z * world) :=
  Some (UADK_E_FAIL, async_clear_async_event_notification w).

(** [rsa_do_crypto] on the session at [sess]. *)
Definition rsa_do_crypto (fuel : nat) (env : hw_env) (sess : addr) (w : world)
  : option (Z * world) :=
  let '(ret, w) := async_setup_async_event_notification env w in
  if ret =? 0 then Some (UADK_E_FAIL, w)
  else
    match op_job (op_at (e_op env) w) with
    | None =>
        let '(ret, w) := wd_do_rsa_sync env sess w in
        if ret =? 0 then Some (UADK_E_SUCCESS, w) else do_crypto_err w
    | Some _ =>
        let cb_param := {| cb_priv := Some sess; cb_op := Some (e_op env) |} in
        let w := upd_sessions
                   (alter (set_req (fun _ =>
                      {| req_status := -1; req_cb := true;
                         req_cb_param := Some cb_param |})) sess) w in
        let '(ret, idx, w) := get_free_task w in
        if ret =? 0 then do_crypto_err w
        else
          let w := upd_ops (alter (set_idx idx) (e_op env)) w in
          match submit_loop fuel env 0 w with
          | None => None
          | Some (GotoErr w) => do_crypto_err w
          | Some (LoopDone _ w) =>
              let '(ret, w) := async_pause_job env sess idx w in
              if ret =? 0 then do_crypto_err w
              else if negb (req_status (req_at sess w) =? 0)
                   then Some (UADK_E_FAIL, w)
                   else Some (UADK_E_SUCCESS, w)
          end
    end.

(** ** Draining: [uadk_e_rsa_poll] *)

(** [uadk_e_rsa_poll] from its [k]-th call of [wd_rsa_poll_ctx] on;
    [poll k] is the status that call returns and the value of [recv]
    after it.  The result is the status returned and the number of calls
    made; [None] when [fuel] iterations did not end the loop. *)
Fixpoint rsa_poll_loop (fuel : nat) (poll : nat -> Z * Z) (k : nat) : option (Z * nat) :=
  match fuel with
  | O => None
  | S fuel' =>
      let expt := 1 in
      let '(ret, recv) := poll k in
      if recv >=? expt then Some (UADK_E_POLL_SUCCESS, S k)
      else if (ret <? 0) && negb (ret =? - EAGAIN) then Some (ret, S k)
      else if ret =? - EAGAIN then rsa_poll_loop fuel' poll (S k)
      else Some (ret, S k)
  end.

Definition uadk_e_rsa_poll (fuel : nat) (poll : nat -> Z * Z) : option (Z * nat) :=
  rsa_poll_loop fuel poll 0.

(** ** The RSA methods *)

(** What OpenSSL, the allocator and the SDK answer during one call of an
    RSA method.  Each field is the outcome of one call site: [true] for a
    non-null pointer or a non-zero result, or the integer returned.
    [uadk_e_rsa_init], [check_rsa_is_crt], [rsa_primes_gen],
    [rsa_fill_keygen_data] and [rsa_get_keygen_param] are functions of
    [uadk_rsa.c] made of device set-up, bignum arithmetic and key
    marshalling; the methods branch on their results only, which are
    fields here. *)
Record collab := {
  c_init_ret : Z;          (* uadk_e_rsa_init() *)
  c_malloc_pub : bool;     (* OPENSSL_malloc of the public parameters *)
  c_malloc_pri : bool;     (* OPENSSL_malloc of the private parameters *)
  c_malloc_kg : bool;      (* the three OPENSSL_malloc of rsa_keygen_param_alloc *)
  c_malloc_kg_bn : bool;
  c_malloc_kg_pair : bool;
  c_is_crt : Z;            (* check_rsa_is_crt(rsa) *)
  c_sess : option addr;    (* rsa_get_eng_session: the session, if allocated *)
  c_bn_ctx_new : bool;     (* BN_CTX_new() *)
  c_bn_ctx_get : bool;     (* BN_CTX_get for ret_bn *)
  c_num_bytes : Z;         (* BN_num_bytes(n) *)
  c_malloc_buf : bool;     (* OPENSSL_malloc(num_bytes) *)
  c_to_bn : bool;          (* BN_CTX_get(bn_ctx) for to_bn *)
  c_padding : Z;           (* the RSA_padding_add_* or RSA_padding_check_* call *)
  c_bin2bn_in : bool;      (* BN_bin2bn(from_buf, num_bytes, to_bn) *)
  c_bin2bn_out : bool;     (* BN_bin2bn(req.dst, req.dst_bytes, ret_bn) *)
  c_bn_sub : bool;         (* BN_sub(to_bn, n, ret_bn) *)
  c_low_nibble_0c : bool;  (* (bn_get_words(ret_bn)[0] & 0xf) == 0x0c *)
  c_bn2binpad : Z;         (* BN_bn2binpad *)
  c_primes_gen : bool;     (* rsa_primes_gen produced p and q *)
  c_bn_copy : bool;        (* BN_copy(bn_param->e, e) *)
  c_fill_keygen : bool;    (* rsa_fill_keygen_data found every SDK buffer *)
  c_set0 : bool;           (* the RSA_set0_* calls of rsa_get_keygen_param *)
  c_hw : hw_env
}.

(** The way a method is left: a value returned by the method itself, or
    the call of the OpenSSL software method at [exe_soft]. *)
Inductive rsa_result :=
| Returned (ret : Z)
| ExeSoft.

Definition of_bool (b : bool) : Z := if b then UADK_E_SUCCESS else UADK_E_FAIL.

Definition uadk_e_rsa_init (c : collab) (w : world) : Z * world :=
  (c_init_ret c, log (EvInit (c_init_ret c)) w).

(** [rsa_keygen_param_alloc]. *)
Definition rsa_keygen_param_alloc (c : collab) : Z :=
  if negb (c_malloc_kg c) then - ENOMEM
  else if negb (c_malloc_kg_bn c) then - ENOMEM
  else if negb (c_malloc_kg_pair c) then - ENOMEM
  else UADK_E_SUCCESS.

(** [rsa_pkey_param_alloc(pub, pri)]; [want_pub] and [want_pri] say which
    of the two pointers is not null. *)
Definition rsa_pkey_param_alloc (want_pub want_pri : bool) (c : collab) : Z :=
  if want_pub && negb (c_malloc_pub c) then - ENOMEM
  else if want_pri && negb (c_malloc_pri c) then - ENOMEM
  else UADK_E_SUCCESS.

(** [rsa_get_eng_session]: a new session has both key flags unset, the
    key size [bits >> 3] and a zeroed request. *)
Definition rsa_get_eng_session (c : collab) (bits : Z) (w : world)
  : option addr * world :=
  match c_sess c with
  | None => (None, log (EvSession None) w)
  | Some a =>
      let s := {| sess_req := zero_req; is_pubkey_ready := UN_SET;
                  is_prikey_ready := UN_SET; key_size := Z.shiftr bits 3 |} in
      (Some a, log (EvSession (Some a)) (upd_sessions (<[a := s]>) w))
  end.

Definition rsa_free_eng_session (sess : addr) (w : world) : world :=
  upd_sessions (delete sess) w.

(** [rsa_create_pub_bn_ctx] and [rsa_create_pri_bn_ctx] take the same
    steps. *)
Definition rsa_create_bn_ctx (c : collab) : Z :=
  if negb (c_bn_ctx_new c) then UADK_E_FAIL
  else if negb (c_bn_ctx_get c) then UADK_E_FAIL
  else if c_num_bytes c =? 0 then UADK_E_FAIL
  else if negb (c_malloc_buf c) then UADK_E_FAIL
  else UADK_E_SUCCESS.

Definition add_rsa_pubenc_padding (c : collab) (buf : bool) (num padding : Z) : Z :=
  if negb buf || (num =? 0) then UADK_E_FAIL
  else
    let ret := if padding =? RSA_PKCS1_PADDING then c_padding c
               else if padding =? RSA_PKCS1_OAEP_PADDING then c_padding c
               else UADK_E_FAIL in
    if ret <=? 0 then UADK_E_FAIL else UADK_E_SUCCESS.

Definition check_rsa_pridec_padding (c : collab) (padding : Z) : Z :=
  let ret := if padding =? RSA_PKCS1_PADDING then c_padding c
             else if padding =? RSA_PKCS1_OAEP_PADDING then c_padding c
             else UADK_E_FAIL in
  if ret =? CHECK_PADDING_FAIL then UADK_E_FAIL else ret.

Definition add_rsa_prienc_padding (c : collab) (padding : Z) : Z :=
  let ret := if padding =? RSA_PKCS1_PADDING then c_padding c
             else if padding =? RSA_X931_PADDING then c_padding c
             else UADK_E_FAIL in
  if ret <=? 0 then UADK_E_FAIL else ret.

Definition check_rsa_pubdec_padding (c : collab) (padding : Z) : Z :=
  let ret := if padding =? RSA_PKCS1_PADDING then c_padding c
             else if padding =? RSA_X931_PADDING then c_padding c
             else UADK_E_FAIL in
  if ret =? CHECK_PADDING_FAIL then UADK_E_FAIL else ret.

Definition rsa_get_sign_res (c : collab) (padding : Z) : Z :=
  if padding =? RSA_X931_PADDING then
    if negb (c_bn_sub c) then UADK_E_FAIL else UADK_E_SUCCESS
  else UADK_E_SUCCESS.

Definition rsa_get_verify_res (c : collab) (padding : Z) : Z :=
  if (padding =? RSA_X931_PADDING) && negb (c_low_nibble_0c c) then
    if negb (c_bn_sub c) then UADK_E_FAIL else UADK_E_SUCCESS
  else UADK_E_SUCCESS.

(** [rsa_fill_pubkey]: fills the key once per session. *)
Definition rsa_fill_pubkey (sess : addr) (w : world) : Z * world :=
  match w_sessions w !! sess with
  | Some s =>
      if is_pubkey_ready s =? 0 then
        (UADK_E_SUCCESS,
         upd_sessions (<[sess := {| sess_req := sess_req s; is_pubkey_ready := IS_SET;
                                    is_prikey_ready := is_prikey_ready s;
                                    key_size := key_size s |}]>) w)
      else (UADK_E_FAIL, w)
  | None => (UADK_E_FAIL, w)
  end.

(** [rsa_fill_prikey]: either key form is filled when the flag is unset. *)
Definition rsa_fill_prikey (is_crt : Z) (sess : addr) (w : world) : Z * world :=
  match w_sessions w !! sess with
  | Some s =>
      if ((is_prikey_ready s =? 0) && negb (is_crt =? 0))
         || ((is_prikey_ready s =? 0) && (is_crt =? 0)) then
        (UADK_E_SUCCESS,
         upd_sessions (<[sess := {| sess_req := sess_req s;
                                    is_pubkey_ready := is_pubkey_ready s;
                                    is_prikey_ready := IS_SET;
                                    key_size := key_size s |}]>) w)
      else (UADK_E_FAIL, w)
  | None => (UADK_E_FAIL, w)
  end.

(** The label [exe_soft]. *)
Definition exe_soft (w : world) : option (rsa_result * world) :=
  Some (ExeSoft, log EvSoft w).

(** The end of a method from the label [free_pkey] (or [free_keygen]) on:
    [if (ret != UADK_DO_SOFT) return ret;] and then [exe_soft]. *)
Definition leave (ret : Z) (w : world) : option (rsa_result * world) :=
  if ret =? UADK_DO_SOFT then exe_soft w else Some (Returned ret, w).

(** The same from [free_sess], [free_buf] or [free_kg_in_out] on. *)
Definition leave_sess (sess : addr) (ret : Z) (w : world)
  : option (rsa_result * world) :=
  leave ret (rsa_free_eng_session sess w).

(** [rsa_do_crypto(rsa_sess)] followed by the reading of
    [rsa_sess->req.status]. *)
Definition do_crypto (fuel : nat) (c : collab) (sess : addr) (w : world)
  : option (Z * Z * world) :=
  match rsa_do_crypto fuel (c_hw c) sess w with
  | None => None
  | Some (ret, w) =>
      let st := req_status (req_at sess w) in
      Some (ret, st, log (EvCrypto ret st) w)
  end.

Definition crypto_failed (ret st : Z) : bool := (ret =? 0) || negb (st =? 0).

(** [uadk_e_rsa_keygen(rsa, bits, e, cb)]; [a_bits] is [bits]. *)
Definition uadk_e_rsa_keygen (fuel : nat) (c : collab) (a : rsa_args) (w : world)
  : option (rsa_result * world) :=
  let key_size := rsa_check_bit_useful (a_bits a) 0 in
  if (key_size =? 0) || (key_size =? SOFT) then exe_soft w
  else
    let '(ret, w) := uadk_e_rsa_init c w in
    if negb (ret =? 0) then exe_soft w
    else if rsa_keygen_param_alloc c =? - ENOMEM then exe_soft w
    else
      match rsa_get_eng_session c (a_bits a) w with
      | (None, w) => leave UADK_DO_SOFT w
      | (Some sess, w) =>
          if negb (c_primes_gen c) then leave_sess sess UADK_DO_SOFT w
          else if negb (c_bn_copy c) then leave_sess sess UADK_DO_SOFT w
          else if of_bool (c_fill_keygen c) =? 0 then leave_sess sess UADK_DO_SOFT w
          else
            match do_crypto fuel c sess w with
            | None => None
            | Some (ret, st, w) =>
                if crypto_failed ret st then leave_sess sess UADK_DO_SOFT w
                else
                  let ret := of_bool (c_set0 c) in
                  if ret =? 0 then leave_sess sess UADK_DO_SOFT w
                  else leave_sess sess ret w
            end
      end.

(** [uadk_e_rsa_public_encrypt]. *)
Definition uadk_e_rsa_public_encrypt (fuel : nat) (c : collab) (a : rsa_args)
  (w : world) : option (rsa_result * world) :=
  let ret := check_rsa_input_para a in
  if (ret =? 0) || (ret =? SOFT) then exe_soft w
  else
    let '(ret, w) := uadk_e_rsa_init c w in
    if negb (ret =? 0) then exe_soft w
    else if rsa_pkey_param_alloc true false c =? - ENOMEM then exe_soft w
    else
      match rsa_get_eng_session c (a_bits a) w with
      | (None, w) => leave UADK_DO_SOFT w
      | (Some sess, w) =>
          if rsa_create_bn_ctx c =? 0 then leave_sess sess UADK_DO_SOFT w
          else
            let num_bytes := c_num_bytes c in
            if a_flen a >? num_bytes then leave_sess sess UADK_DO_SOFT w
            else if add_rsa_pubenc_padding c true num_bytes (a_padding a) =? 0
            then leave_sess sess UADK_DO_SOFT w
            else
              let '(ret, w) := rsa_fill_pubkey sess w in
              if ret =? 0 then leave_sess sess UADK_DO_SOFT w
              else
                match do_crypto fuel c sess w with
                | None => None
                | Some (ret, st, w) =>
                    if crypto_failed ret st then leave_sess sess UADK_DO_SOFT w
                    else if negb (c_bin2bn_out c) then leave_sess sess UADK_DO_SOFT w
                    else
                      let ret := c_bn2binpad c in
                      if ret =? -1 then leave_sess sess UADK_DO_SOFT w
                      else leave_sess sess ret w
                end
      end.

(** [uadk_e_rsa_private_decrypt]. *)
Definition uadk_e_rsa_private_decrypt (fuel : nat) (c : collab) (a : rsa_args)
  (w : world) : option (rsa_result * world) :=
  let ret := check_rsa_input_para a in
  if (ret =? 0) || (ret =? SOFT) then exe_soft w
  else
    let '(ret, w) := uadk_e_rsa_init c w in
    if negb (ret =? 0) then exe_soft w
    else if rsa_pkey_param_alloc false true c =? - ENOMEM then exe_soft w
    else
      match rsa_get_eng_session c (a_bits a) w with
      | (None, w) => leave UADK_DO_SOFT w
      | (Some sess, w) =>
          if rsa_create_bn_ctx c =? 0 then leave_sess sess UADK_DO_SOFT w
          else
            let num_bytes := c_num_bytes c in
            if a_flen a >? num_bytes then leave_sess sess UADK_DO_SOFT w
            else
              let '(ret, w) := rsa_fill_prikey (c_is_crt c) sess w in
              if ret =? 0 then leave_sess sess UADK_DO_SOFT w
              else
                match do_crypto fuel c sess w with
                | None => None
                | Some (ret, st, w) =>
                    if crypto_failed ret st then leave_sess sess UADK_DO_SOFT w
                    else if negb (c_bin2bn_out c) then leave_sess sess UADK_DO_SOFT w
                    else
                      let len := c_bn2binpad c in
                      if len =? 0 then leave_sess sess UADK_DO_SOFT w
                      else
                        let ret := check_rsa_pridec_padding c (a_padding a) in
                        if ret =? 0 then leave_sess sess UADK_DO_SOFT w
                        else leave_sess sess ret w
                end
      end.

(** [uadk_e_rsa_private_sign]. *)
Definition uadk_e_rsa_private_sign (fuel : nat) (c : collab) (a : rsa_args)
  (w : world) : option (rsa_result * world) :=
  let ret := check_rsa_input_para a in
  if (ret =? 0) || (ret =? SOFT) then exe_soft w
  else
    let '(ret, w) := uadk_e_rsa_init c w in
    if negb (ret =? 0) then exe_soft w
    else if rsa_pkey_param_alloc false true c =? - ENOMEM then exe_soft w
    else
      match rsa_get_eng_session c (a_bits a) w with
      | (None, w) => leave UADK_DO_SOFT w
      | (Some sess, w) =>
          if rsa_create_bn_ctx c =? 0 then leave_sess sess UADK_DO_SOFT w
          else if negb (c_to_bn c) then leave_sess sess UADK_DO_SOFT w
          else
            let num_bytes := c_num_bytes c in
            if a_flen a >? num_bytes then leave_sess sess UADK_DO_SOFT w
            else if add_rsa_prienc_padding c (a_padding a) =? 0
            then leave_sess sess UADK_DO_SOFT w
            else if negb (c_bin2bn_in c) then leave_sess sess UADK_DO_SOFT w
            else
              let '(ret, w) := rsa_fill_prikey (c_is_crt c) sess w in
              if ret =? 0 then leave_sess sess UADK_DO_SOFT w
              else
                match do_crypto fuel c sess w with
                | None => None
                | Some (ret, st, w) =>
                    if crypto_failed ret st then leave_sess sess UADK_DO_SOFT w
                    else if negb (c_bin2bn_out c) then leave_sess sess UADK_DO_SOFT w
                    else if rsa_get_sign_res c (a_padding a) =? 0
                    then leave_sess sess UADK_DO_SOFT w
                    else leave_sess sess (c_bn2binpad c) w
                end
      end.

(** [uadk_e_rsa_public_verify]: the only method that returns on a failed
    input check. *)
Definition uadk_e_rsa_public_verify (fuel : nat) (c : collab) (a : rsa_args)
  (w : world) : option (rsa_result * world) :=
  let ret := check_rsa_input_para a in
  if ret =? 0 then Some (Returned UADK_E_FAIL, w)
  else if ret =? SOFT then exe_soft w
  else
    let '(ret, w) := uadk_e_rsa_init c w in
    if negb (ret =? 0) then exe_soft w
    else if rsa_pkey_param_alloc true false c =? - ENOMEM then exe_soft w
    else
      match rsa_get_eng_session c (a_bits a) w with
      | (None, w) => leave UADK_DO_SOFT w
      | (Some sess, w) =>
          if rsa_create_bn_ctx c =? 0 then leave_sess sess UADK_DO_SOFT w
          else if negb (c_to_bn c) then leave_sess sess UADK_DO_SOFT w
          else if negb (c_bin2bn_in c) then leave_sess sess UADK_DO_SOFT w
          else
            let '(ret, w) := rsa_fill_pubkey sess w in
            if ret =? 0 then leave_sess sess UADK_DO_SOFT w
            else
              match do_crypto fuel c sess w with
              | None => None
              | Some (ret, st, w) =>
                  if crypto_failed ret st then leave_sess sess UADK_DO_SOFT w
                  else if negb (c_bin2bn_out c) then leave_sess sess UADK_DO_SOFT w
                  else if rsa_get_verify_res c (a_padding a) =? 0
                  then leave_sess sess UADK_DO_SOFT w
                  else
                    let len := c_bn2binpad c in
                    if len =? 0 then leave_sess sess UADK_DO_SOFT w
                    else
                      let ret := check_rsa_pubdec_padding c (a_padding a) in
                      if ret =? 0 then leave_sess sess UADK_DO_SOFT w
                      else leave_sess sess ret w
              end
      end.

(** The five methods [uadk_e_get_rsa_hw_methods] installs. *)
Inductive rsa_method :=
| Keygen
| PubEnc
| PrivDec
| PrivEnc
| PubDec.

Definition uadk_rsa_method (m : rsa_method) (fuel : nat) (c : collab)
  (a : rsa_args) (w : world) : option (rsa_result * world) :=
  match m with
  | Keygen => uadk_e_rsa_keygen fuel c a w
  | PubEnc => uadk_e_rsa_public_encrypt fuel c a w
  | PrivDec => uadk_e_rsa_private_decrypt fuel c a w
  | PrivEnc => uadk_e_rsa_private_sign fuel c a w
  | PubDec => uadk_e_rsa_public_verify fuel c a w
  end.

(** ** Vocabulary of the statements *)

(** The arguments [check_rsa_input_para] rejects before it reads the key. *)
Definition invalid_input (a : rsa_args) : Prop :=
  a_rsa a = false \/ a_from a = false \/ a_to a = false \/ a_flen a <= 0.

(** The suspension context a call of the callback reaches: none when it
    returns early or the carrier has no context. *)
Definition cb_target (req_t : option wd_rsa_req) : option addr :=
  match req_t with
  | Some req_new =>
      match req_cb_param req_new with
      | Some cb_param =>
          match cb_priv cb_param with
          | Some _ => cb_op cb_param
          | None => None
          end
      | None => None
      end
  | None => None
  end.

(** The callback invoked once for each request of [rs], in order. *)
Definition run_callbacks (rs : list (option wd_rsa_req)) (w : world) : world :=
  fold_left (fun w r => uadk_e_rsa_cb r w) rs w.

(** What completion acts on: the suspension contexts (done flags), the
    slot pool, and the calls made (slot releases and job wake-ups). *)
Definition async_part (w : world) : gmap addr async_op * async_poll_queue * list event :=
  (w_ops w, w_queue w, w_trace w).

(** Several calls recorded at once. *)
Definition logs (es : list event) (w : world) : world :=
  {| w_sessions := w_sessions w; w_ops := w_ops w; w_queue := w_queue w;
     w_notification := w_notification w; w_trace := w_trace w ++ es |}.

(** The submissions [j], ..., [j + n - 1] as recorded calls. *)
Definition async_calls (env : hw_env) (j n : nat) : list event :=
  map (fun i => EvDoAsync (e_async_ret env i)) (seq j n).




(** A store with no session and no context, and the initial pool. *)
Definition world0 : world :=
  {| w_sessions := ∅; w_ops := ∅; w_queue := async_queue_init;
     w_notification := false; w_trace := [] |}.

(** A caller with job 1 whose submissions are answered by [answers]. *)
Definition async_env (answers : nat -> Z) : hw_env :=
  {| e_op := 0%nat; e_setup_ret := 1; e_job := Some 1%nat;
     e_sync_ret := 0; e_sync_status := 0;
     e_async_ret := answers;
     e_pause_ret := 1; e_hw_status := 0 |}.

(** A caller without a job; the synchronous primitive returns [ret]. *)
Definition sync_env (ret : Z) : hw_env :=
  {| e_op := 0%nat; e_setup_ret := 1; e_job := None;
     e_sync_ret := ret; e_sync_status := 0;
     e_async_ret := fun _ => 0;
     e_pause_ret := 1; e_hw_status := 0 |}.

(** The notification set-up succeeded, and the job handle it left in the
    local [op]. *)
Definition setup_ok (env : hw_env) (w : world) : Prop :=
  (async_setup_async_event_notification env w).1 <> 0.

Definition job_after_setup (env : hw_env) (w : world) : option addr :=
  op_job (op_at (e_op env) (async_setup_async_event_notification env w).2).

Definition is_pause (e : event) : bool :=
  match e with
  | EvPauseJob _ _ => true
  | _ => false
  end.

(** A context with job 1 bound to slot 2, in a store where the slots 0, 1
    and 2 are taken, and a completed request whose carrier points to it. *)
Definition cb_op0 : async_op :=
  {| op_job := Some 1%nat; op_done := 0; op_idx := 2; op_ret := 0 |}.

Definition cb_world : world :=
  {| w_sessions := ∅; w_ops := {[ 7%nat := cb_op0 ]};
     w_queue := pool_run [Acquire; Acquire; Acquire] async_queue_init;
     w_notification := true; w_trace := [] |}.

Definition cb_req : wd_rsa_req :=
  {| req_status := 0; req_cb := true;
     req_cb_param := Some {| cb_priv := Some 5%nat; cb_op := Some 7%nat |} |}.

(** Collaborators that all succeed, for a caller without a job. *)
Definition collab0 : collab :=
  {| c_init_ret := 0; c_malloc_pub := true; c_malloc_pri := true;
     c_malloc_kg := true; c_malloc_kg_bn := true; c_malloc_kg_pair := true;
     c_is_crt := 1; c_sess := Some 5%nat;
     c_bn_ctx_new := true; c_bn_ctx_get := true; c_num_bytes := 256;
     c_malloc_buf := true; c_to_bn := true; c_padding := 1;
     c_bin2bn_in := true; c_bin2bn_out := true; c_bn_sub := true;
     c_low_nibble_0c := true; c_bn2binpad := 256;
     c_primes_gen := true; c_bn_copy := true; c_fill_keygen := true;
     c_set0 := true; c_hw := sync_env 0 |}.

(** A 2048-bit key with a null [from]. *)
Definition null_from_args : rsa_args :=
  {| a_flen := 32; a_from := false; a_to := true; a_rsa := true;
     a_padding := 1; a_bits := 2048 |}.



(** The same collaborators for a caller with a job, the device answering
    the submissions by [answers]. *)
Definition collab_async (answers : nat -> Z) : collab :=
  {| c_init_ret := 0; c_malloc_pub := true; c_malloc_pri := true;
     c_malloc_kg := true; c_malloc_kg_bn := true; c_malloc_kg_pair := true;
     c_is_crt := 1; c_sess := Some 5%nat;
     c_bn_ctx_new := true; c_bn_ctx_get := true; c_num_bytes := 256;
     c_malloc_buf := true; c_to_bn := true; c_padding := 1;
     c_bin2bn_in := true; c_bin2bn_out := true; c_bn_sub := true;
     c_low_nibble_0c := true; c_bn2binpad := 256;
     c_primes_gen := true; c_bn_copy := true; c_fill_keygen := true;
     c_set0 := true; c_hw := async_env answers |}.

(** A 2048-bit key and 32 bytes of input. *)
Definition good_args : rsa_args :=
  {| a_flen := 32; a_from := true; a_to := true; a_rsa := true;
     a_padding := 1; a_bits := 2048 |}.


(** ** Further functions of [uadk_rsa.c] *)

(** *** Draining in the environment-configured mode *)

(** [uadk_e_rsa_env_poll] from its [k]-th call of [wd_rsa_poll] on, with
    the conventions of [rsa_poll_loop]: a negative status is returned at
    once, and the loop goes on while [recv < expt]. *)
Fixpoint rsa_env_poll_loop (fuel : nat) (poll : nat -> Z * Z) (k : nat)
  : option (Z * nat) :=
  match fuel with
  | O => None
  | S fuel' =>
      let expt := 1 in
      let '(ret, recv) := poll k in
      if ret <? 0 then Some (ret, S k)
      else if recv <? expt then rsa_env_poll_loop fuel' poll (S k)
      else Some (ret, S k)
  end.

Definition uadk_e_rsa_env_poll (fuel : nat) (poll : nat -> Z * Z) : option (Z * nat) :=
  rsa_env_poll_loop fuel poll 0.

(** *** Big numbers by their values *)

(** A [BIGNUM] is the integer it holds.  [BN_cmp(a, b)] is -1, 0 or 1. *)
Definition BN_cmp (a b : Z) : Z :=
  if a <? b then -1 else if a =? b then 0 else 1.

(** [check_prime_equal]: the loop [for (j = 0; j < num; j++)] from [j]
    on, with [n] iterations left at most; the earlier prime is [rsa_p]
    for [j = 0] and [rsa_q] otherwise. *)
Fixpoint check_prime_equal_from (n : nat) (j num rsa_p rsa_q prime : Z) : Z :=
  match n with
  | O => UADK_E_SUCCESS
  | S n' =>
      if j <? num then
        let prev_prime := if j =? 0 then rsa_p else rsa_q in
        if BN_cmp prime prev_prime =? 0 then UADK_E_FAIL
        else check_prime_equal_from n' (j + 1) num rsa_p rsa_q prime
      else UADK_E_SUCCESS
  end.

(** The loop runs [num] times at most. *)
Definition check_prime_equal (num rsa_p rsa_q prime : Z) : Z :=
  check_prime_equal_from (Z.to_nat num) 0 num rsa_p rsa_q prime.

(** [switch_p_q(rsa_p, rsa_q, p, q)]: the new values of [p] and [q].
    The results of the two [BN_copy] are not tested by the code; a copy
    that fails leaves its destination ([p0], [q0]) as it was. *)
Definition switch_p_q (rsa_p rsa_q p0 q0 : Z) (copy_q copy_p : bool) : Z * Z :=
  let '(rsa_p, rsa_q) :=
    if BN_cmp rsa_p rsa_q <? 0 then (rsa_q, rsa_p) else (rsa_p, rsa_q) in
  let q := if copy_q then rsa_q else q0 in
  let p := if copy_p then rsa_p else p0 in
  (p, q).

(** The first loop of [rsa_primes_gen]: the number of bits of the [i]-th
    prime, [bitsr[i] = (i < rmd) ? quo + 1 : quo] with the truncating
    division of C. *)
Definition bitsr (bits i : Z) : Z :=
  let quo := Z.quot bits 2 in
  let rmd := Z.rem bits 2 in
  if i <? rmd then quo + 1 else quo.

(** [rsa_get_sign_res] with the numbers: the status and the number [*res]
    points to, [sub] being the success of [BN_sub(to_bn, n, ret_bn)]. *)
Definition rsa_get_sign_res_bn (padding n ret_bn : Z) (sub : bool) : Z * option Z :=
  if padding =? RSA_X931_PADDING then
    if negb sub then (UADK_E_FAIL, None)
    else
      let to_bn := n - ret_bn in
      if BN_cmp ret_bn to_bn >? 0 then (UADK_E_SUCCESS, Some to_bn)
      else (UADK_E_SUCCESS, Some ret_bn)
  else (UADK_E_SUCCESS, Some ret_bn).

(** *** What a call keeps of the sessions *)

(** The part of a session that [rsa_fill_pubkey] and [rsa_fill_prikey]
    own: the two key flags and the key size. *)
Definition sess_keys (s : uadk_rsa_sess) : Z * Z * Z :=
  (is_pubkey_ready s, is_prikey_ready s, key_size s).

(** The sessions other than [sess] are the same in [w] and [w']. *)
Definition same_others (sess : addr) (w w' : world) : Prop :=
  forall s, s <> sess -> w_sessions w' !! s = w_sessions w !! s.

(** The values a method can return itself, from the outcomes of its
    collaborators. *)
Definition returned_value (m : rsa_method) (c : collab) (a : rsa_args) (r : Z) : Prop :=
  match m with
  | Keygen => r = UADK_E_SUCCESS
  | PubEnc =>
      r = c_bn2binpad c /\ r <> -1 /\ 0 < c_padding c /\
      (a_padding a = RSA_PKCS1_PADDING \/ a_padding a = RSA_PKCS1_OAEP_PADDING)
  | PrivDec =>
      r = c_padding c /\ r <> 0 /\ r <> -1 /\ c_bn2binpad c <> 0 /\
      (a_padding a = RSA_PKCS1_PADDING \/ a_padding a = RSA_PKCS1_OAEP_PADDING)
  | PrivEnc =>
      r = c_bn2binpad c /\ 0 < c_padding c /\
      (a_padding a = RSA_PKCS1_PADDING \/ a_padding a = RSA_X931_PADDING)
  | PubDec =>
      r = c_padding c /\ r <> 0 /\ r <> -1 /\ c_bn2binpad c <> 0 /\
      (a_padding a = RSA_PKCS1_PADDING \/ a_padding a = RSA_X931_PADDING)
  end.

(** *** Prime generation *)

Definition RSA_MAX_PRIME_NUM : Z := 2.
Definition BN_CONTINUE : Z := 1.
Definition BN_VALID : Z := 0.
Definition BN_ERR : Z := -1.
Definition BN_REDO : Z := -2.
Definition GET_ERR_FINISH : Z := 0.

(** The ways [BN_mod_inverse] ends: an inverse, the error
    [BN_R_NO_INVERSE], or another error. *)
Inductive inverse_result :=
| InverseFound
| NoInverse
| InverseError.

(** What OpenSSL answers during one call of [rsa_primes_gen].  The calls
    of OpenSSL functions that can fail are numbered in the order in which
    they are made; a field gives the outcome of the call with a given
    number: the prime [BN_generate_prime_ex] produced for a bit count, the
    result of the caller's [BN_GENCB] callback, the success of the
    arithmetic. *)
Record bn_env := {
  b_ctx_new : bool;                                  (* BN_CTX_new() *)
  b_ctx_get : bool;                                  (* the four BN_CTX_get *)
  b_generate_prime : nat -> Z -> option Z;           (* BN_generate_prime_ex *)
  b_gencb_call : nat -> bool;                        (* BN_GENCB_call *)
  b_mul : nat -> bool;                               (* BN_mul *)
  b_rshift : nat -> bool;                            (* BN_rshift *)
  b_sub : nat -> bool;                               (* BN_sub *)
  b_mod_inverse : nat -> Z -> Z -> inverse_result;   (* BN_mod_inverse(r1, r2, e_pub) *)
  b_copy : nat -> bool                               (* BN_copy *)
}.

(** The number of calls made so far, and the counter
    [static int retries] of [check_prime_sufficient]. *)
Record gen_state := {
  g_calls : nat;
  g_retries : Z
}.

Definition tick (st : gen_state) : gen_state :=
  {| g_calls := S (g_calls st); g_retries := g_retries st |}.

Definition set_retries (r : Z) (st : gen_state) : gen_state :=
  {| g_calls := g_calls st; g_retries := r |}.

(** [BN_rshift] shifts the magnitude and keeps the sign; [BN_get_word]
    gives the magnitude when it fits one word of 64 bits, and all ones
    otherwise. *)
Definition BN_rshift (a n : Z) : Z := Z.sgn a * Z.shiftr (Z.abs a) n.

Definition BN_MASK2 : Z := 2 ^ 64 - 1.

Definition BN_get_word (a : Z) : Z :=
  if Z.abs a <=? BN_MASK2 then Z.abs a else BN_MASK2.

(** [prime_mul_res]: the status and, for [num == 1], the product left in
    [r1]. *)
Definition prime_mul_res (env : bn_env) (num rsa_p rsa_q : Z) (st : gen_state)
  : Z * option Z * gen_state :=
  if num =? 1 then
    if negb (b_mul env (g_calls st)) then (BN_ERR, None, tick st)
    else (BN_VALID, Some (rsa_p * rsa_q), tick st)
  else
    if negb (b_gencb_call env (g_calls st)) then (BN_ERR, None, tick st)
    else (BN_CONTINUE, None, tick st).

(** [check_prime_sufficient(&num, bitsr, &bitse, &n, ...)]: the status and
    the new values of [*num] and [*bitse].  [*n++] reads [*n] and moves the
    local pointer, so that [n] stays as it is; [BN_rshift] refuses a
    negative shift. *)
Definition check_prime_sufficient (env : bn_env) (num : Z) (bitsr : Z -> Z)
  (bitse rsa_p rsa_q : Z) (st : gen_state) : Z * Z * Z * gen_state :=
  let '(ret, r1, st) := prime_mul_res env num rsa_p rsa_q st in
  if negb (ret =? 0) then (ret, num, bitse, st)
  else
    let shifted := (b_rshift env (g_calls st)) && (0 <=? bitse - 4) in
    let st := tick st in
    if negb shifted then (BN_ERR, num, bitse, st)
    else
      let r2 := BN_rshift (default 0 r1) (bitse - 4) in
      let bitst := BN_get_word r2 in
      if (bitst <? 9) || (bitst >? 15) then
        if num <? RSA_MAX_PRIME_NUM then
          let bitse := bitse - bitsr num in
          let called := b_gencb_call env (g_calls st) in
          let st := tick st in
          if negb called then (-1, num, bitse, st)
          else if g_retries st =? 4 then (BN_CONTINUE, -1, 0, set_retries 0 st)
          else (BN_REDO, num, bitse, set_retries (g_retries st + 1) st)
        else (-1, num, bitse, st)
      else
        let called := b_gencb_call env (g_calls st) in
        let st := tick st in
        if negb called then (BN_ERR, num, bitse, st)
        else (BN_VALID, num, bitse, set_retries 0 st).

(** [check_prime_useful]: [r2 = prime - 1] must have an inverse modulo
    [e_pub]. *)
Definition check_prime_useful (env : bn_env) (prime e_pub : Z) (st : gen_state)
  : Z * gen_state :=
  let subtracted := b_sub env (g_calls st) in
  let st := tick st in
  if negb subtracted then (-1, st)
  else
    let r2 := prime - 1 in
    let inverse := b_mod_inverse env (g_calls st) r2 e_pub in
    let st := tick st in
    match inverse with
    | InverseFound => (UADK_E_SUCCESS, st)
    | InverseError => (BN_ERR, st)
    | NoInverse =>
        let called := b_gencb_call env (g_calls st) in
        let st := tick st in
        if negb called then (BN_ERR, st) else (GET_ERR_FINISH, st)
    end.

(** [set_primes] makes [prime] point to [rsa_p] for [num == 0] and to
    [rsa_q] otherwise: a prime written through [prime] goes there. *)
Definition set_primes (num x rsa_p rsa_q : Z) : Z * Z :=
  if num =? 0 then (x, rsa_q) else (rsa_p, x).

(** The loop [while (1)] of [get_prime_once]: the status and the new
    values of [rsa_p] and [rsa_q]; [None] when [fuel] iterations did not
    end it. *)
Fixpoint get_prime_loop (fuel : nat) (env : bn_env) (num bits_num rsa_p rsa_q e_pub : Z)
  (st : gen_state) : option (Z * Z * Z * gen_state) :=
  match fuel with
  | O => None
  | S fuel' =>
      let generated := b_generate_prime env (g_calls st) bits_num in
      let st := tick st in
      match generated with
      | None => Some (BN_ERR, rsa_p, rsa_q, st)
      | Some prime =>
          let '(rsa_p, rsa_q) := set_primes num prime rsa_p rsa_q in
          if check_prime_equal num rsa_p rsa_q prime =? 0
          then get_prime_loop fuel' env num bits_num rsa_p rsa_q e_pub st
          else
            let '(ret, st) := check_prime_useful env prime e_pub st in
            if ret =? BN_ERR then Some (BN_ERR, rsa_p, rsa_q, st)
            else if ret =? UADK_E_SUCCESS then Some (ret, rsa_p, rsa_q, st)
            else get_prime_loop fuel' env num bits_num rsa_p rsa_q e_pub st
      end
  end.

Definition get_prime_once (fuel : nat) (env : bn_env) (num : Z) (bitsr : Z -> Z)
  (rsa_p rsa_q e_pub : Z) (st : gen_state) : option (Z * Z * Z * gen_state) :=
  if num >=? RSA_MAX_PRIME_NUM then Some (-1, rsa_p, rsa_q, st)
  else get_prime_loop fuel env num (bitsr num) rsa_p rsa_q e_pub st.

(** The second loop of [rsa_primes_gen] from one turn of its inner
    [while (flag == 1)] on, [i], [bitse] and [ret] being the variables of
    the function.  [BN_REDO] takes the next turn with the same [i]; any
    other status that is not [BN_ERR] ends the inner loop and [i++]
    follows, on the [i] that [check_prime_sufficient] left.  The result
    is the value returned, the values written to [p] and [q] if
    [switch_p_q] was reached, and the state. *)
Fixpoint primes_loop (fuel : nat) (env : bn_env) (bits e_pub p0 q0 : Z)
  (i bitse ret rsa_p rsa_q : Z) (st : gen_state)
  : option (Z * option (Z * Z) * gen_state) :=
  match fuel with
  | O => None
  | S fuel' =>
      if i <? RSA_MAX_PRIME_NUM then
        match get_prime_once fuel' env i (bitsr bits) rsa_p rsa_q e_pub st with
        | None => None
        | Some (got, rsa_p, rsa_q, st) =>
            if got =? -1 then Some (ret, None, st)
            else
              let bitse := bitse + bitsr bits i in
              let '(ret, i, bitse, st) :=
                check_prime_sufficient env i (bitsr bits) bitse rsa_p rsa_q st in
              if ret =? BN_ERR then Some (ret, None, st)
              else if ret =? BN_REDO
              then primes_loop fuel' env bits e_pub p0 q0 i bitse ret rsa_p rsa_q st
              else primes_loop fuel' env bits e_pub p0 q0 (i + 1) bitse ret rsa_p rsa_q st
        end
      else
        let copy_q := b_copy env (g_calls st) in
        let copy_p := b_copy env (S (g_calls st)) in
        Some (UADK_E_SUCCESS,
              Some (switch_p_q rsa_p rsa_q p0 q0 copy_q copy_p),
              tick (tick st))
  end.

(** [rsa_primes_gen(bits, e_pub, p, q, cb)]; [p0] and [q0] are the values
    of [p] and [q] at the call.  The temporaries of the context start at
    0. *)
Definition rsa_primes_gen (fuel : nat) (env : bn_env) (bits e_pub p0 q0 : Z)
  (st : gen_state) : option (Z * option (Z * Z) * gen_state) :=
  let ret := 0 in
  if negb (b_ctx_new env) then Some (ret, None, st)
  else if negb (b_ctx_get env) then Some (ret, None, st)
  else primes_loop fuel env bits e_pub p0 q0 0 0 ret 0 0 st.

(** An OpenSSL that never fails: the generator gives 29 and then 31, and
    an inverse is found exactly for the numbers coprime with [e_pub]. *)
Definition bn_env0 : bn_env :=
  {| b_ctx_new := true; b_ctx_get := true;
     b_generate_prime := fun t _ => Some (if (t <? 3)%nat then 29 else 31);
     b_gencb_call := fun _ => true;
     b_mul := fun _ => true;
     b_rshift := fun _ => true;
     b_sub := fun _ => true;
     b_mod_inverse := fun _ a n => if Z.gcd a n =? 1 then InverseFound else NoInverse;
     b_copy := fun _ => true |}.

(** The same with a generator that fails from its second call on. *)
Definition bn_env_late_failure : bn_env :=
  {| b_ctx_new := true; b_ctx_get := true;
     b_generate_prime := fun t _ => if (t <? 3)%nat then Some 29 else None;
     b_gencb_call := fun _ => true;
     b_mul := fun _ => true;
     b_rshift := fun _ => true;
     b_sub := fun _ => true;
     b_mod_inverse := fun _ a n => if Z.gcd a n =? 1 then InverseFound else NoInverse;
     b_copy := fun _ => true |}.

Definition gen_state0 : gen_state := {| g_calls := 0; g_retries := 0 |}.

(** A prime accepted by [get_prime_once] for the index [num]: it is the
    answer of the generator to a request of [bitsr[num]] bits at the call
    [t], and [prime - 1] was found invertible modulo [e_pub]. *)
Definition accepted_prime (env : bn_env) (bits_num e_pub : Z) (t : nat) (prime : Z)
  : Prop :=
  b_generate_prime env t bits_num = Some prime /\
  b_sub env (S t) = true /\
  b_mod_inverse env (S (S t)) (prime - 1) e_pub = InverseFound.

(** What [rsa_primes_gen] has checked of the two primes [a] (first) and
    [b] (second) when it reaches [switch_p_q]: each was accepted by
    [get_prime_once] for its bit count, the second after the first and
    different from it, and their product has passed the test of
    [check_prime_sufficient] for the sum of the two bit counts. *)
Definition generated_pair (env : bn_env) (bits e_pub a b : Z) : Prop :=
  exists ta tb : nat,
    (ta < tb)%nat /\
    accepted_prime env (bitsr bits 0) e_pub ta a /\
    accepted_prime env (bitsr bits 1) e_pub tb b /\
    b <> a /\
    4 <= bitsr bits 0 + bitsr bits 1 /\
    9 * 2 ^ (bitsr bits 0 + bitsr bits 1 - 4) <= Z.abs (a * b)
      < 2 ^ (bitsr bits 0 + bitsr bits 1).

(** The states of the second loop of [rsa_primes_gen] at the head of a
    turn. *)
Definition primes_loop_inv (env : bn_env) (bits e_pub i bitse rsa_p rsa_q : Z)
  (st : gen_state) : Prop :=
  (i = 0 /\ bitse = 0) \/
  (i = 1 /\ bitse = bitsr bits 0 /\
   exists ta, (ta < g_calls st)%nat /\ accepted_prime env (bitsr bits 0) e_pub ta rsa_p) \/
  (i = 2 /\ g_retries st = 0 /\ generated_pair env bits e_pub rsa_p rsa_q).

(** *** The resources of the engine *)

Module Res.

Definition CTX_NUM : Z := 2.
Definition ENV_ENABLED : Z := 1.
Definition UADK_E_INIT_SUCCESS : Z := 0.

(** [struct wd_ctx] and [struct wd_ctx_config] of the SDK, with the fields
    the file uses; a handle 0 is no context. *)
Record wd_ctx := {
  ctx : Z;
  ctx_mode : Z
}.

Record wd_ctx_config := {
  ctx_num : Z;
  ctxs : option addr
}.

(** What an allocation holds: a context configuration, an array of
    contexts, the [struct uacce_dev] of [wd_get_accel_dev], a [BIGNUM], a
    [struct rsa_keygen_param_bn] with its three pointers, an [RSA_METHOD]
    with its name, or a structure whose fields are not followed. *)
Inductive block :=
| Cfg (c : wd_ctx_config)
| Ctxs (l : list wd_ctx)
| Dev (numa_id : Z)
| Bn
| KeygenBn (e p q : option addr)
| Meth (hw : bool)
| Raw.

(** The heap: an address is the rank of its allocation, a freed cell is
    [None], and no address is given twice. *)
Definition heap := list (option block).

Definition alloc (b : block) (h : heap) : addr * heap := (length h, h ++ [Some b]).

Definition free (a : addr) (h : heap) : heap := <[a := None]> h.

(** The allocations that are not freed, in the order they were made. *)
Definition live (h : heap) : list block := omap id h.

(** The two poll functions of the file. *)
Inductive poll_fn :=
| Poll_uadk_e_rsa_poll
| Poll_uadk_e_rsa_env_poll.

(** [g_rsa_res] and what the process holds: the heap, the hardware
    contexts requested and not released, whether the SDK is initialised
    (directly or from the environment), and the calls of
    [async_register_poll_fn] with their results. *)
Record engine := {
  g_ctx_res : option addr;
  g_pid : Z;
  g_numa_id : Z;
  g_lock : bool;
  mem : heap;
  held : list Z;
  wd_inited : bool;
  env_inited : bool;
  registered : list (poll_fn * Z)
}.

(** What the system and the SDK answer during one call. *)
Record sys := {
  s_getpid : Z;                  (* getpid() *)
  s_dev : option Z;              (* wd_get_accel_dev: the numa_id of the device *)
  s_env_enabled : Z;             (* uadk_e_is_env_enabled *)
  s_set_env : Z;                 (* uadk_e_set_env *)
  s_env_init : Z;                (* wd_rsa_env_init *)
  s_calloc_cfg : bool;           (* calloc(1, sizeof(struct wd_ctx_config)) *)
  s_calloc_ctxs : bool;          (* calloc(CTX_NUM, sizeof(struct wd_ctx)) *)
  s_request_ctx : nat -> Z;      (* wd_request_ctx(dev) for ctxs[i] *)
  s_wd_rsa_init : Z;             (* wd_rsa_init *)
  s_register : Z                 (* async_register_poll_fn *)
}.

Definition set_mem (h : heap) (e : engine) : engine :=
  {| g_ctx_res := g_ctx_res e; g_pid := g_pid e; g_numa_id := g_numa_id e;
     g_lock := g_lock e; mem := h; held := held e; wd_inited := wd_inited e;
     env_inited := env_inited e; registered := registered e |}.

Definition set_held (l : list Z) (e : engine) : engine :=
  {| g_ctx_res := g_ctx_res e; g_pid := g_pid e; g_numa_id := g_numa_id e;
     g_lock := g_lock e; mem := mem e; held := l; wd_inited := wd_inited e;
     env_inited := env_inited e; registered := registered e |}.

Definition set_ctx_res (a : option addr) (e : engine) : engine :=
  {| g_ctx_res := a; g_pid := g_pid e; g_numa_id := g_numa_id e;
     g_lock := g_lock e; mem := mem e; held := held e; wd_inited := wd_inited e;
     env_inited := env_inited e; registered := registered e |}.

Definition set_pid (p : Z) (e : engine) : engine :=
  {| g_ctx_res := g_ctx_res e; g_pid := p; g_numa_id := g_numa_id e;
     g_lock := g_lock e; mem := mem e; held := held e; wd_inited := wd_inited e;
     env_inited := env_inited e; registered := registered e |}.

Definition set_numa_id (n : Z) (e : engine) : engine :=
  {| g_ctx_res := g_ctx_res e; g_pid := g_pid e; g_numa_id := n;
     g_lock := g_lock e; mem := mem e; held := held e; wd_inited := wd_inited e;
     env_inited := env_inited e; registered := registered e |}.

Definition set_lock (b : bool) (e : engine) : engine :=
  {| g_ctx_res := g_ctx_res e; g_pid := g_pid e; g_numa_id := g_numa_id e;
     g_lock := b; mem := mem e; held := held e; wd_inited := wd_inited e;
     env_inited := env_inited e; registered := registered e |}.

Definition set_wd_inited (b : bool) (e : engine) : engine :=
  {| g_ctx_res := g_ctx_res e; g_pid := g_pid e; g_numa_id := g_numa_id e;
     g_lock := g_lock e; mem := mem e; held := held e; wd_inited := b;
     env_inited := env_inited e; registered := registered e |}.

Definition set_env_inited (b : bool) (e : engine) : engine :=
  {| g_ctx_res := g_ctx_res e; g_pid := g_pid e; g_numa_id := g_numa_id e;
     g_lock := g_lock e; mem := mem e; held := held e; wd_inited := wd_inited e;
     env_inited := b; registered := registered e |}.

(** Modelled from the spec: [async_register_poll_fn] of [uadk_async.c],
    the spec's [register(task_type, drain_fn)]; the call and its result
    are recorded. *)
Definition async_register_poll_fn (o : sys) (f : poll_fn) (e : engine) : Z * engine :=
  (s_register o,
   {| g_ctx_res := g_ctx_res e; g_pid := g_pid e; g_numa_id := g_numa_id e;
      g_lock := g_lock e; mem := mem e; held := held e; wd_inited := wd_inited e;
      env_inited := env_inited e; registered := registered e ++ [(f, s_register o)] |}).

(** [wd_release_ctx(h)]: one context with the handle [h] is given back. *)
Fixpoint wd_release_ctx (h : Z) (l : list Z) : list Z :=
  match l with
  | [] => []
  | x :: l' => if x =? h then l' else x :: wd_release_ctx h l'
  end.

(** [rsa_pick_next_ctx]: the index of the context for a scheduling
    mode. *)
Definition rsa_pick_next_ctx (sched_mode : Z) : Z :=
  if negb (sched_mode =? 0) then CTX_ASYNC else CTX_SYNC.

(** [uadk_e_wd_rsa_env_init]. *)
Definition uadk_e_wd_rsa_env_init (o : sys) (e : engine) : Z * engine :=
  let ret := s_set_env o in
  if negb (ret =? 0) then (ret, e)
  else
    let ret := s_env_init o in
    if negb (ret =? 0) then (ret, e)
    else async_register_poll_fn o Poll_uadk_e_rsa_env_poll (set_env_inited true e).

(** The loop [for (i = 0; i < CTX_NUM; i++)] that requests the contexts,
    from [i] on with [n] turns left: whether it ran to its end, the
    array and the contexts held. *)
Fixpoint request_ctxs (o : sys) (n i : nat) (arr : list wd_ctx) (l : list Z)
  : bool * list wd_ctx * list Z :=
  match n with
  | O => (true, arr, l)
  | S n' =>
      let h := s_request_ctx o i in
      let arr := alter (fun c => {| ctx := h; ctx_mode := ctx_mode c |}) i arr in
      if h =? 0 then (false, arr, l)
      else
        let mode := if (i =? 0)%nat then CTX_SYNC else CTX_ASYNC in
        let arr := alter (fun c => {| ctx := ctx c; ctx_mode := mode |}) i arr in
        request_ctxs o n' (S i) arr (h :: l)
  end.

(** The loop of the label [free_ctx]: every context of the array that is
    not 0 is released and its entry set to 0. *)
Fixpoint release_ctxs (arr : list wd_ctx) (l : list Z) : list wd_ctx * list Z :=
  match arr with
  | [] => ([], l)
  | c :: arr' =>
      let '(c, l) :=
        if negb (ctx c =? 0)
        then ({| ctx := 0; ctx_mode := ctx_mode c |}, wd_release_ctx (ctx c) l)
        else (c, l) in
      let '(arr', l) := release_ctxs arr' l in
      (c :: arr', l)
  end.

(** [uadk_e_wd_rsa_init(config, dev)].  [g_rsa_res.ctx_res] keeps the
    address of the configuration also when it is freed on failure. *)
Definition uadk_e_wd_rsa_init (o : sys) (e : engine) : Z * engine :=
  if s_env_enabled o =? ENV_ENABLED then uadk_e_wd_rsa_env_init o e
  else if negb (s_calloc_cfg o) then (- ENOMEM, e)
  else
    let '(ctx_cfg, h) := alloc (Cfg {| ctx_num := 0; ctxs := None |}) (mem e) in
    let e := set_ctx_res (Some ctx_cfg) (set_mem h e) in
    let e := set_mem (<[ctx_cfg := Some (Cfg {| ctx_num := CTX_NUM; ctxs := None |})]>
                        (mem e)) e in
    if negb (s_calloc_ctxs o) then (- ENOMEM, set_mem (free ctx_cfg (mem e)) e)
    else
      let '(arr_a, h) :=
        alloc (Ctxs (replicate (Z.to_nat CTX_NUM) {| ctx := 0; ctx_mode := 0 |}))
          (mem e) in
      let e := set_mem (<[ctx_cfg := Some (Cfg {| ctx_num := CTX_NUM;
                                                  ctxs := Some arr_a |})]> h) e in
      let '(requested, arr, l) :=
        request_ctxs o (Z.to_nat CTX_NUM) 0
          (replicate (Z.to_nat CTX_NUM) {| ctx := 0; ctx_mode := 0 |}) (held e) in
      let e := set_held l (set_mem (<[arr_a := Some (Ctxs arr)]> (mem e)) e) in
      let ret := if requested then s_wd_rsa_init o else - ENOMEM in
      if requested && (ret =? 0)
      then async_register_poll_fn o Poll_uadk_e_rsa_poll (set_wd_inited true e)
      else
        (* free_ctx, free_cfg *)
        let '(arr, l) := release_ctxs arr (held e) in
        let e := set_held l (set_mem (<[arr_a := Some (Ctxs arr)]> (mem e)) e) in
        (ret, set_mem (free ctx_cfg (free arr_a (mem e))) e).

(** [uadk_e_rsa_init]: [None] when the call spins on a lock that is
    held. *)
Definition uadk_e_rsa_init (o : sys) (e : engine) : option (Z * engine) :=
  if negb (g_pid e =? s_getpid o) then
    if g_lock e then None
    else
      let e := set_lock true e in
      if g_pid e =? s_getpid o then Some (UADK_E_INIT_SUCCESS, set_lock false e)
      else
        match s_dev o with
        | None => Some (- ENOMEM, set_lock false e)
        | Some numa_id =>
            let '(dev, h) := alloc (Dev numa_id) (mem e) in
            let e := set_mem h e in
            let '(ret, e) := uadk_e_wd_rsa_init o e in
            if negb (ret =? 0) then
              (* err_unlock *)
              let e := set_lock false e in
              Some (ret, set_mem (free dev (mem e)) e)
            else
              let e := set_numa_id numa_id e in
              let e := set_pid (s_getpid o) e in
              let e := set_lock false e in
              Some (UADK_E_INIT_SUCCESS, set_mem (free dev (mem e)) e)
        end
  else Some (UADK_E_INIT_SUCCESS, e).

(** The loop [for (i = 0; i < ctx_cfg->ctx_num; i++)] of
    [uadk_e_rsa_uninit] from [i] on; [None] when it reads past the
    array. *)
Fixpoint release_all (n i : nat) (arr : list wd_ctx) (l : list Z) : option (list Z) :=
  match n with
  | O => Some l
  | S n' =>
      match arr !! i with
      | Some c => release_all n' (S i) arr (wd_release_ctx (ctx c) l)
      | None => None
      end
  end.

(** [uadk_e_rsa_uninit]: [None] when it reads through a pointer that is
    null or freed. *)
Definition uadk_e_rsa_uninit (o : sys) (e : engine) : option engine :=
  let ctx_cfg := g_ctx_res e in
  if g_pid e =? s_getpid o then
    if s_env_enabled o =? ENV_ENABLED then
      Some (set_pid 0 (set_env_inited false e))
    else
      let e := set_wd_inited false e in
      match ctx_cfg with
      | Some cfg_a =>
          match mem e !! cfg_a with
          | Some (Some (Cfg c)) =>
              match ctxs c with
              | Some arr_a =>
                  match mem e !! arr_a with
                  | Some (Some (Ctxs arr)) =>
                      match release_all (Z.to_nat (ctx_num c)) 0 arr (held e) with
                      | Some l =>
                          let e := set_held l e in
                          let e := set_mem (free cfg_a (free arr_a (mem e))) e in
                          Some (set_pid 0 e)
                      | None => None
                      end
                  | _ => None
                  end
              | None => None
              end
          | _ => None
          end
      | None => None
      end
  else Some e.

(** An engine that holds nothing, and a system where every call
    succeeds, in the process 100. *)
Definition engine0 : engine :=
  {| g_ctx_res := None; g_pid := 0; g_numa_id := 0; g_lock := false; mem := [];
     held := []; wd_inited := false; env_inited := false; registered := [] |}.

Definition sys0 : sys :=
  {| s_getpid := 100; s_dev := Some 1; s_env_enabled := 0; s_set_env := 0;
     s_env_init := 0; s_calloc_cfg := true; s_calloc_ctxs := true;
     s_request_ctx := fun i => 7 + Z.of_nat i; s_wd_rsa_init := 0; s_register := 0 |}.

(** The same with a second context that cannot be requested. *)
Definition sys_no_ctx : sys :=
  {| s_getpid := 100; s_dev := Some 1; s_env_enabled := 0; s_set_env := 0;
     s_env_init := 0; s_calloc_cfg := true; s_calloc_ctxs := true;
     s_request_ctx := fun i => if (i =? 0)%nat then 7 else 0;
     s_wd_rsa_init := 0; s_register := 0 |}.

End Res.

(** The answers with which [uadk_e_wd_rsa_init] comes to its call of
    [async_register_poll_fn]. *)
Definition wd_init_ok (o : Res.sys) : Prop :=
  Res.s_calloc_cfg o = true /\ Res.s_calloc_ctxs o = true /\
  Res.s_request_ctx o 0 <> 0 /\ Res.s_request_ctx o 1 <> 0 /\
  Res.s_wd_rsa_init o = 0.

(** No [struct uacce_dev] among the cells of a piece of heap. *)
Definition no_dev (tail : Res.heap) : Prop :=
  forall n, ~ In (Some (Res.Dev n)) tail.

(** *** Allocation of the parameters and of the method tables *)

Module Mem.

(** [OPENSSL_malloc], [BN_new] and [RSA_meth_new] with the success of the
    call, and [OPENSSL_free], which does nothing on a null pointer. *)
Definition new_block (ok : bool) (b : Res.block) (h : Res.heap)
  : option addr * Res.heap :=
  if ok then let '(a, h) := Res.alloc b h in (Some a, h) else (None, h).

Definition OPENSSL_free (p : option addr) (h : Res.heap) : Res.heap :=
  match p with
  | Some a => Res.free a h
  | None => h
  end.

(** The three pointers [rsa_keygen_param_alloc] writes. *)
Record keygen_ptrs := {
  keygen_param : option addr;
  keygen_bn_param : option addr;
  key_pair : option addr
}.

(** [rsa_keygen_param_alloc(&keygen_param, &keygen_bn_param, &key_pair)];
    the three allocations succeed as [c] says, and [bn_new i] is the
    success of the [i]-th [BN_new], which the code does not test. *)
Definition rsa_keygen_param_alloc (c : collab) (bn_new : nat -> bool) (p : keygen_ptrs)
  (h : Res.heap) : Z * keygen_ptrs * Res.heap :=
  let '(kp, h) := new_block (c_malloc_kg c) Res.Raw h in
  let p := {| keygen_param := kp; keygen_bn_param := keygen_bn_param p;
              key_pair := key_pair p |} in
  if negb (bool_decide (is_Some kp)) then (- ENOMEM, p, h)
  else
    let '(kb, h) := new_block (c_malloc_kg_bn c) (Res.KeygenBn None None None) h in
    let p := {| keygen_param := keygen_param p; keygen_bn_param := kb;
                key_pair := key_pair p |} in
    if negb (bool_decide (is_Some kb)) then
      (* free_keygen_param *)
      (- ENOMEM, p, OPENSSL_free (keygen_param p) h)
    else
      let '(kpair, h) := new_block (c_malloc_kg_pair c) Res.Raw h in
      let p := {| keygen_param := keygen_param p;
                  keygen_bn_param := keygen_bn_param p; key_pair := kpair |} in
      if negb (bool_decide (is_Some kpair)) then
        (* free_keygen_bn_param, free_keygen_param *)
        (- ENOMEM, p,
         OPENSSL_free (keygen_param p) (OPENSSL_free (keygen_bn_param p) h))
      else
        let '(e, h) := new_block (bn_new 0%nat) Res.Bn h in
        let '(bp, h) := new_block (bn_new 1%nat) Res.Bn h in
        let '(bq, h) := new_block (bn_new 2%nat) Res.Bn h in
        let h := match keygen_bn_param p with
                 | Some a => <[a := Some (Res.KeygenBn e bp bq)]> h
                 | None => h
                 end in
        (UADK_E_SUCCESS, p, h).

(** [rsa_keygen_param_free]. *)
Definition rsa_keygen_param_free (p : keygen_ptrs) (h : Res.heap) : Res.heap :=
  OPENSSL_free (key_pair p)
    (OPENSSL_free (keygen_param p) (OPENSSL_free (keygen_bn_param p) h)).

(** [rsa_pkey_param_alloc(pub, pri)]: [want_pub] and [want_pri] say which
    of the two arguments is not null, [pub] and [pri] are the pointers
    they point to. *)
Definition rsa_pkey_param_alloc (c : collab) (want_pub want_pri : bool)
  (pub pri : option addr) (h : Res.heap)
  : Z * option addr * option addr * Res.heap :=
  let '(pub, h, failed) :=
    if want_pub then
      let '(a, h) := new_block (c_malloc_pub c) Res.Raw h in
      (a, h, negb (bool_decide (is_Some a)))
    else (pub, h, false) in
  if failed then (- ENOMEM, pub, pri, h)
  else if want_pri then
    let '(a, h) := new_block (c_malloc_pri c) Res.Raw h in
    if negb (bool_decide (is_Some a)) then
      (- ENOMEM, pub, a, if want_pub then OPENSSL_free pub h else h)
    else (UADK_E_SUCCESS, pub, a, h)
  else (UADK_E_SUCCESS, pub, pri, h).

(** [rsa_pkey_param_free(pub, pri)]. *)
Definition rsa_pkey_param_free (want_pub want_pri : bool) (pub pri : option addr)
  (h : Res.heap) : Res.heap :=
  let h := if want_pub then OPENSSL_free pub h else h in
  if want_pri then OPENSSL_free pri h else h.

(** The two static pointers [rsa_hw_meth] and [rsa_sw_meth]. *)
Record meths := {
  rsa_hw_meth : option addr;
  rsa_sw_meth : option addr
}.

(** [uadk_e_get_rsa_hw_methods]: the table returned, which is made once. *)
Definition uadk_e_get_rsa_hw_methods (meth_new : bool) (m : meths) (h : Res.heap)
  : option addr * meths * Res.heap :=
  match rsa_hw_meth m with
  | Some a => (Some a, m, h)
  | None =>
      let '(a, h) := new_block meth_new (Res.Meth true) h in
      let m := {| rsa_hw_meth := a; rsa_sw_meth := rsa_sw_meth m |} in
      (rsa_hw_meth m, m, h)
  end.

(** [uadk_e_get_rsa_sw_methods]: a table is made at every call; [None]
    when [RSA_meth_new] gave a null pointer, which the setters then
    write through. *)
Definition uadk_e_get_rsa_sw_methods (meth_new : bool) (m : meths) (h : Res.heap)
  : option (option addr * meths * Res.heap) :=
  let '(a, h) := new_block meth_new (Res.Meth false) h in
  let m := {| rsa_hw_meth := rsa_hw_meth m; rsa_sw_meth := a |} in
  match a with
  | Some _ => Some (rsa_sw_meth m, m, h)
  | None => None
  end.

(** [uadk_e_get_rsa_methods]: [dev] is the device of
    [wd_get_accel_dev], whose structure is freed at once. *)
Definition uadk_e_get_rsa_methods (dev : option Z) (meth_new : bool) (m : meths)
  (h : Res.heap) : option (option addr * meths * Res.heap) :=
  match dev with
  | None => uadk_e_get_rsa_sw_methods meth_new m h
  | Some numa_id =>
      let '(d, h) := Res.alloc (Res.Dev numa_id) h in
      let h := Res.free d h in
      Some (uadk_e_get_rsa_hw_methods meth_new m h)
  end.

(** [uadk_e_delete_rsa_meth]. *)
Definition uadk_e_delete_rsa_meth (m : meths) (h : Res.heap) : meths * Res.heap :=
  if negb (bool_decide (is_Some (rsa_hw_meth m)))
     && negb (bool_decide (is_Some (rsa_sw_meth m))) then (m, h)
  else
    let '(m, h) :=
      match rsa_hw_meth m with
      | Some a => ({| rsa_hw_meth := None; rsa_sw_meth := rsa_sw_meth m |}, Res.free a h)
      | None => (m, h)
      end in
    match rsa_sw_meth m with
    | Some a => ({| rsa_hw_meth := rsa_hw_meth m; rsa_sw_meth := None |}, Res.free a h)
    | None => (m, h)
    end.

Definition keygen_ptrs0 : keygen_ptrs :=
  {| keygen_param := None; keygen_bn_param := None; key_pair := None |}.

Definition meths0 : meths := {| rsa_hw_meth := None; rsa_sw_meth := None |}.

End Mem.

(** The [BIGNUM]s made by the three [BN_new] of [rsa_keygen_param_alloc]. *)
Definition new_bignums (bn_new : nat -> bool) : list Res.block :=
  omap (fun i => if bn_new i then Some Res.Bn else None) [0; 1; 2]%nat.

(** *** The answers of [wd_rsa_poll_ctx] *)

(** What [uadk_e_rsa_poll] relies on in the SDK's [wd_rsa_poll_ctx]: a
    status 0 reports that the completions asked for, one, were
    received. *)
Definition poll_reports_count (poll : nat -> Z * Z) : Prop :=
  forall i, (poll i).1 = 0 -> 1 <= (poll i).2.

(** ** Theorems *)

Lemma rsa_check_bit_useful_cases bits flen :
  rsa_check_bit_useful bits flen =
    if (flen =? 0) && (bits <? 0) then SOFT
    else if bits <? 512 then UADK_E_FAIL
    else if (bits =? 1024) || (bits =? 2048) || (bits =? 3072) || (bits =? 4096)
         then UADK_E_SUCCESS
    else SOFT.
Proof.
  unfold rsa_check_bit_useful, RSA_MIN_MODULUS_BITS, RSA1024BITS, RSA2048BITS,
    RSA3072BITS, RSA4096BITS, OPENSSLRSA7680BITS, OPENSSLRSA15360BITS.
  destruct (Z.eqb_spec flen 0) as [->|Hf]; simpl.
  - rewrite Z.gtb_ltb. destruct (bits <? 0); [reflexivity|].
    repeat match goal with |- context [if ?b then _ else _] => destruct b end;
      reflexivity.
  - repeat match goal with |- context [if ?b then _ else _] => destruct b end;
      reflexivity.
Qed.

(** *** The slot pool *)

Lemma next_free_Some st start n i :
  next_free st start n = Some i ->
  st !! Z.to_nat i = Some 0 /\
  (0 <= start < ASYNC_QUEUE_TASK_NUM -> 0 <= i < ASYNC_QUEUE_TASK_NUM).
Proof.
  revert start. induction n as [|n IH]; intros start; simpl; [discriminate|].
  destruct (st !! Z.to_nat start) as [[| |]|] eqn:E; intros H;
    try (apply IH in H as [H1 H2]; split; [exact H1|intros _; apply H2];
         apply Z.mod_pos_bound; reflexivity).
  injection H as <-. split; [exact E|tauto].
Qed.

Lemma next_free_full st start n :
  (forall i, st !! i <> Some 0) -> next_free st start n = None.
Proof.
  intros Hfull. revert start. induction n as [|n IH]; intros start; simpl; [reflexivity|].
  destruct (st !! Z.to_nat start) as [[| |]|] eqn:E; auto.
  exfalso. exact (Hfull _ E).
Qed.

(** A free slot within the next [n] positions of the circular order is
    found. *)
Lemma next_free_finds st start n j :
  0 <= start < ASYNC_QUEUE_TASK_NUM ->
  0 <= j < Z.of_nat n ->
  st !! Z.to_nat ((start + j) mod ASYNC_QUEUE_TASK_NUM) = Some 0 ->
  exists i, next_free st start n = Some i.
Proof.
  revert start j. induction n as [|n IH]; intros start j Hs Hj Hfree; [lia|].
  simpl.
  destruct (st !! Z.to_nat start) as [[| |]|] eqn:E; eauto.
  all: assert (j <> 0) by
    (intros ->; rewrite Z.add_0_r, Z.mod_small in Hfree by exact Hs; congruence).
  all: apply (IH _ (j - 1));
    [apply Z.mod_pos_bound; reflexivity | lia |
     rewrite Z.add_mod_idemp_l by discriminate;
     replace (start + 1 + (j - 1)) with (start + j) by lia; exact Hfree].
Qed.

(** On a well-formed queue with a free slot the acquisition succeeds. *)
Lemma async_get_free_task_finds q i :
  queue_wf q ->
  q_status q !! i = Some 0 ->
  (async_get_free_task q).1.1 = 1.
Proof.
  intros [Hlen Hsid] Hfree.
  assert (Hi : (i < Z.to_nat ASYNC_QUEUE_TASK_NUM)%nat).
  { rewrite <- Hlen. eapply lookup_lt_Some, Hfree. }
  assert (HN : 0 < ASYNC_QUEUE_TASK_NUM) by reflexivity.
  destruct (next_free_finds (q_status q) (q_sid q) (Z.to_nat ASYNC_QUEUE_TASK_NUM)
              ((Z.of_nat i - q_sid q) mod ASYNC_QUEUE_TASK_NUM) Hsid) as [j Hj].
  - rewrite Z2Nat.id by lia. apply Z.mod_pos_bound, HN.
  - rewrite Z.add_mod_idemp_r by lia.
    replace (q_sid q + (Z.of_nat i - q_sid q)) with (Z.of_nat i) by lia.
    rewrite Z.mod_small by lia. rewrite Nat2Z.id. exact Hfree.
  - unfold async_get_free_task. rewrite Hj. reflexivity.
Qed.

Lemma occupancy_le_length q : (occupancy q <= length (q_status q))%nat.
Proof. unfold occupancy. apply List.filter_length_le. Qed.

Lemma async_get_free_task_wf q : queue_wf q -> queue_wf (async_get_free_task q).2.
Proof.
  intros [Hlen Hsid]. unfold async_get_free_task.
  destruct (next_free _ _ _) as [i|] eqn:E; simpl; [|split; assumption].
  split; simpl.
  - rewrite length_insert. exact Hlen.
  - apply Z.mod_pos_bound. reflexivity.
Qed.

Lemma async_free_poll_task_wf id is_cb q :
  queue_wf q -> queue_wf (async_free_poll_task id is_cb q).
Proof.
  intros [Hlen Hsid]. unfold async_free_poll_task.
  destruct (in_pool id); [|split; assumption].
  split; simpl; [rewrite length_insert; exact Hlen | exact Hsid].
Qed.

Lemma pool_run_wf os q : queue_wf q -> queue_wf (pool_run os q).
Proof.
  revert q. induction os as [|o os IH]; intros q Hq; [exact Hq|].
  apply IH. destruct o; simpl.
  - apply async_get_free_task_wf, Hq.
  - apply async_free_poll_task_wf, Hq.
Qed.

Lemma async_queue_init_wf : queue_wf async_queue_init.
Proof.
  split; [apply length_replicate | unfold async_queue_init, ASYNC_QUEUE_TASK_NUM; simpl; lia].
Qed.

(** Acquiring a slot and releasing it restores the occupancy array. *)
Lemma acquire_release_status q ret idx q' is_cb :
  queue_wf q ->
  async_get_free_task q = (ret, idx, q') ->
  ret <> 0 ->
  in_pool idx = true /\
  q_status q !! Z.to_nat idx = Some 0 /\
  q_status (async_free_poll_task idx is_cb q') = q_status q.
Proof.
  intros [Hlen Hsid]. unfold async_get_free_task.
  destruct (next_free _ _ _) as [i|] eqn:E; intros [= <- <- <-] Hret; [|congruence].
  apply next_free_Some in E as [Hfree Hin]. specialize (Hin Hsid).
  assert (Hp : in_pool i = true).
  { unfold in_pool. apply andb_true_iff. split; [apply Z.leb_le|apply Z.ltb_lt]; lia. }
  split; [exact Hp|]. split; [exact Hfree|].
  unfold async_free_poll_task. rewrite Hp. simpl.
  rewrite list_insert_insert_eq. apply list_insert_id. exact Hfree.
Qed.

(** C7. The capacity of the slot pool is the constant 1024
    ([ASYNC_QUEUE_TASK_NUM]) and never grows: after any sequence of
    acquisitions and releases on a well-formed queue the occupancy array
    still has 1024 entries, so at most 1024 slots are occupied at once, and
    [async_get_free_task] reports exhaustion (result 0, queue unchanged)
    when no slot is free, and only then. *)
Theorem slot_pool_bounded (q0 : async_poll_queue) (os : list pool_op) :
  queue_wf q0 ->
  ASYNC_QUEUE_TASK_NUM = 1024 /\
  length (q_status (pool_run os q0)) = 1024%nat /\
  (occupancy (pool_run os q0) <= 1024)%nat /\
  ((forall i, q_status (pool_run os q0) !! i <> Some 0) ->
   async_get_free_task (pool_run os q0) = (0, 0, pool_run os q0)) /\
  ((exists i, q_status (pool_run os q0) !! i = Some 0) ->
   (async_get_free_task (pool_run os q0)).1.1 = 1).
Proof.
  intros Hq0. pose proof (pool_run_wf os q0 Hq0) as Hwf.
  pose proof Hwf as [Hlen _].
  split; [reflexivity|]. split; [exact Hlen|]. split; [|split].
  - etransitivity; [apply occupancy_le_length|]. rewrite Hlen. reflexivity.
  - intros Hfull. unfold async_get_free_task.
    rewrite next_free_full by exact Hfull. reflexivity.
  - intros [i Hi]. eapply async_get_free_task_finds; eassumption.
Qed.

(** After 1024 acquisitions on the initial pool every slot is occupied and
    the next acquisition is refused. *)
Lemma slot_pool_bounded_witness :
  occupancy (pool_run (repeat Acquire 1024) async_queue_init) = 1024%nat /\
  async_get_free_task (pool_run (repeat Acquire 1024) async_queue_init) =
    (0, 0, pool_run (repeat Acquire 1024) async_queue_init).
Proof.
  destruct (slot_pool_bounded async_queue_init (repeat Acquire 1024)
              async_queue_init_wf) as (_ & _ & _ & Hfull & _).
  split; [vm_compute; reflexivity|].
  apply Hfull. intros i.
  replace (q_status (pool_run (repeat Acquire 1024) async_queue_init))
    with (replicate 1024 1) by (vm_compute; reflexivity).
  intros [[=] _]%lookup_replicate.
Defined.

(** C8. Releasing a slot is idempotent: a second [async_free_poll_task] on
    the same index leaves the slot pool (occupancy array and cursors) as
    the first one left it, and releasing a slot that is already free
    leaves the pool as it was; a release that does not come from the
    callback leaves the whole queue as it was. *)
Theorem async_free_poll_task_idempotent (q : async_poll_queue) (id : Z) (is_cb : bool) :
  pool_state (async_free_poll_task id is_cb (async_free_poll_task id is_cb q)) =
    pool_state (async_free_poll_task id is_cb q) /\
  (q_status q !! Z.to_nat id = Some 0 ->
   pool_state (async_free_poll_task id is_cb q) = pool_state q /\
   async_free_poll_task id false q = q) /\
  async_free_poll_task id false (async_free_poll_task id false q) =
    async_free_poll_task id false q.
Proof.
  unfold async_free_poll_task, pool_state.
  destruct (in_pool id) eqn:Hin; simpl; rewrite ?Hin; simpl.
  - rewrite list_insert_insert_eq. split; [reflexivity|]. split; [|reflexivity].
    intros Hfree. rewrite (list_insert_id _ _ _ Hfree).
    split; [reflexivity|]. destruct q; reflexivity.
  - auto.
Qed.

(** Slot 3 occupied, released twice; slot 2, free, released. *)
Lemma async_free_poll_task_idempotent_witness :
  let q := {| q_status := [0; 1; 0; 1]; q_sid := 0; q_rid := 0;
              q_empty_sem := 2; q_full_sem := 0 |} in
  pool_state (async_free_poll_task 3 true (async_free_poll_task 3 true q)) =
    ([0; 1; 0; 0], 0, 0) /\
  pool_state (async_free_poll_task 3 true q) = ([0; 1; 0; 0], 0, 0) /\
  async_free_poll_task 2 false q = q.
Proof.
  intros q.
  destruct (async_free_poll_task_idempotent q 3 true) as (H1 & _ & _).
  destruct (async_free_poll_task_idempotent q 2 false) as (_ & H2 & _).
  split; [rewrite H1; reflexivity|]. split; [reflexivity|].
  apply H2. reflexivity.
Defined.

(** *** Input checks of the methods *)

Lemma check_rsa_input_para_invalid a :
  invalid_input a -> check_rsa_input_para a = UADK_E_FAIL.
Proof.
  unfold invalid_input, check_rsa_input_para.
  destruct (a_rsa a), (a_from a), (a_to a); simpl; try reflexivity.
  intros [H|[H|[H|H]]]; try discriminate.
  apply Z.leb_le in H. rewrite H. reflexivity.
Qed.

(** C10. On a null [rsa], [from] or [to], or on [flen <= 0],
    [uadk_e_rsa_public_verify] returns failure (0) at once and calls no
    software method, while [uadk_e_rsa_public_encrypt],
    [uadk_e_rsa_private_decrypt] and [uadk_e_rsa_private_sign] hand the
    same arguments to the OpenSSL software method. *)
Theorem invalid_input_handling (fuel : nat) (c : collab) (a : rsa_args) (w : world) :
  invalid_input a ->
  uadk_e_rsa_public_verify fuel c a w = Some (Returned UADK_E_FAIL, w) /\
  uadk_e_rsa_public_encrypt fuel c a w = Some (ExeSoft, log EvSoft w) /\
  uadk_e_rsa_private_decrypt fuel c a w = Some (ExeSoft, log EvSoft w) /\
  uadk_e_rsa_private_sign fuel c a w = Some (ExeSoft, log EvSoft w).
Proof.
  intros H. apply check_rsa_input_para_invalid in H.
  unfold uadk_e_rsa_public_verify, uadk_e_rsa_public_encrypt,
    uadk_e_rsa_private_decrypt, uadk_e_rsa_private_sign.
  rewrite H. repeat split.
Qed.

Lemma invalid_input_handling_witness :
  invalid_input null_from_args /\
  uadk_e_rsa_public_verify 1 collab0 null_from_args world0 =
    Some (Returned UADK_E_FAIL, world0) /\
  uadk_e_rsa_public_encrypt 1 collab0 null_from_args world0 =
    Some (ExeSoft, log EvSoft world0) /\
  uadk_e_rsa_private_decrypt 1 collab0 null_from_args world0 =
    Some (ExeSoft, log EvSoft world0) /\
  uadk_e_rsa_private_sign 1 collab0 null_from_args world0 =
    Some (ExeSoft, log EvSoft world0).
Proof.
  assert (H : invalid_input null_from_args) by (right; left; reflexivity).
  split; [exact H|].
  exact (invalid_input_handling 1 collab0 null_from_args world0 H).
Defined.

(** *** The completion callback *)

Lemma uadk_e_rsa_cb_no_target r w :
  cb_target r = None -> async_part (uadk_e_rsa_cb r w) = async_part w.
Proof.
  unfold cb_target, uadk_e_rsa_cb.
  destruct r as [r|]; [|reflexivity].
  destruct (req_cb_param r) as [p|]; [|reflexivity].
  destruct (cb_priv p); [|reflexivity].
  intros ->. reflexivity.
Qed.

Lemma uadk_e_rsa_cb_settled r w opa o :
  cb_target r = Some opa ->
  w_ops w !! opa = Some o ->
  op_done o <> 0 \/ op_job o = None ->
  async_part (uadk_e_rsa_cb r w) = async_part w.
Proof.
  unfold cb_target, uadk_e_rsa_cb.
  destruct r as [r|]; [|discriminate].
  destruct (req_cb_param r) as [p|]; [|discriminate].
  destruct (cb_priv p); [|discriminate].
  intros -> Ho Hsettled. simpl. rewrite Ho.
  destruct (op_job o); [|reflexivity].
  destruct Hsettled as [Hd|Hj]; [|discriminate].
  apply Z.eqb_neq in Hd. rewrite Hd. reflexivity.
Qed.

Lemma uadk_e_rsa_cb_completes r w opa o job :
  cb_target r = Some opa ->
  w_ops w !! opa = Some o ->
  op_done o = 0 ->
  op_job o = Some job ->
  async_part (uadk_e_rsa_cb r w) =
    (<[opa := set_done 1 o]> (w_ops w),
     async_free_poll_task (op_idx o) true (w_queue w),
     w_trace w ++ [EvFreePollTask (op_idx o) true; EvWakeJob job]).
Proof.
  unfold cb_target, uadk_e_rsa_cb.
  destruct r as [r|]; [|discriminate].
  destruct (req_cb_param r) as [p|]; [|discriminate].
  destruct (cb_priv p); [|discriminate].
  intros -> Ho Hd Hj. simpl. rewrite Ho, Hj, Hd. simpl.
  unfold async_part. simpl. rewrite <- app_assoc. reflexivity.
Qed.

Lemma run_callbacks_settled rs w opa o :
  w_ops w !! opa = Some o ->
  op_done o <> 0 \/ op_job o = None ->
  Forall (fun r => cb_target r = None \/ cb_target r = Some opa) rs ->
  async_part (run_callbacks rs w) = async_part w.
Proof.
  intros Ho Hsettled Hrs. revert w Ho.
  induction Hrs as [|r rs Hr _ IH]; intros w Ho; [reflexivity|].
  simpl.
  assert (Hstep : async_part (uadk_e_rsa_cb r w) = async_part w).
  { destruct Hr as [Hr|Hr];
      [apply uadk_e_rsa_cb_no_target, Hr
      |eapply uadk_e_rsa_cb_settled; eassumption]. }
  rewrite <- Hstep. apply IH.
  injection Hstep as -> _ _. exact Ho.
Qed.

(** C2. Completion happens once per suspension context.  Take any number
    of invocations of [uadk_e_rsa_cb] whose requests reach the context at
    [opa] or none.  If the context is already done, or has no job, they
    change neither a done flag, nor the slot pool, nor the releases and
    wake-ups made.  If it has a job and is not done, and at least one
    invocation reaches it, the done flag goes from 0 to 1, the slot is
    released once and the job is woken once, however many invocations
    follow. *)
Theorem uadk_e_rsa_cb_exactly_once (rs : list (option wd_rsa_req)) (w : world)
  (opa : addr) (o : async_op) :
  w_ops w !! opa = Some o ->
  Forall (fun r => cb_target r = None \/ cb_target r = Some opa) rs ->
  (op_done o <> 0 \/ op_job o = None ->
   async_part (run_callbacks rs w) = async_part w) /\
  (forall job, op_done o = 0 -> op_job o = Some job ->
   Exists (fun r => cb_target r = Some opa) rs ->
   async_part (run_callbacks rs w) =
     (<[opa := set_done 1 o]> (w_ops w),
      async_free_poll_task (op_idx o) true (w_queue w),
      w_trace w ++ [EvFreePollTask (op_idx o) true; EvWakeJob job])).
Proof.
  intros Ho Hrs. split.
  - intros Hsettled. eapply run_callbacks_settled; eassumption.
  - intros job Hd Hj Hex. revert w Ho.
    induction Hrs as [|r rs Hr Hrs IH]; intros w Ho; [inversion Hex|].
    simpl. destruct Hr as [Hr|Hr].
    + pose proof (uadk_e_rsa_cb_no_target r w Hr) as Hstep.
      apply Exists_cons in Hex as [Hex|Hex]; [congruence|].
      injection Hstep as Hops Hqueue Htrace.
      rewrite (IH Hex), ?Hops, ?Hqueue, ?Htrace; [reflexivity|].
      rewrite Hops. exact Ho.
    + pose proof (uadk_e_rsa_cb_completes r w opa o job Hr Ho Hd Hj) as Hstep.
      rewrite <- Hstep.
      apply (run_callbacks_settled rs _ opa (set_done 1 o)).
      * injection Hstep as -> _ _. apply lookup_insert_eq.
      * left. simpl. discriminate.
      * exact Hrs.
Qed.

(** Three completions and a null request on the same context: one
    release of slot 2 and one wake-up of job 1. *)
Lemma uadk_e_rsa_cb_exactly_once_witness :
  async_part (run_callbacks [Some cb_req; None; Some cb_req; Some cb_req] cb_world) =
    (<[7%nat := set_done 1 cb_op0]> (w_ops cb_world),
     async_free_poll_task 2 true (w_queue cb_world),
     [EvFreePollTask 2 true; EvWakeJob 1%nat]) /\
  async_part (run_callbacks [Some cb_req; Some cb_req]
                (run_callbacks [Some cb_req] cb_world)) =
    async_part (run_callbacks [Some cb_req] cb_world).
Proof.
  split.
  - apply (uadk_e_rsa_cb_exactly_once
             [Some cb_req; None; Some cb_req; Some cb_req] cb_world 7%nat cb_op0).
    + reflexivity.
    + repeat constructor; (left; reflexivity) || (right; reflexivity).
    + reflexivity.
    + reflexivity.
    + constructor. reflexivity.
  - apply (uadk_e_rsa_cb_exactly_once [Some cb_req; Some cb_req]
             (run_callbacks [Some cb_req] cb_world) 7%nat (set_done 1 cb_op0)).
    + reflexivity.
    + repeat constructor; right; reflexivity.
    + left. discriminate.
Defined.


Arguments uadk_e_rsa_cb : simpl never.

(** *** The submission loop *)

Lemma logs_logs es1 es2 w : logs es2 (logs es1 w) = logs (es1 ++ es2) w.
Proof. unfold logs. simpl. rewrite app_assoc. reflexivity. Qed.

Lemma log_logs e w : log e w = logs [e] w.
Proof. reflexivity. Qed.

Lemma async_calls_cons env j n :
  async_calls env j (S n) = EvDoAsync (e_async_ret env j) :: async_calls env (S j) n.
Proof. reflexivity. Qed.

(** The loop submits until the first answer that is not [-EBUSY]: after
    [k] busy answers it has made [k + 1] submissions, and it leaves by the
    error exit, with the slot released, exactly when that answer is
    negative. *)
Lemma submit_loop_run fuel env j k w :
  (forall i, (j <= i < j + k)%nat -> e_async_ret env i = - EBUSY) ->
  e_async_ret env (j + k) <> - EBUSY ->
  (k < fuel)%nat ->
  submit_loop fuel env j w =
    Some (if e_async_ret env (j + k) <? 0
          then GotoErr (free_poll_task (op_idx (op_at (e_op env) w)) false
                          (logs (async_calls env j (S k)) w))
          else LoopDone (e_async_ret env (j + k)) (logs (async_calls env j (S k)) w)).
Proof.
  revert fuel j w. induction k as [|k IH]; intros fuel j w Hbusy Hlast Hfuel;
    (destruct fuel as [|fuel]; [lia|]); simpl submit_loop.
  - rewrite Nat.add_0_r in *. apply Z.eqb_neq in Hlast. rewrite Hlast. simpl.
    rewrite ?andb_true_r. destruct (e_async_ret env j <? 0); reflexivity.
  - rewrite (Hbusy j) by lia. rewrite Z.eqb_refl. simpl.
    rewrite ?andb_false_r.
    rewrite (IH fuel (S j)); [|intros; apply Hbusy; lia
                              |replace (S j + k)%nat with (j + S k)%nat by lia; exact Hlast
                              |lia].
    replace (S j + k)%nat with (j + S k)%nat by lia.
    rewrite log_logs, logs_logs, (async_calls_cons env j (S k)), (Hbusy j) by lia.
    reflexivity.
Qed.




(** *** [rsa_do_crypto] *)

Lemma setup_ok_inv env w :
  setup_ok env w -> e_setup_ret env <> 0 /\ job_after_setup env w = e_job env.
Proof.
  unfold setup_ok, job_after_setup, async_setup_async_event_notification.
  destruct (Z.eqb_spec (e_setup_ret env) 0) as [E|E]; simpl; [congruence|].
  intros _. split; [exact E|]. unfold op_at. simpl.
  rewrite lookup_insert_eq. reflexivity.
Qed.

Lemma op_at_eq a w o : w_ops w !! a = Some o -> op_at a w = o.
Proof. unfold op_at. intros ->. reflexivity. Qed.

(** The synchronous branch. *)
Lemma rsa_do_crypto_sync fuel env sess w :
  e_setup_ret env <> 0 ->
  e_job env = None ->
  exists w',
    rsa_do_crypto fuel env sess w =
      Some (if e_sync_ret env =? 0 then UADK_E_SUCCESS else UADK_E_FAIL, w') /\
    w_trace w' =
      w_trace w ++ [EvSetupNotification (e_setup_ret env); EvDoSync (e_sync_ret env)]
        ++ (if e_sync_ret env =? 0 then [] else [EvClearNotification]) /\
    w_queue w' = w_queue w /\
    w_sessions w' =
      alter (set_req (set_status (e_sync_status env))) sess (w_sessions w).
Proof.
  intros Hret Hjob. apply Z.eqb_neq in Hret.
  unfold rsa_do_crypto, async_setup_async_event_notification.
  rewrite Hret. simpl. rewrite Hret. unfold op_at. simpl.
  rewrite lookup_insert_eq. simpl. rewrite Hjob.
  destruct (e_sync_ret env =? 0); eexists; (split; [reflexivity|]); simpl;
    rewrite <- ?app_assoc; auto.
Qed.


Section AsyncBranch.

(** A caller with a job, for whom [async_get_free_task] found the slot
    [idx]. *)
Variables (fuel : nat) (env : hw_env) (sess : addr) (w : world).
Variables (job : addr) (ret idx : Z) (q' : async_poll_queue).
Hypothesis Hret : e_setup_ret env <> 0.
Hypothesis Hjob : e_job env = Some job.
Hypothesis Hget : async_get_free_task (w_queue w) = (ret, idx, q').
Hypothesis Hacq : ret <> 0.

(** Up to the submission loop: the slot is taken, its index is in [op],
    and the loop starts. *)
Lemma rsa_do_crypto_async :
  exists w2,
    w_trace w2 =
      w_trace w ++ [EvSetupNotification (e_setup_ret env); EvGetFreeTask ret idx] /\
    w_queue w2 = q' /\
    op_idx (op_at (e_op env) w2) = idx /\
    rsa_do_crypto fuel env sess w =
      match submit_loop fuel env 0 w2 with
      | None => None
      | Some (GotoErr w3) => do_crypto_err w3
      | Some (LoopDone _ w3) =>
          let '(ret, w4) := async_pause_job env sess idx w3 in
          if ret =? 0 then do_crypto_err w4
          else if negb (req_status (req_at sess w4) =? 0)
               then Some (UADK_E_FAIL, w4)
               else Some (UADK_E_SUCCESS, w4)
      end.
Proof.
  pose proof Hret as Hret'. pose proof Hacq as Hacq'.
  apply Z.eqb_neq in Hret', Hacq'.
  unfold rsa_do_crypto, async_setup_async_event_notification.
  rewrite Hret'. simpl. rewrite Hret'.
  erewrite op_at_eq by (simpl; apply lookup_insert_eq). simpl. rewrite Hjob.
  unfold get_free_task. simpl. rewrite Hget. simpl. rewrite Hacq'.
  eexists. split; [|split; [|split; [|reflexivity]]]; simpl.
  - rewrite <- app_assoc. reflexivity.
  - reflexivity.
  - unfold op_at. simpl. rewrite lookup_alter_eq, lookup_insert_eq. reflexivity.
Qed.

Variable k : nat.
Hypothesis Hbusy : forall i, (i < k)%nat -> e_async_ret env i = - EBUSY.
Hypothesis Hfuel : (k < fuel)%nat.

(** A submission refused for good: the exit through [err]. *)
Lemma rsa_do_crypto_fatal :
  e_async_ret env k < 0 ->
  e_async_ret env k <> - EBUSY ->
  exists w',
    rsa_do_crypto fuel env sess w = Some (UADK_E_FAIL, w') /\
    w_trace w' =
      w_trace w ++ [EvSetupNotification (e_setup_ret env); EvGetFreeTask ret idx]
        ++ async_calls env 0 (S k)
        ++ [EvFreePollTask idx false; EvClearNotification] /\
    w_notification w' = false /\
    w_queue w' = async_free_poll_task idx false q'.
Proof.
  intros Hneg Hlast.
  destruct rsa_do_crypto_async as (w2 & Htr & Hq & Hidx & ->).
  rewrite (submit_loop_run fuel env 0 k w2);
    [|intros; apply Hbusy; lia|exact Hlast|exact Hfuel].
  simpl Nat.add. apply Z.ltb_lt in Hneg. rewrite Hneg, Hidx.
  eexists. split; [reflexivity|]. simpl. rewrite Htr, Hq.
  rewrite <- !app_assoc. auto.
Qed.


End AsyncBranch.

Lemma existsb_is_pause_async_calls env j n :
  existsb is_pause (async_calls env j n) = false.
Proof. revert j. induction n as [|n IH]; intros j; [reflexivity|apply IH]. Qed.

Lemma job_after_setup_Some env w :
  setup_ok env w -> job_after_setup env w <> None ->
  e_setup_ret env <> 0 /\ exists job, e_job env = Some job.
Proof.
  intros Hok Hjob. destruct (setup_ok_inv env w Hok) as [Hret Heq].
  split; [exact Hret|]. rewrite Heq in Hjob.
  destruct (e_job env) as [job|]; [eauto|congruence].
Qed.

(** C5. In synchronous mode (after the notification set-up the job handle
    of [op] is null) [rsa_do_crypto] calls [wd_do_rsa_sync] and nothing of
    the asynchronous path: no slot is acquired (the pool is untouched), no
    callback is registered in the request, the job is not paused; the only
    other call is the clearing of the notification on failure.  It returns
    success exactly when [wd_do_rsa_sync] returned zero. *)
Theorem rsa_do_crypto_sync_mode (fuel : nat) (env : hw_env) (sess : addr) (w : world) :
  setup_ok env w ->
  job_after_setup env w = None ->
  exists res w',
    rsa_do_crypto fuel env sess w = Some (res, w') /\
    (res = UADK_E_SUCCESS \/ res = UADK_E_FAIL) /\
    (res = UADK_E_SUCCESS <-> e_sync_ret env = 0) /\
    w_trace w' =
      w_trace w ++ [EvSetupNotification (e_setup_ret env); EvDoSync (e_sync_ret env)]
        ++ (if e_sync_ret env =? 0 then [] else [EvClearNotification]) /\
    w_queue w' = w_queue w /\
    req_cb (req_at sess w') = req_cb (req_at sess w) /\
    req_cb_param (req_at sess w') = req_cb_param (req_at sess w).
Proof.
  intros Hok Hjob. destruct (setup_ok_inv env w Hok) as [Hret Heq].
  rewrite Heq in Hjob.
  destruct (rsa_do_crypto_sync fuel env sess w Hret Hjob) as (w' & Hrun & Htr & Hq & Hs).
  eexists _, w'. split; [exact Hrun|].
  split; [destruct (e_sync_ret env =? 0); auto|].
  split.
  { unfold UADK_E_SUCCESS, UADK_E_FAIL.
    destruct (Z.eqb_spec (e_sync_ret env) 0); split; intros; lia. }
  split; [exact Htr|]. split; [exact Hq|].
  unfold req_at. rewrite Hs, lookup_alter_eq.
  destruct (w_sessions w !! sess); split; reflexivity.
Qed.

Lemma rsa_do_crypto_sync_mode_witness :
  setup_ok (sync_env 0) world0 /\
  job_after_setup (sync_env 0) world0 = None /\
  exists res w',
    rsa_do_crypto 0 (sync_env 0) 5%nat world0 = Some (res, w') /\
    (res = UADK_E_SUCCESS \/ res = UADK_E_FAIL) /\
    (res = UADK_E_SUCCESS <-> e_sync_ret (sync_env 0) = 0) /\
    w_trace w' =
      w_trace world0 ++ [EvSetupNotification 1; EvDoSync 0]
        ++ (if e_sync_ret (sync_env 0) =? 0 then [] else [EvClearNotification]) /\
    w_queue w' = w_queue world0 /\
    req_cb (req_at 5%nat w') = req_cb (req_at 5%nat world0) /\
    req_cb_param (req_at 5%nat w') = req_cb_param (req_at 5%nat world0).
Proof.
  assert (H1 : setup_ok (sync_env 0) world0) by (unfold setup_ok; simpl; lia).
  assert (H2 : job_after_setup (sync_env 0) world0 = None) by reflexivity.
  split; [exact H1|]. split; [exact H2|].
  exact (rsa_do_crypto_sync_mode 0 (sync_env 0) 5%nat world0 H1 H2).
Defined.

(** C1. A fatal status of [wd_do_rsa_async] (negative, not [-EBUSY]),
    after any number of busy answers, makes [rsa_do_crypto] roll back
    without blocking: it releases the acquired slot with
    [async_free_poll_task(op.idx, 0)], clears the notification, never
    calls [async_pause_job], and returns failure; the occupancy of the
    pool is what it was before the call. *)
Theorem rsa_do_crypto_fatal_rollback (fuel : nat) (env : hw_env) (sess : addr)
  (w : world) (k : nat) :
  setup_ok env w ->
  job_after_setup env w <> None ->
  queue_wf (w_queue w) ->
  (async_get_free_task (w_queue w)).1.1 <> 0 ->
  (forall i, (i < k)%nat -> e_async_ret env i = - EBUSY) ->
  e_async_ret env k < 0 ->
  e_async_ret env k <> - EBUSY ->
  (k < fuel)%nat ->
  exists w' new,
    rsa_do_crypto fuel env sess w = Some (UADK_E_FAIL, w') /\
    w_trace w' = w_trace w ++ new /\
    (exists before,
       new = before ++ [EvFreePollTask (async_get_free_task (w_queue w)).1.2 false;
                        EvClearNotification]) /\
    existsb is_pause new = false /\
    w_notification w' = false /\
    q_status (w_queue w') = q_status (w_queue w) /\
    occupancy (w_queue w') = occupancy (w_queue w).
Proof.
  intros Hok Hjob Hwf Hacq Hbusy Hneg Hlast Hfuel.
  destruct (job_after_setup_Some env w Hok Hjob) as (Hret & job & Hj).
  destruct (async_get_free_task (w_queue w)) as [[ret idx] q'] eqn:Hget.
  simpl in Hacq |- *.
  destruct (rsa_do_crypto_fatal fuel env sess w job ret idx q'
              Hret Hj Hget Hacq k Hbusy Hfuel Hneg Hlast)
    as (w' & Hrun & Htr & Hn & Hq).
  destruct (acquire_release_status (w_queue w) ret idx q' false Hwf Hget Hacq)
    as (_ & _ & Hst).
  exists w'. eexists. split; [exact Hrun|]. split; [exact Htr|].
  split; [eexists; rewrite !app_assoc; reflexivity|].
  split.
  { rewrite !existsb_app, existsb_is_pause_async_calls. reflexivity. }
  split; [exact Hn|]. rewrite Hq.
  split; [exact Hst|]. unfold occupancy. rewrite Hst. reflexivity.
Qed.

(** Two busy answers, then [-1]: three submissions, the slot released. *)
Lemma rsa_do_crypto_fatal_rollback_witness :
  exists w' new,
    rsa_do_crypto 3
      (async_env (fun i => if (i <? 2)%nat then - EBUSY else -1)) 5%nat world0 =
      Some (UADK_E_FAIL, w') /\
    w_trace w' = w_trace world0 ++ new /\
    (exists before,
       new = before ++ [EvFreePollTask (async_get_free_task (w_queue world0)).1.2 false;
                        EvClearNotification]) /\
    existsb is_pause new = false /\
    w_notification w' = false /\
    q_status (w_queue w') = q_status (w_queue world0) /\
    occupancy (w_queue w') = occupancy (w_queue world0).
Proof.
  apply (rsa_do_crypto_fatal_rollback 3
           (async_env (fun i => if (i <? 2)%nat then - EBUSY else -1)) 5%nat world0 2).
  - unfold setup_ok; simpl; lia.
  - discriminate.
  - exact async_queue_init_wf.
  - vm_compute. discriminate.
  - intros i Hi. simpl. destruct (Nat.ltb_spec i 2); [reflexivity|lia].
  - simpl. lia.
  - discriminate.
  - lia.
Defined.




(** *** [uadk_e_rsa_poll] *)


(** [uadk_e_rsa_poll] does not test the status itself after its two
    tests: an answer of status 0 with no completion received, which
    [poll_reports_count] excludes, would be returned as it is. *)
Lemma uadk_e_rsa_poll_passes_status :
  uadk_e_rsa_poll 1 (fun _ => (0, 0)) = Some (0, 1%nat) /\
  ~ poll_reports_count (fun _ => (0, 0)).
Proof.
  split; [reflexivity|]. intros H. specialize (H 0%nat eq_refl). simpl in H. lia.
Qed.



(** *** Every outcome of [rsa_do_crypto] *)





(** *** The ways a method ends *)


















(** *** Key sizes and the choice of the path *)

Lemma rsa_check_bit_useful_not_hw bits flen :
  ~ hw_bits bits ->
  rsa_check_bit_useful bits flen = UADK_E_FAIL \/ rsa_check_bit_useful bits flen = SOFT.
Proof.
  rewrite rsa_check_bit_useful_cases. unfold hw_bits. intros Hn.
  destruct ((flen =? 0) && (bits <? 0)); [auto|].
  destruct (bits <? 512); [auto|].
  destruct (Z.eqb_spec bits 1024), (Z.eqb_spec bits 2048), (Z.eqb_spec bits 3072),
    (Z.eqb_spec bits 4096); simpl; auto; exfalso; apply Hn; lia.
Qed.

Lemma check_rsa_input_para_valid a :
  ~ invalid_input a ->
  check_rsa_input_para a = rsa_check_bit_useful (a_bits a) (a_flen a).
Proof.
  unfold invalid_input, check_rsa_input_para. intros Hv.
  destruct (a_rsa a), (a_from a), (a_to a); simpl; try tauto.
  destruct (Z.leb_spec (a_flen a) 0); [tauto|reflexivity].
Qed.

Lemma check_rsa_input_para_not_hw a :
  ~ hw_bits (a_bits a) ->
  check_rsa_input_para a = UADK_E_FAIL \/ check_rsa_input_para a = SOFT.
Proof.
  intros Hn. unfold check_rsa_input_para.
  destruct (_ || _); [auto|]. apply rsa_check_bit_useful_not_hw, Hn.
Qed.

(** C9, the claim as stated fails: key generation passes [flen = 0], and
    a negative bit count then gives [SOFT], not failure. *)
Lemma rsa_check_bit_useful_negative_bits :
  -1 < 512 /\ rsa_check_bit_useful (-1) 0 = SOFT /\ SOFT <> UADK_E_FAIL.
Proof. split; [lia|]. split; [reflexivity|discriminate]. Qed.

(** C9, amended. [rsa_check_bit_useful] returns [UADK_E_SUCCESS] exactly
    for 1024, 2048, 3072 and 4096 bits; every other size of at least 512
    bits gives [SOFT]; a size below 512 gives failure (0) when it is not
    negative or [flen] is not 0, and [SOFT] when it is negative and [flen]
    is 0.  For any other size than those four a method makes no call of
    the hardware path: it calls the software method at once, or, for
    [uadk_e_rsa_public_verify] on a failed check, returns failure; and a
    size of at least 512 with valid arguments always goes to the software
    method. *)
Theorem rsa_check_bit_useful_spec (bits flen : Z) :
  (rsa_check_bit_useful bits flen = UADK_E_SUCCESS <-> hw_bits bits) /\
  (512 <= bits -> ~ hw_bits bits -> rsa_check_bit_useful bits flen = SOFT) /\
  (bits < 512 -> 0 <= bits \/ flen <> 0 ->
   rsa_check_bit_useful bits flen = UADK_E_FAIL) /\
  (bits < 0 -> flen = 0 -> rsa_check_bit_useful bits flen = SOFT) /\
  (forall m fuel c a w,
     a_bits a = bits -> ~ hw_bits bits ->
     uadk_rsa_method m fuel c a w = exe_soft w \/
     (m = PubDec /\ uadk_rsa_method m fuel c a w = Some (Returned UADK_E_FAIL, w))) /\
  (forall m fuel c a w,
     a_bits a = bits -> 512 <= bits -> ~ hw_bits bits -> ~ invalid_input a ->
     uadk_rsa_method m fuel c a w = exe_soft w).
Proof.
  assert (Hbits :
    (rsa_check_bit_useful bits flen = UADK_E_SUCCESS <-> hw_bits bits) /\
    (512 <= bits -> ~ hw_bits bits -> rsa_check_bit_useful bits flen = SOFT) /\
    (bits < 512 -> 0 <= bits \/ flen <> 0 ->
     rsa_check_bit_useful bits flen = UADK_E_FAIL) /\
    (bits < 0 -> flen = 0 -> rsa_check_bit_useful bits flen = SOFT)).
  { rewrite rsa_check_bit_useful_cases.
    unfold hw_bits, UADK_E_SUCCESS, UADK_E_FAIL, SOFT.
    destruct (Z.eqb_spec flen 0), (Z.ltb_spec bits 0), (Z.ltb_spec bits 512),
      (Z.eqb_spec bits 1024), (Z.eqb_spec bits 2048), (Z.eqb_spec bits 3072),
      (Z.eqb_spec bits 4096); simpl; repeat split; intros; try lia; try tauto. }
  destruct Hbits as (H1 & H2 & H3 & H4).
  split; [exact H1|]. split; [exact H2|]. split; [exact H3|]. split; [exact H4|].
  split.
  - intros m fuel c a w <- Hn.
    pose proof (check_rsa_input_para_not_hw a Hn) as Hchk.
    pose proof (rsa_check_bit_useful_not_hw (a_bits a) 0 Hn) as Hkg.
    destruct m; simpl;
      unfold uadk_e_rsa_keygen, uadk_e_rsa_public_encrypt, uadk_e_rsa_private_decrypt,
        uadk_e_rsa_private_sign, uadk_e_rsa_public_verify; cbv zeta;
      try (destruct Hkg as [-> | ->]; left; reflexivity);
      destruct Hchk as [-> | ->]; auto.
  - intros m fuel c a w <- Hge Hn Hv.
    assert (Hkg : rsa_check_bit_useful (a_bits a) 0 = SOFT).
    { destruct (rsa_check_bit_useful_not_hw (a_bits a) 0 Hn) as [E|E]; [|exact E].
      rewrite rsa_check_bit_useful_cases in E |- *.
      destruct (Z.ltb_spec (a_bits a) 0); [lia|].
      destruct (Z.ltb_spec (a_bits a) 512); [lia|]. simpl in *.
      destruct (_ || _); [discriminate|reflexivity]. }
    assert (Hchk : check_rsa_input_para a = SOFT).
    { rewrite (check_rsa_input_para_valid a Hv).
      destruct (rsa_check_bit_useful_not_hw (a_bits a) (a_flen a) Hn) as [E|E]; [|exact E].
      rewrite rsa_check_bit_useful_cases in E |- *.
      destruct ((a_flen a =? 0) && (a_bits a <? 0)); [reflexivity|].
      destruct (Z.ltb_spec (a_bits a) 512); [lia|].
      destruct (_ || _); [discriminate|reflexivity]. }
    destruct m; simpl;
      unfold uadk_e_rsa_keygen, uadk_e_rsa_public_encrypt, uadk_e_rsa_private_decrypt,
        uadk_e_rsa_private_sign, uadk_e_rsa_public_verify; cbv zeta;
      rewrite ?Hkg, ?Hchk; reflexivity.
Qed.

Lemma rsa_check_bit_useful_spec_witness :
  rsa_check_bit_useful 2048 256 = UADK_E_SUCCESS /\
  rsa_check_bit_useful 7680 256 = SOFT /\
  rsa_check_bit_useful 256 32 = UADK_E_FAIL /\
  rsa_check_bit_useful (-8) 0 = SOFT /\
  uadk_rsa_method PrivEnc 1 collab0
    {| a_flen := 32; a_from := true; a_to := true; a_rsa := true;
       a_padding := 1; a_bits := 15360 |} world0 = exe_soft world0.
Proof.
  destruct (rsa_check_bit_useful_spec 2048 256) as (H1 & _).
  destruct (rsa_check_bit_useful_spec 7680 256) as (_ & H2 & _).
  destruct (rsa_check_bit_useful_spec 256 32) as (_ & _ & H3 & _).
  destruct (rsa_check_bit_useful_spec (-8) 0) as (_ & _ & _ & H4 & _).
  destruct (rsa_check_bit_useful_spec 15360 32) as (_ & _ & _ & _ & _ & H5).
  split; [apply H1; unfold hw_bits; lia|].
  split; [apply H2; unfold hw_bits; lia|].
  split; [apply H3; lia|]. split; [apply H4; lia|].
  apply H5; [reflexivity | lia | unfold hw_bits; lia |].
  unfold invalid_input. simpl. intros [H|[H|[H|H]]]; try discriminate; lia.
Defined.

(** ** Further properties of the code *)

(** *** [uadk_e_rsa_env_poll] *)

Lemma rsa_env_poll_loop_run fuel poll j k :
  (forall i, (j <= i < j + k)%nat -> 0 <= (poll i).1 /\ (poll i).2 < 1) ->
  (poll (j + k)%nat).1 < 0 \/ 1 <= (poll (j + k)%nat).2 ->
  (k < fuel)%nat ->
  rsa_env_poll_loop fuel poll j = Some ((poll (j + k)%nat).1, S (j + k)).
Proof.
  revert fuel j. induction k as [|k IH]; intros fuel j Hprefix Hlast Hfuel;
    (destruct fuel as [|fuel]; [lia|]); simpl rsa_env_poll_loop.
  - rewrite Nat.add_0_r in *. destruct (poll j) as [ret recv]. simpl in *.
    destruct (Z.ltb_spec ret 0); [reflexivity|].
    destruct (Z.ltb_spec recv 1); [lia|reflexivity].
  - destruct (Hprefix j) as [Hret Hrecv]; [lia|].
    destruct (poll j) as [ret recv]. simpl in Hret, Hrecv.
    destruct (Z.ltb_spec ret 0); [lia|].
    destruct (Z.ltb_spec recv 1); [|lia].
    rewrite (IH fuel (S j)); [|intros; apply Hprefix; lia
                              |replace (S j + k)%nat with (j + S k)%nat by lia; exact Hlast
                              |lia].
    replace (S j + k)%nat with (j + S k)%nat by lia. reflexivity.
Qed.

Lemma rsa_env_poll_loop_sound fuel poll j res n :
  rsa_env_poll_loop fuel poll j = Some (res, n) ->
  exists k,
    (k < fuel)%nat /\
    n = S (j + k) /\
    res = (poll (j + k)%nat).1 /\
    (forall i, (j <= i < j + k)%nat -> 0 <= (poll i).1 /\ (poll i).2 < 1) /\
    ((poll (j + k)%nat).1 < 0 \/ 1 <= (poll (j + k)%nat).2).
Proof.
  revert j. induction fuel as [|fuel IH]; intros j; simpl; [discriminate|].
  destruct (poll j) as [ret recv] eqn:Hj.
  assert (Hstop : ret < 0 \/ 1 <= recv ->
                  exists k, (k < S fuel)%nat /\ S j = S (j + k) /\
                    ret = (poll (j + k)%nat).1 /\
                    (forall i, (j <= i < j + k)%nat -> 0 <= (poll i).1 /\ (poll i).2 < 1) /\
                    ((poll (j + k)%nat).1 < 0 \/ 1 <= (poll (j + k)%nat).2)).
  { intros Hlast. exists 0%nat. rewrite Nat.add_0_r, Hj. simpl.
    split; [lia|]. split; [reflexivity|]. split; [reflexivity|].
    split; [intros; lia|exact Hlast]. }
  destruct (Z.ltb_spec ret 0) as [Hneg|Hpos].
  { intros [= <- <-]. apply Hstop. left. exact Hneg. }
  destruct (Z.ltb_spec recv 1) as [Hlt|Hge].
  - intros H. apply IH in H as (k & Hk & -> & -> & Hprefix & Hlast).
    exists (S k). replace (j + S k)%nat with (S j + k)%nat by lia.
    split; [lia|]. split; [reflexivity|]. split; [reflexivity|]. split; [|exact Hlast].
    intros i Hi. destruct (Nat.eq_dec i j) as [->|Hne].
    + rewrite Hj. simpl. lia.
    + apply Hprefix. lia.
  - intros [= <- <-]. apply Hstop. right. exact Hge.
Qed.

(** X1. [uadk_e_rsa_env_poll] returns the status of the first call of
    [wd_rsa_poll] that is negative or has observed a completion: a
    negative status ([-EAGAIN] included) is returned at once, without
    another poll, and a non-negative status is returned only once a
    completion was observed; all the polls before it were non-negative
    and observed nothing. *)
Theorem uadk_e_rsa_env_poll_spec (fuel : nat) (poll : nat -> Z * Z) (res : Z) (n : nat) :
  uadk_e_rsa_env_poll fuel poll = Some (res, n) <->
  exists k,
    (k < fuel)%nat /\ n = S k /\ res = (poll k).1 /\
    (forall i, (i < k)%nat -> 0 <= (poll i).1 /\ (poll i).2 < 1) /\
    ((poll k).1 < 0 \/ 1 <= (poll k).2).
Proof.
  unfold uadk_e_rsa_env_poll. split.
  - intros H. destruct (rsa_env_poll_loop_sound _ _ _ _ _ H)
      as (k & Hk & -> & -> & Hprefix & Hlast). simpl in *.
    exists k. split; [exact Hk|]. split; [reflexivity|]. split; [reflexivity|].
    split; [|exact Hlast]. intros i Hi. apply Hprefix. lia.
  - intros (k & Hfuel & -> & -> & Hprefix & Hlast).
    apply (rsa_env_poll_loop_run fuel poll 0 k); try assumption.
    intros i Hi. apply Hprefix. lia.
Qed.

Lemma uadk_e_rsa_env_poll_spec_witness :
  uadk_e_rsa_env_poll 3 (fun i => if (i <? 1)%nat then (0, 0) else (- EAGAIN, 0)) =
    Some (- EAGAIN, 2%nat) /\
  uadk_e_rsa_env_poll 3 (fun i => if (i <? 2)%nat then (0, 0) else (0, 1)) =
    Some (0, 3%nat).
Proof.
  split.
  - apply (uadk_e_rsa_env_poll_spec 3 _ (- EAGAIN) 2). exists 1%nat.
    split; [lia|]. split; [reflexivity|]. split; [reflexivity|]. split.
    + intros i Hi. replace i with 0%nat by lia. simpl. lia.
    + left. reflexivity.
  - apply (uadk_e_rsa_env_poll_spec 3 _ 0 3). exists 2%nat.
    split; [lia|]. split; [reflexivity|]. split; [reflexivity|]. split.
    + intros i Hi. destruct (Nat.ltb_spec i 2); [simpl; lia|lia].
    + right. simpl. lia.
Defined.

(** *** Primes and results as numbers *)

Lemma BN_cmp_eq a b : (BN_cmp a b =? 0) = (a =? b).
Proof.
  unfold BN_cmp. destruct (Z.ltb_spec a b), (Z.eqb_spec a b); try reflexivity; lia.
Qed.

Lemma check_prime_equal_from_fail n j num rsa_p rsa_q prime :
  check_prime_equal_from n j num rsa_p rsa_q prime = UADK_E_FAIL <->
  exists i, j <= i < num /\ i < j + Z.of_nat n /\
            prime = (if i =? 0 then rsa_p else rsa_q).
Proof.
  revert j. induction n as [|n IH]; intros j; simpl check_prime_equal_from.
  - split; [discriminate|]. intros (i & ? & ? & _). lia.
  - destruct (Z.ltb_spec j num) as [Hlt|Hge].
    + rewrite BN_cmp_eq.
      destruct (Z.eqb_spec prime (if j =? 0 then rsa_p else rsa_q)) as [E|E].
      * split; [intros _|reflexivity]. exists j. split; [lia|]. split; [lia|exact E].
      * rewrite IH. split; intros (i & Hi & Hn & Hp); exists i.
        -- split; [lia|]. split; [lia|exact Hp].
        -- assert (i <> j) by (intros ->; contradiction).
           split; [lia|]. split; [lia|exact Hp].
    + split; [discriminate|]. intros (i & ? & _). lia.
Qed.

Lemma check_prime_equal_from_range n j num rsa_p rsa_q prime :
  check_prime_equal_from n j num rsa_p rsa_q prime = UADK_E_FAIL \/
  check_prime_equal_from n j num rsa_p rsa_q prime = UADK_E_SUCCESS.
Proof.
  revert j. induction n as [|n IH]; intros j; simpl; [auto|].
  destruct (j <? num); [|auto]. destruct (_ =? 0); [auto|apply IH].
Qed.

(** X2. [check_prime_equal] rejects a candidate exactly when it equals a
    prime found before: the first prime when [num >= 1], the second one
    when [num >= 2]; it accepts every candidate when [num <= 0]. *)
Theorem check_prime_equal_spec (num rsa_p rsa_q prime : Z) :
  (check_prime_equal num rsa_p rsa_q prime = UADK_E_FAIL <->
   (1 <= num /\ prime = rsa_p) \/ (2 <= num /\ prime = rsa_q)) /\
  (check_prime_equal num rsa_p rsa_q prime = UADK_E_FAIL \/
   check_prime_equal num rsa_p rsa_q prime = UADK_E_SUCCESS).
Proof.
  split.
  - unfold check_prime_equal. rewrite check_prime_equal_from_fail. split.
    + intros (i & Hi & _ & Hp). destruct (Z.eqb_spec i 0) as [->|Hne].
      * left. split; [lia|exact Hp].
      * right. split; [lia|exact Hp].
    + intros [[Hn ->]|[Hn ->]].
      * exists 0. split; [lia|]. split; [lia|reflexivity].
      * exists 1. split; [lia|]. split; [lia|reflexivity].
  - apply check_prime_equal_from_range.
Qed.

Lemma check_prime_equal_spec_witness :
  check_prime_equal 1 11 0 11 = UADK_E_FAIL /\
  check_prime_equal 1 11 0 13 = UADK_E_SUCCESS /\
  check_prime_equal 0 11 0 11 = UADK_E_SUCCESS.
Proof.
  destruct (check_prime_equal_spec 1 11 0 11) as [H1 _].
  split; [apply H1; left; split; [lia|reflexivity]|].
  split; reflexivity.
Defined.

(** X3. When both copies succeed, [switch_p_q] leaves the larger of the
    two generated primes in [p] and the smaller one in [q]: [q <= p], and
    the product is the product of the primes generated. *)
Theorem switch_p_q_orders (rsa_p rsa_q p0 q0 : Z) :
  switch_p_q rsa_p rsa_q p0 q0 true true = (Z.max rsa_p rsa_q, Z.min rsa_p rsa_q) /\
  (switch_p_q rsa_p rsa_q p0 q0 true true).2 <=
    (switch_p_q rsa_p rsa_q p0 q0 true true).1 /\
  (switch_p_q rsa_p rsa_q p0 q0 true true).1 *
    (switch_p_q rsa_p rsa_q p0 q0 true true).2 = rsa_p * rsa_q.
Proof.
  unfold switch_p_q, BN_cmp.
  destruct (Z.ltb_spec rsa_p rsa_q) as [Hlt|Hge]; simpl.
  - rewrite Z.max_r, Z.min_l by lia. repeat split; lia.
  - destruct (Z.eqb_spec rsa_p rsa_q); simpl;
      rewrite Z.max_l, Z.min_r by lia; repeat split; lia.
Qed.

(** X4. With the X9.31 padding [rsa_get_sign_res] selects the smaller of
    the hardware result [s] and [n - s] (so twice the result is at most
    [n]); with any other padding it selects the hardware result itself;
    it fails only when [BN_sub] fails under X9.31. *)
Theorem rsa_get_sign_res_bn_spec (padding n s : Z) (sub : bool) :
  (padding = RSA_X931_PADDING -> sub = true ->
   rsa_get_sign_res_bn padding n s sub = (UADK_E_SUCCESS, Some (Z.min s (n - s))) /\
   2 * Z.min s (n - s) <= n) /\
  (padding <> RSA_X931_PADDING ->
   rsa_get_sign_res_bn padding n s sub = (UADK_E_SUCCESS, Some s)) /\
  ((rsa_get_sign_res_bn padding n s sub).1 = UADK_E_FAIL <->
   padding = RSA_X931_PADDING /\ sub = false).
Proof.
  unfold rsa_get_sign_res_bn, BN_cmp.
  destruct (Z.eqb_spec padding RSA_X931_PADDING) as [E|E].
  - split; [|split].
    + intros _ ->. simpl.
      destruct (Z.ltb_spec s (n - s)); simpl.
      * rewrite Z.min_l by lia. split; [reflexivity|lia].
      * destruct (Z.eqb_spec s (n - s)); simpl;
          [rewrite Z.min_l by lia|rewrite Z.min_r by lia]; split; try reflexivity; lia.
    + contradiction.
    + destruct sub; simpl.
      * destruct (_ >? 0); simpl; split; try discriminate; intros [_ [=]].
      * split; auto.
  - split; [|split]; try reflexivity.
    + intros; contradiction.
    + simpl. split; [discriminate|]. intros [? _]. contradiction.
Qed.

Lemma rsa_get_sign_res_bn_spec_witness :
  rsa_get_sign_res_bn RSA_X931_PADDING 77 60 true = (UADK_E_SUCCESS, Some 17) /\
  rsa_get_sign_res_bn RSA_PKCS1_PADDING 77 60 true = (UADK_E_SUCCESS, Some 60).
Proof.
  destruct (rsa_get_sign_res_bn_spec RSA_X931_PADDING 77 60 true) as ([H1 _] & _);
    [reflexivity|reflexivity|].
  destruct (rsa_get_sign_res_bn_spec RSA_PKCS1_PADDING 77 60 true) as (_ & H2 & _).
  split; [exact H1|apply H2; discriminate].
Defined.

(** *** Filling the keys of a session *)

(** X5. A key is filled once per session.  On a session whose flag is
    unset [rsa_fill_pubkey] (resp. [rsa_fill_prikey], for either key
    form) succeeds and sets the flag, leaving the other flag, the key size
    and, of the request, the status, the callback and its parameter as
    they were; every later call on that session returns failure and
    changes nothing.  The buffers, the sizes and the operation type that
    a successful call writes to the request are not fields of
    [wd_rsa_req] here, and nothing is said of them. *)
Theorem rsa_fill_key_once (sess : addr) (w : world) (s : uadk_rsa_sess) (is_crt : Z) :
  w_sessions w !! sess = Some s ->
  (is_pubkey_ready s = UN_SET ->
   exists s',
     rsa_fill_pubkey sess w = (UADK_E_SUCCESS, upd_sessions (<[sess := s']>) w) /\
     is_pubkey_ready s' = IS_SET /\
     is_prikey_ready s' = is_prikey_ready s /\
     key_size s' = key_size s /\
     req_status (sess_req s') = req_status (sess_req s) /\
     req_cb (sess_req s') = req_cb (sess_req s) /\
     req_cb_param (sess_req s') = req_cb_param (sess_req s) /\
     rsa_fill_pubkey sess (upd_sessions (<[sess := s']>) w) =
       (UADK_E_FAIL, upd_sessions (<[sess := s']>) w)) /\
  (is_prikey_ready s = UN_SET ->
   exists s',
     rsa_fill_prikey is_crt sess w = (UADK_E_SUCCESS, upd_sessions (<[sess := s']>) w) /\
     is_prikey_ready s' = IS_SET /\
     is_pubkey_ready s' = is_pubkey_ready s /\
     key_size s' = key_size s /\
     req_status (sess_req s') = req_status (sess_req s) /\
     req_cb (sess_req s') = req_cb (sess_req s) /\
     req_cb_param (sess_req s') = req_cb_param (sess_req s) /\
     rsa_fill_prikey is_crt sess (upd_sessions (<[sess := s']>) w) =
       (UADK_E_FAIL, upd_sessions (<[sess := s']>) w)).
Proof.
  intros Hs. split; intros Hflag.
  - eexists. unfold rsa_fill_pubkey at 1. rewrite Hs, Hflag. simpl.
    split; [reflexivity|]. repeat (split; [reflexivity|]).
    unfold rsa_fill_pubkey. simpl. rewrite lookup_insert_eq. reflexivity.
  - eexists. unfold rsa_fill_prikey at 1. rewrite Hs, Hflag. simpl.
    replace (negb (is_crt =? 0) || (is_crt =? 0)) with true
      by (destruct (is_crt =? 0); reflexivity).
    split; [reflexivity|]. repeat (split; [reflexivity|]).
    unfold rsa_fill_prikey. simpl. rewrite lookup_insert_eq. reflexivity.
Qed.

Lemma rsa_fill_key_once_witness :
  exists w1,
    rsa_fill_pubkey 5%nat
      (rsa_get_eng_session collab0 2048 world0).2 = (UADK_E_SUCCESS, w1) /\
    rsa_fill_pubkey 5%nat w1 = (UADK_E_FAIL, w1).
Proof.
  destruct (rsa_fill_key_once 5%nat (rsa_get_eng_session collab0 2048 world0).2
              {| sess_req := zero_req; is_pubkey_ready := UN_SET;
                 is_prikey_ready := UN_SET; key_size := Z.shiftr 2048 3 |} 1)
    as [Hpub _]; [reflexivity|].
  destruct (Hpub eq_refl) as (s' & H1 & _ & _ & _ & _ & _ & _ & H2).
  eexists. split; [exact H1|exact H2].
Defined.

(** *** The sessions across [rsa_do_crypto] and the methods *)

Lemma submit_loop_sessions fuel env k w ex :
  submit_loop fuel env k w = Some ex ->
  w_sessions (match ex with GotoErr w' => w' | LoopDone _ w' => w' end) = w_sessions w.
Proof.
  revert k w. induction fuel as [|fuel IH]; intros k w; [discriminate|].
  simpl. destruct (_ && _).
  { intros [= <-]. reflexivity. }
  destruct (_ =? _).
  - intros H. rewrite (IH _ _ H). reflexivity.
  - intros [= <-]. reflexivity.
Qed.

Lemma uadk_e_rsa_cb_sessions r w :
  w_sessions (uadk_e_rsa_cb (Some r) w) = w_sessions w \/
  exists p origin,
    req_cb_param r = Some p /\ cb_priv p = Some origin /\
    w_sessions (uadk_e_rsa_cb (Some r) w) =
      alter (set_req (set_status (req_status r))) origin (w_sessions w).
Proof.
  unfold uadk_e_rsa_cb.
  destruct (req_cb_param r) as [p|] eqn:Hp; [|auto].
  destruct (cb_priv p) as [origin|] eqn:Ho; [|auto].
  right. exists p, origin. split; [reflexivity|].
  split; [exact Ho|].
  destruct (cb_op p); [|reflexivity]. simpl.
  destruct (w_ops w !! _) as [op|]; [|reflexivity].
  destruct (op_job op); [|reflexivity].
  destruct (op_done op =? 0); reflexivity.
Qed.

Lemma lookup_alter_set_req (m : gmap addr uadk_rsa_sess) f sess s :
  (s <> sess -> alter (set_req f) sess m !! s = m !! s) /\
  sess_keys <$> (alter (set_req f) sess m !! s) = sess_keys <$> (m !! s).
Proof.
  split.
  - intros Hne. apply lookup_alter_ne. congruence.
  - destruct (decide (s = sess)) as [->|Hne].
    + rewrite lookup_alter_eq. destruct (m !! sess); reflexivity.
    + rewrite lookup_alter_ne by congruence. reflexivity.
Qed.

(** [rsa_do_crypto] returns success or failure, and writes to the request
    of its own session only. *)
Lemma rsa_do_crypto_sessions fuel env sess w r w' :
  rsa_do_crypto fuel env sess w = Some (r, w') ->
  (r = UADK_E_SUCCESS \/ r = UADK_E_FAIL) /\
  forall s,
    (s <> sess -> w_sessions w' !! s = w_sessions w !! s) /\
    sess_keys <$> (w_sessions w' !! s) = sess_keys <$> (w_sessions w !! s).
Proof.
  unfold rsa_do_crypto, async_setup_async_event_notification.
  destruct (e_setup_ret env =? 0) eqn:Hret.
  { simpl. intros [= <- <-]. split; [auto|]. intros s. simpl. auto. }
  simpl. rewrite Hret.
  destruct (op_job _).
  2:{ unfold wd_do_rsa_sync, do_crypto_err.
      destruct (e_sync_ret env =? 0); intros [= <- <-]; (split; [auto|]);
        intros s; simpl; apply lookup_alter_set_req. }
  unfold get_free_task. simpl.
  destruct (async_get_free_task _) as [[ret idx] q'].
  destruct (ret =? 0).
  { unfold do_crypto_err. intros [= <- <-]. split; [auto|].
    intros s. simpl. apply lookup_alter_set_req. }
  destruct (submit_loop _ _ _ _) as [ex|] eqn:Hloop; [|discriminate].
  apply submit_loop_sessions in Hloop. simpl in Hloop.
  destruct ex as [wl|rl wl].
  { unfold do_crypto_err. intros [= <- <-]. split; [auto|].
    intros s. simpl. rewrite Hloop. apply lookup_alter_set_req. }
  unfold async_pause_job.
  destruct (e_pause_ret env =? 0) eqn:Hpause; cbv beta iota zeta.
  { simpl. unfold do_crypto_err. intros [= <- <-]. split; [auto|].
    intros s. simpl. rewrite Hloop. apply lookup_alter_set_req. }
  rewrite Hpause.
  set (wp := log _ wl).
  set (req_new := set_status _ _).
  assert (Hcb : forall s,
             (s <> sess -> w_sessions (uadk_e_rsa_cb (Some req_new) wp) !! s
                           = w_sessions w !! s) /\
             sess_keys <$> (w_sessions (uadk_e_rsa_cb (Some req_new) wp) !! s)
             = sess_keys <$> (w_sessions w !! s)).
  { intros s.
    assert (Hwp : w_sessions wp = w_sessions wl) by reflexivity.
    destruct (uadk_e_rsa_cb_sessions req_new wp)
      as [E|(p & origin & Hp & Ho & E)]; rewrite E, Hwp, Hloop.
    - apply lookup_alter_set_req.
    - assert (origin = sess) as ->.
      { subst req_new. simpl in Hp. unfold req_at in Hp.
        rewrite Hwp, Hloop, lookup_alter_eq in Hp.
        destruct (w_sessions w !! sess); simpl in Hp; [|discriminate].
        injection Hp as <-. simpl in Ho. congruence. }
      destruct (lookup_alter_set_req
                  (alter (set_req (fun _ =>
                     {| req_status := -1; req_cb := true;
                        req_cb_param := Some {| cb_priv := Some sess;
                                                cb_op := Some (e_op env) |} |}))
                     sess (w_sessions w))
                  (set_status (req_status req_new)) sess s)
        as [H1 H2].
      destruct (lookup_alter_set_req (w_sessions w)
                  (fun _ => {| req_status := -1; req_cb := true;
                               req_cb_param := Some {| cb_priv := Some sess;
                                                       cb_op := Some (e_op env) |} |})
                  sess s) as [H3 H4].
      split.
      + intros Hne. rewrite (H1 Hne). exact (H3 Hne).
      + rewrite H2. exact H4. }
  fold wp. fold req_new.
  destruct (negb (req_status (req_at sess (uadk_e_rsa_cb (Some req_new) wp)) =? 0));
    intros [= <- <-]; (split; [auto|exact Hcb]).
Qed.

(** X6. [rsa_do_crypto] returns [UADK_E_SUCCESS] or [UADK_E_FAIL] and
    writes to the request of its own session only: every other session is
    left as it was, the key flags and the key size of its session are
    kept, and no session appears or disappears.  This holds in both modes
    and on every path, the completion callback included. *)
Theorem rsa_do_crypto_frame (fuel : nat) (env : hw_env) (sess : addr) (w w' : world)
  (r : Z) :
  rsa_do_crypto fuel env sess w = Some (r, w') ->
  (r = UADK_E_SUCCESS \/ r = UADK_E_FAIL) /\
  same_others sess w w' /\
  (forall s, sess_keys <$> (w_sessions w' !! s) = sess_keys <$> (w_sessions w !! s)) /\
  dom (w_sessions w') = dom (w_sessions w).
Proof.
  intros H. destruct (rsa_do_crypto_sessions _ _ _ _ _ _ H) as [Hr Hs].
  split; [exact Hr|]. split; [intros s; apply Hs|]. split; [intros s; apply Hs|].
  apply set_eq. intros s. rewrite !elem_of_dom.
  destruct (Hs s) as [_ Hk].
  destruct (w_sessions w' !! s), (w_sessions w !! s); simpl in Hk;
    try discriminate; split; intros [? ?]; try discriminate; eauto.
Qed.

Lemma rsa_do_crypto_frame_witness :
  exists w',
    rsa_do_crypto 1 (async_env (fun _ => 0)) 5%nat
      (rsa_get_eng_session collab0 2048 world0).2 = Some (UADK_E_SUCCESS, w') /\
    dom (w_sessions w') = dom (w_sessions (rsa_get_eng_session collab0 2048 world0).2).
Proof.
  assert (H : exists w',
             rsa_do_crypto 1 (async_env (fun _ => 0)) 5%nat
               (rsa_get_eng_session collab0 2048 world0).2 = Some (UADK_E_SUCCESS, w'))
    by (vm_compute; eexists; reflexivity).
  destruct H as [w' H]. exists w'. split; [exact H|].
  apply (rsa_do_crypto_frame _ _ _ _ _ _ H).
Defined.

Lemma same_others_trans sess w1 w2 w3 :
  same_others sess w1 w2 -> same_others sess w2 w3 -> same_others sess w1 w3.
Proof. intros H1 H2 s Hs. rewrite (H2 s Hs). apply H1, Hs. Qed.

Lemma same_others_eq sess w1 w2 : w_sessions w2 = w_sessions w1 -> same_others sess w1 w2.
Proof. intros E s _. rewrite E. reflexivity. Qed.

Lemma same_others_insert sess w1 w2 x :
  w_sessions w2 = <[sess := x]> (w_sessions w1) -> same_others sess w1 w2.
Proof. intros E s Hs. rewrite E. apply lookup_insert_ne. congruence. Qed.

Lemma rsa_fill_pubkey_others sess w : same_others sess w (rsa_fill_pubkey sess w).2.
Proof.
  unfold rsa_fill_pubkey. destruct (w_sessions w !! sess); [|intros s _; reflexivity].
  destruct (_ =? _); [|intros s _; reflexivity].
  eapply same_others_insert. reflexivity.
Qed.

Lemma rsa_fill_prikey_others is_crt sess w :
  same_others sess w (rsa_fill_prikey is_crt sess w).2.
Proof.
  unfold rsa_fill_prikey. destruct (w_sessions w !! sess); [|intros s _; reflexivity].
  destruct (_ || _); [|intros s _; reflexivity].
  eapply same_others_insert. reflexivity.
Qed.

Lemma do_crypto_others fuel c sess w ret st w' :
  do_crypto fuel c sess w = Some (ret, st, w') -> same_others sess w w'.
Proof.
  unfold do_crypto.
  destruct (rsa_do_crypto _ _ _ _) as [[r w1]|] eqn:H; [|discriminate].
  intros [= _ _ <-]. intros s Hs. simpl.
  apply (rsa_do_crypto_sessions _ _ _ _ _ _ H), Hs.
Qed.

Lemma delete_same_others sess w wX :
  w_sessions w !! sess = None ->
  same_others sess w wX ->
  delete sess (w_sessions wX) = w_sessions w.
Proof.
  intros Hfresh Hso. apply map_eq. intros s.
  destruct (decide (s = sess)) as [->|Hne].
  - rewrite lookup_delete_eq, Hfresh. reflexivity.
  - rewrite lookup_delete_ne by congruence. apply Hso, Hne.
Qed.

(** The case analysis of a method that has ended, one test after the
    other. *)
Ltac method_inv H :=
  repeat first
    [ discriminate H
    | match type of H with
      | exe_soft _ = _ => unfold exe_soft in H
      | leave_sess _ UADK_DO_SOFT _ = _ =>
          unfold leave_sess, leave in H; rewrite Z.eqb_refl in H
      | leave UADK_DO_SOFT _ = _ => unfold leave in H; rewrite Z.eqb_refl in H
      | leave_sess _ ?r _ = _ =>
          unfold leave_sess, leave in H; destruct (r =? UADK_DO_SOFT) eqn:?
      | context [rsa_fill_pubkey ?s ?w] =>
          let Hso := fresh "Hso" in
          pose proof (rsa_fill_pubkey_others s w) as Hso;
          destruct (rsa_fill_pubkey s w)
      | context [rsa_fill_prikey ?i ?s ?w] =>
          let Hso := fresh "Hso" in
          pose proof (rsa_fill_prikey_others i s w) as Hso;
          destruct (rsa_fill_prikey i s w)
      | context [do_crypto ?f ?c ?s ?w] =>
          let Hdc := fresh "Hdc" in
          destruct (do_crypto f c s w) as [[[? ?] ?]|] eqn:Hdc;
          [apply do_crypto_others in Hdc|]
      | context [rsa_get_eng_session ?c ?b ?w] =>
          unfold rsa_get_eng_session in H; destruct (c_sess c) eqn:?
      | (if ?b then _ else _) = _ => destruct b eqn:?
      end ].

(** X7. A method leaves the sessions as it found them: the session it
    allocates is freed on every path, whether the method returns a value
    or ends in the software method, and no other session is touched. *)
Theorem uadk_rsa_method_frees_session (m : rsa_method) (fuel : nat) (c : collab)
  (a : rsa_args) (w w' : world) (res : rsa_result) :
  (forall s, c_sess c = Some s -> w_sessions w !! s = None) ->
  uadk_rsa_method m fuel c a w = Some (res, w') ->
  w_sessions w' = w_sessions w.
Proof.
  intros Hfresh H.
  destruct m; simpl in H;
    unfold uadk_e_rsa_keygen, uadk_e_rsa_public_encrypt, uadk_e_rsa_private_decrypt,
      uadk_e_rsa_private_sign, uadk_e_rsa_public_verify, uadk_e_rsa_init in H;
    cbv beta iota zeta in H; method_inv H.
  all: injection H as <- <-; simpl; try reflexivity.
  all: first
    [ apply delete_insert_id, Hfresh; reflexivity
    | apply delete_same_others; [apply Hfresh; reflexivity|];
      simpl in *;
      repeat (eapply same_others_trans; [|eassumption]);
      eapply same_others_insert; reflexivity ].
Qed.

Lemma uadk_rsa_method_frees_session_witness :
  exists res w',
    uadk_rsa_method PrivEnc 1 (collab_async (fun _ => 0)) good_args world0
      = Some (res, w') /\
    w_sessions w' = w_sessions world0.
Proof.
  assert (H : exists res w',
             uadk_rsa_method PrivEnc 1 (collab_async (fun _ => 0)) good_args world0
             = Some (res, w'))
    by (vm_compute; eexists _, _; reflexivity).
  destruct H as (res & w' & H). exists res, w'. split; [exact H|].
  apply (uadk_rsa_method_frees_session PrivEnc 1 (collab_async (fun _ => 0)) good_args
           world0 w' res); [|exact H].
  intros s _. reflexivity.
Defined.

(** *** The values the methods return *)

Lemma hw_bits_dec bits : hw_bits bits \/ ~ hw_bits bits.
Proof. unfold hw_bits. lia. Qed.

Lemma invalid_input_dec a : invalid_input a \/ ~ invalid_input a.
Proof.
  unfold invalid_input.
  destruct (a_rsa a), (a_from a), (a_to a); auto.
  destruct (Z.le_gt_cases (a_flen a) 0); [auto|].
  right. intros [H'|[H'|[H'|H']]]; try discriminate; lia.
Qed.

Lemma hw_path_keygen bits :
  (rsa_check_bit_useful bits 0 =? 0) || (rsa_check_bit_useful bits 0 =? SOFT) = false ->
  hw_bits bits.
Proof.
  intros H. destruct (hw_bits_dec bits) as [Hh|Hn]; [exact Hh|].
  destruct (rsa_check_bit_useful_not_hw bits 0 Hn) as [E|E];
    rewrite E in H; discriminate.
Qed.

Lemma hw_path_args a :
  (check_rsa_input_para a =? 0) || (check_rsa_input_para a =? SOFT) = false ->
  hw_bits (a_bits a) /\ ~ invalid_input a.
Proof.
  intros H. split.
  - destruct (hw_bits_dec (a_bits a)) as [Hh|Hn]; [exact Hh|].
    destruct (check_rsa_input_para_not_hw a Hn) as [E|E];
      rewrite E in H; discriminate.
  - destruct (invalid_input_dec a) as [Hi|Hv]; [|exact Hv].
    rewrite (check_rsa_input_para_invalid a Hi) in H. discriminate.
Qed.

Lemma add_rsa_pubenc_padding_ok c num padding :
  (add_rsa_pubenc_padding c true num padding =? 0) = false ->
  0 < c_padding c /\
  (padding = RSA_PKCS1_PADDING \/ padding = RSA_PKCS1_OAEP_PADDING).
Proof.
  unfold add_rsa_pubenc_padding. simpl.
  destruct (num =? 0); [discriminate|].
  destruct (Z.eqb_spec padding RSA_PKCS1_PADDING);
    [|destruct (Z.eqb_spec padding RSA_PKCS1_OAEP_PADDING)];
    try (destruct (Z.leb_spec (c_padding c) 0); [discriminate|auto]).
  discriminate.
Qed.

Lemma add_rsa_prienc_padding_ok c padding :
  (add_rsa_prienc_padding c padding =? 0) = false ->
  0 < c_padding c /\
  (padding = RSA_PKCS1_PADDING \/ padding = RSA_X931_PADDING).
Proof.
  unfold add_rsa_prienc_padding.
  destruct (Z.eqb_spec padding RSA_PKCS1_PADDING);
    [|destruct (Z.eqb_spec padding RSA_X931_PADDING)];
    try (destruct (Z.leb_spec (c_padding c) 0); [discriminate|auto]).
  discriminate.
Qed.

Lemma check_rsa_pridec_padding_ok c padding :
  (check_rsa_pridec_padding c padding =? 0) = false ->
  check_rsa_pridec_padding c padding = c_padding c /\
  c_padding c <> 0 /\ c_padding c <> -1 /\
  (padding = RSA_PKCS1_PADDING \/ padding = RSA_PKCS1_OAEP_PADDING).
Proof.
  unfold check_rsa_pridec_padding, CHECK_PADDING_FAIL, UADK_E_FAIL.
  destruct (Z.eqb_spec padding RSA_PKCS1_PADDING);
    [|destruct (Z.eqb_spec padding RSA_PKCS1_OAEP_PADDING); [|simpl; discriminate]];
    (destruct (Z.eqb_spec (c_padding c) (-1));
     [simpl; discriminate|intros H%Z.eqb_neq; auto]).
Qed.

Lemma check_rsa_pubdec_padding_ok c padding :
  (check_rsa_pubdec_padding c padding =? 0) = false ->
  check_rsa_pubdec_padding c padding = c_padding c /\
  c_padding c <> 0 /\ c_padding c <> -1 /\
  (padding = RSA_PKCS1_PADDING \/ padding = RSA_X931_PADDING).
Proof.
  unfold check_rsa_pubdec_padding, CHECK_PADDING_FAIL, UADK_E_FAIL.
  destruct (Z.eqb_spec padding RSA_PKCS1_PADDING);
    [|destruct (Z.eqb_spec padding RSA_X931_PADDING); [|simpl; discriminate]];
    (destruct (Z.eqb_spec (c_padding c) (-1));
     [simpl; discriminate|intros H%Z.eqb_neq; auto]).
Qed.

(** The case analysis of a method that has returned a value. *)
Ltac returned_inv H :=
  repeat first
    [ discriminate H
    | match type of H with
      | exe_soft _ = _ => unfold exe_soft in H
      | leave_sess _ UADK_DO_SOFT _ = _ =>
          unfold leave_sess, leave in H; rewrite Z.eqb_refl in H
      | leave UADK_DO_SOFT _ = _ => unfold leave in H; rewrite Z.eqb_refl in H
      | leave_sess _ ?r _ = _ =>
          unfold leave_sess, leave in H; destruct (r =? UADK_DO_SOFT) eqn:?
      | (if ?b then _ else _) = _ => destruct b eqn:?
      | context [rsa_get_eng_session ?c ?b ?w] =>
          unfold rsa_get_eng_session in H; destruct (c_sess c) eqn:?
      | match ?x with _ => _ end = _ => destruct x as [[[? ?] ?]|] eqn:?
      | match ?x with _ => _ end = _ => destruct x eqn:?
      end ].

(** X8. The values a method returns itself.  Key generation returns 1
    only.  Public encryption returns the length written by
    [BN_bn2binpad], never [-1]; signing returns it unchecked; both only
    for a supported padding whose OpenSSL routine gave a positive result.
    Decryption and verification return the result of the padding check,
    never 0 and never [-1], and only when [BN_bn2binpad] did not give 0.
    No method returns the marker [UADK_DO_SOFT]; except for the failure of
    verification on a failed input check, a value is returned only for a
    key of 1024, 2048, 3072 or 4096 bits, after the device was
    initialised, and, for the four data methods, on valid arguments. *)
Theorem uadk_rsa_method_returns (m : rsa_method) (fuel : nat) (c : collab)
  (a : rsa_args) (w w' : world) (r : Z) :
  uadk_rsa_method m fuel c a w = Some (Returned r, w') ->
  r <> UADK_DO_SOFT /\
  ((m = PubDec /\ r = UADK_E_FAIL /\ check_rsa_input_para a = UADK_E_FAIL /\ w' = w) \/
   (returned_value m c a r /\ hw_bits (a_bits a) /\ c_init_ret c = 0 /\
    (m <> Keygen -> ~ invalid_input a))).
Proof.
  intros H.
  destruct m; simpl in H;
    unfold uadk_e_rsa_keygen, uadk_e_rsa_public_encrypt, uadk_e_rsa_private_decrypt,
      uadk_e_rsa_private_sign, uadk_e_rsa_public_verify, uadk_e_rsa_init in H;
    cbv beta iota zeta in H; returned_inv H.
  all: injection H as <- <-.
  all: split;
    [first [apply Z.eqb_neq; assumption | discriminate]|].
  all: try (left; repeat split; apply Z.eqb_eq; assumption).
  all: right.
  all: match goal with |- context [hw_bits ?b] => assert (Hbits : hw_bits b)
         by (first
               [ apply hw_path_keygen; assumption
               | apply hw_path_args;
                 first [assumption
                       | repeat match goal with
                                | E : (check_rsa_input_para _ =? _) = false |- _ =>
                                    rewrite E; clear E
                                end; reflexivity] ])
       end.
  all: match goal with |- context [c_init_ret ?c = 0] => assert (Hinit : c_init_ret c = 0)
         by (apply Z.eqb_eq, negb_false_iff; assumption)
       end.
  all: (split; [|split; [exact Hbits|split; [exact Hinit|]]]).
  all: try match goal with
           | |- _ <> _ -> _ =>
               intros Hne;
               first
                 [ exfalso; apply Hne; reflexivity
                 | apply hw_path_args;
                   first [assumption
                         | repeat match goal with
                                  | E : (check_rsa_input_para _ =? _) = false |- _ =>
                                      rewrite E; clear E
                                  end; reflexivity] ]
           end.
  all: unfold returned_value.
  - destruct (c_set0 c); [reflexivity|discriminate].
  - match goal with E : (add_rsa_pubenc_padding _ _ _ _ =? 0) = false |- _ =>
      destruct (add_rsa_pubenc_padding_ok _ _ _ E) as [Hp Hpad] end.
    split; [reflexivity|]. split; [apply Z.eqb_neq; assumption|]. auto.
  - match goal with E : (check_rsa_pridec_padding _ _ =? 0) = false |- _ =>
      destruct (check_rsa_pridec_padding_ok _ _ E) as (Hr & H0 & H1 & Hpad) end.
    rewrite Hr. split; [reflexivity|]. split; [exact H0|]. split; [exact H1|].
    split; [apply Z.eqb_neq; assumption|exact Hpad].
  - match goal with E : (add_rsa_prienc_padding _ _ =? 0) = false |- _ =>
      destruct (add_rsa_prienc_padding_ok _ _ E) as [Hp Hpad] end.
    split; [reflexivity|]. auto.
  - match goal with E : (check_rsa_pubdec_padding _ _ =? 0) = false |- _ =>
      destruct (check_rsa_pubdec_padding_ok _ _ E) as (Hr & H0 & H1 & Hpad) end.
    rewrite Hr. split; [reflexivity|]. split; [exact H0|]. split; [exact H1|].
    split; [apply Z.eqb_neq; assumption|exact Hpad].
Qed.

Lemma uadk_rsa_method_returns_witness :
  exists w',
    uadk_rsa_method PrivDec 1 (collab_async (fun _ => 0)) good_args world0
      = Some (Returned 1, w') /\
    1 <> UADK_DO_SOFT /\ hw_bits (a_bits good_args).
Proof.
  assert (H : exists w',
             uadk_rsa_method PrivDec 1 (collab_async (fun _ => 0)) good_args world0
             = Some (Returned 1, w'))
    by (vm_compute; eexists; reflexivity).
  destruct H as (w' & H). exists w'. split; [exact H|].
  destruct (uadk_rsa_method_returns _ _ _ _ _ _ _ H) as [Hsoft [Hfail|(_ & Hbits & _)]].
  - destruct Hfail as (Hm & _). discriminate Hm.
  - split; [exact Hsoft|exact Hbits].
Defined.

(** *** Prime generation *)

Lemma BN_get_word_rshift a n :
  BN_get_word (BN_rshift a n) = Z.min (Z.shiftr (Z.abs a) n) BN_MASK2.
Proof.
  unfold BN_get_word, BN_rshift.
  assert (Hx : 0 <= Z.shiftr (Z.abs a) n) by (apply Z.shiftr_nonneg, Z.abs_nonneg).
  assert (Habs : Z.abs (Z.sgn a * Z.shiftr (Z.abs a) n) = Z.shiftr (Z.abs a) n).
  { destruct a as [|p|p]; simpl Z.sgn.
    - simpl Z.abs. rewrite Z.shiftr_0_l. reflexivity.
    - rewrite Z.mul_1_l. apply Z.abs_eq, Hx.
    - rewrite Z.abs_mul. simpl (Z.abs (-1)). rewrite Z.mul_1_l. apply Z.abs_eq, Hx. }
  rewrite Habs. destruct (Z.leb_spec (Z.shiftr (Z.abs a) n) BN_MASK2); lia.
Qed.

(** The test on the four leading bits, as bounds on the product. *)
Lemma bitst_in_range a n :
  0 <= n ->
  ((BN_get_word (BN_rshift a n) <? 9) || (BN_get_word (BN_rshift a n) >? 15) = false
   <-> 9 * 2 ^ n <= Z.abs a < 2 ^ (n + 4)).
Proof.
  intros Hn. rewrite BN_get_word_rshift, Z.shiftr_div_pow2 by exact Hn.
  assert (Hpow : 0 < 2 ^ n) by (apply Z.pow_pos_nonneg; lia).
  rewrite Z.pow_add_r by lia. change (2 ^ 4) with 16.
  pose proof (Z.div_mod (Z.abs a) (2 ^ n) ltac:(lia)) as Hdm.
  pose proof (Z.mod_pos_bound (Z.abs a) (2 ^ n) Hpow) as Hmod.
  assert (Hmask : 15 < BN_MASK2) by reflexivity.
  set (x := Z.abs a / 2 ^ n) in *. set (r := Z.abs a mod 2 ^ n) in *.
  rewrite orb_false_iff, Z.ltb_ge, Z.gtb_ltb, Z.ltb_ge.
  split.
  - intros [H1 H2]. assert (9 <= x <= 15) by lia. nia.
  - intros [H1 H2]. assert (9 <= x <= 15) by nia. lia.
Qed.

Lemma check_prime_sufficient_cases (env : bn_env) (num : Z) (bitsr : Z -> Z)
  (bitse rsa_p rsa_q : Z) (st st' : gen_state) (ret num' bitse' : Z) :
  check_prime_sufficient env num bitsr bitse rsa_p rsa_q st = (ret, num', bitse', st') ->
  (ret = BN_VALID \/ ret = BN_REDO \/ ret = BN_CONTINUE \/ ret = BN_ERR) /\
  (0 <= g_retries st <= 4 -> 0 <= g_retries st' <= 4) /\
  (ret = BN_VALID ->
   num = 1 /\ num' = 1 /\ bitse' = bitse /\ 4 <= bitse /\ g_retries st' = 0 /\
   9 * 2 ^ (bitse - 4) <= Z.abs (rsa_p * rsa_q) < 2 ^ bitse) /\
  (ret = BN_REDO ->
   num = 1 /\ num' = 1 /\ bitse' = bitse - bitsr 1 /\
   g_retries st <> 4 /\ g_retries st' = g_retries st + 1) /\
  (ret = BN_CONTINUE ->
   (num <> 1 /\ num' = num /\ bitse' = bitse /\ g_retries st' = g_retries st) \/
   (num = 1 /\ g_retries st = 4 /\ num' = -1 /\ bitse' = 0 /\ g_retries st' = 0)).
Proof.
  unfold check_prime_sufficient, prime_mul_res, BN_VALID, BN_REDO, BN_CONTINUE, BN_ERR,
    RSA_MAX_PRIME_NUM.
  destruct (Z.eqb_spec num 1) as [->|Hnum].
  2:{ destruct (b_gencb_call env (g_calls st)); simpl; intros [= <- <- <- <-];
        simpl; repeat split; intros; try lia; auto. }
  destruct (b_mul env (g_calls st)); simpl.
  2:{ intros [= <- <- <- <-]. simpl. repeat split; intros; try lia; auto. }
  destruct (b_rshift env (S (g_calls st))); simpl.
  2:{ intros [= <- <- <- <-]. simpl. repeat split; intros; try lia; auto. }
  destruct (Z.leb_spec 0 (bitse - 4)) as [Hshift|Hshift]; simpl.
  2:{ intros [= <- <- <- <-]. simpl. repeat split; intros; try lia; auto. }
  pose proof (bitst_in_range (rsa_p * rsa_q) (bitse - 4) Hshift) as Hrange.
  replace (bitse - 4 + 4) with bitse in Hrange by lia.
  destruct (_ || _).
  - destruct (b_gencb_call env _); simpl.
    2:{ intros [= <- <- <- <-]. simpl. repeat split; intros; try lia; auto. }
    destruct (Z.eqb_spec (g_retries st) 4) as [Hr|Hr].
    + intros [= <- <- <- <-]. simpl. repeat split; intros; try lia; auto.
    + intros [= <- <- <- <-]. simpl. repeat split; intros; try lia; auto.
  - destruct (b_gencb_call env _); simpl.
    2:{ intros [= <- <- <- <-]. simpl. repeat split; intros; try lia; auto. }
    intros [= <- <- <- <-]. simpl.
    destruct Hrange as [Hrange _]. specialize (Hrange eq_refl).
    repeat split; intros; try lia; auto.
Qed.

(** X9. [check_prime_sufficient] on the state of the generation.  It
    returns [BN_VALID], [BN_REDO], [BN_CONTINUE] or [BN_ERR].  [BN_VALID]
    is returned for the second prime only, leaves [num] and [bitse] as
    they are, resets the retry counter, and means that the product of the
    two primes has exactly [bitse] bits with its four leading bits
    between 9 and 15.  [BN_REDO] is returned for the second prime only,
    takes the bits of that prime back from [bitse] and counts one retry;
    the fifth product in a row that is too short restarts the generation
    ([num = -1], [bitse = 0], counter reset).  The retry counter stays
    between 0 and 4. *)
Theorem check_prime_sufficient_spec (env : bn_env) (num : Z) (bitsr : Z -> Z)
  (bitse rsa_p rsa_q : Z) (st st' : gen_state) (ret num' bitse' : Z) :
  check_prime_sufficient env num bitsr bitse rsa_p rsa_q st = (ret, num', bitse', st') ->
  (ret = BN_VALID \/ ret = BN_REDO \/ ret = BN_CONTINUE \/ ret = BN_ERR) /\
  (0 <= g_retries st <= 4 -> 0 <= g_retries st' <= 4) /\
  (ret = BN_VALID ->
   num = 1 /\ num' = 1 /\ bitse' = bitse /\ 4 <= bitse /\ g_retries st' = 0 /\
   9 * 2 ^ (bitse - 4) <= Z.abs (rsa_p * rsa_q) < 2 ^ bitse) /\
  (ret = BN_REDO ->
   num = 1 /\ num' = 1 /\ bitse' = bitse - bitsr 1 /\
   g_retries st <> 4 /\ g_retries st' = g_retries st + 1) /\
  (ret = BN_CONTINUE ->
   (num <> 1 /\ num' = num /\ bitse' = bitse /\ g_retries st' = g_retries st) \/
   (num = 1 /\ g_retries st = 4 /\ num' = -1 /\ bitse' = 0 /\ g_retries st' = 0)).
Proof. apply check_prime_sufficient_cases. Qed.

Lemma check_prime_sufficient_spec_witness :
  check_prime_sufficient bn_env0 1 (bitsr 10) 10 29 31 gen_state0
    = (BN_VALID, 1, 10, {| g_calls := 3; g_retries := 0 |}) /\
  9 * 2 ^ 6 <= Z.abs (29 * 31) < 2 ^ 10.
Proof.
  split; [reflexivity|].
  destruct (check_prime_sufficient_spec bn_env0 1 (bitsr 10) 10 29 31 gen_state0
              {| g_calls := 3; g_retries := 0 |} BN_VALID 1 10 eq_refl)
    as (_ & _ & Hvalid & _).
  destruct (Hvalid eq_refl) as (_ & _ & _ & _ & _ & Hbound). exact Hbound.
Defined.

Lemma check_prime_equal_accepts num rsa_p rsa_q prime :
  (check_prime_equal num rsa_p rsa_q prime =? 0) = false ->
  check_prime_equal num rsa_p rsa_q prime = UADK_E_SUCCESS /\
  (1 <= num -> prime <> rsa_p).
Proof.
  intros H. unfold check_prime_equal in *.
  destruct (check_prime_equal_from_range (Z.to_nat num) 0 num rsa_p rsa_q prime)
    as [E|E]; [rewrite E in H; discriminate|].
  split; [exact E|]. intros Hnum ->.
  assert (Hfail : check_prime_equal_from (Z.to_nat num) 0 num rsa_p rsa_q rsa_p
                  = UADK_E_FAIL).
  { apply check_prime_equal_from_fail. exists 0. split; [lia|]. split; [lia|reflexivity]. }
  rewrite Hfail in E. discriminate.
Qed.

Lemma set_primes_twice num x y rsa_p rsa_q :
  set_primes num x (set_primes num y rsa_p rsa_q).1 (set_primes num y rsa_p rsa_q).2
  = set_primes num x rsa_p rsa_q.
Proof. unfold set_primes. destruct (num =? 0); reflexivity. Qed.

Lemma check_prime_useful_cases env prime e_pub st ret st' :
  check_prime_useful env prime e_pub st = (ret, st') ->
  g_retries st' = g_retries st /\
  (g_calls st < g_calls st')%nat /\
  (ret = UADK_E_SUCCESS \/ ret = BN_ERR \/ ret = GET_ERR_FINISH) /\
  (ret = UADK_E_SUCCESS ->
   g_calls st' = S (S (g_calls st)) /\
   b_sub env (g_calls st) = true /\
   b_mod_inverse env (S (g_calls st)) (prime - 1) e_pub = InverseFound).
Proof.
  unfold check_prime_useful, UADK_E_SUCCESS, BN_ERR, GET_ERR_FINISH.
  destruct (b_sub env (g_calls st)); simpl.
  2:{ intros [= <- <-]. simpl. repeat split; auto; try lia; try discriminate. }
  destruct (b_mod_inverse env _ _ _) eqn:Hinv.
  - intros [= <- <-]. simpl. repeat split; auto; lia.
  - destruct (b_gencb_call env _); simpl; intros [= <- <-]; simpl;
      repeat split; auto; try lia; discriminate.
  - intros [= <- <-]. simpl. repeat split; auto; try lia; try discriminate.
Qed.

Lemma get_prime_loop_cases fuel env num b e_pub :
  forall rsa_p rsa_q st ret rp rq st',
    get_prime_loop fuel env num b rsa_p rsa_q e_pub st = Some (ret, rp, rq, st') ->
    (ret = UADK_E_SUCCESS \/ ret = BN_ERR) /\
    g_retries st' = g_retries st /\
    (g_calls st < g_calls st')%nat /\
    (ret = UADK_E_SUCCESS ->
     exists t prime,
       (g_calls st <= t)%nat /\ g_calls st' = S (S (S t)) /\
       accepted_prime env b e_pub t prime /\
       (rp, rq) = set_primes num prime rsa_p rsa_q /\
       (1 <= num -> prime <> rp)).
Proof.
  induction fuel as [|fuel IH]; intros rsa_p rsa_q st ret rp rq st'; [discriminate|].
  simpl.
  destruct (b_generate_prime env (g_calls st) b) as [prime|] eqn:Hgen.
  2:{ intros [= <- <- <- <-]. simpl. split; [auto|]. split; [reflexivity|].
      split; [lia|discriminate]. }
  pose proof (set_primes_twice num) as Htwice.
  destruct (set_primes num prime rsa_p rsa_q) as [rp1 rq1] eqn:Hset.
  assert (Hrec : forall ret rp rq st',
             get_prime_loop fuel env num b rp1 rq1 e_pub (tick st)
             = Some (ret, rp, rq, st') ->
             (ret = UADK_E_SUCCESS \/ ret = BN_ERR) /\
             g_retries st' = g_retries st /\
             (g_calls st < g_calls st')%nat /\
             (ret = UADK_E_SUCCESS ->
              exists t prime,
                (g_calls st <= t)%nat /\ g_calls st' = S (S (S t)) /\
                accepted_prime env b e_pub t prime /\
                (rp, rq) = set_primes num prime rsa_p rsa_q /\
                (1 <= num -> prime <> rp))).
  { intros ret0 rp0 rq0 st0 H0.
    destruct (IH _ _ _ _ _ _ _ H0) as (Hr & Hretr & Hcalls & Hok).
    simpl in Hretr, Hcalls. split; [exact Hr|]. split; [exact Hretr|]. split; [lia|].
    intros Hs. destruct (Hok Hs) as (t & x & Ht & Hst & Hacc & Hpair & Hne).
    exists t, x. split; [simpl in Ht; lia|]. split; [exact Hst|]. split; [exact Hacc|].
    split; [|exact Hne].
    rewrite Hpair, <- (Htwice x prime rsa_p rsa_q), Hset. reflexivity. }
  destruct (check_prime_equal num rp1 rq1 prime =? 0) eqn:Heq.
  { apply Hrec. }
  destruct (check_prime_equal_accepts _ _ _ _ Heq) as [_ Hne].
  destruct (check_prime_useful env prime e_pub (tick st)) as [r st1] eqn:Huse.
  destruct (check_prime_useful_cases _ _ _ _ _ _ Huse) as (Hretr & Hcalls & Hr & Hok).
  simpl in Hretr, Hcalls, Hok.
  destruct (Z.eqb_spec r BN_ERR) as [->|Herr].
  { intros [= <- <- <- <-]. split; [auto|]. split; [exact Hretr|]. split; [lia|].
    discriminate. }
  destruct (Z.eqb_spec r UADK_E_SUCCESS) as [->|Hsucc].
  { intros [= <- <- <- <-]. split; [auto|]. split; [exact Hretr|]. split; [lia|].
    intros _. destruct (Hok eq_refl) as (Hst & Hsub & Hinv).
    exists (g_calls st), prime. split; [lia|]. split; [exact Hst|].
    split; [split; [exact Hgen|split; [exact Hsub|exact Hinv]]|].
    split; [symmetry; exact Hset|].
    intros Hnum. unfold set_primes in Hset.
    destruct (Z.eqb_spec num 0); [lia|]. injection Hset as <- <-. apply Hne, Hnum. }
  intros H.
  destruct (IH _ _ _ _ _ _ _ H) as (Hr' & Hretr' & Hcalls' & Hok').
  split; [exact Hr'|]. split; [congruence|]. split; [lia|].
  intros Hs. destruct (Hok' Hs) as (t & x & Ht & Hst & Hacc & Hpair & Hne').
  exists t, x. split; [lia|]. split; [exact Hst|]. split; [exact Hacc|].
  split; [|exact Hne'].
  rewrite Hpair, <- (Htwice x prime rsa_p rsa_q), Hset. reflexivity.
Qed.

Lemma get_prime_once_cases fuel env num bitsr rsa_p rsa_q e_pub st ret rp rq st' :
  get_prime_once fuel env num bitsr rsa_p rsa_q e_pub st = Some (ret, rp, rq, st') ->
  (ret = UADK_E_SUCCESS \/ ret = BN_ERR) /\
  g_retries st' = g_retries st /\
  (2 <= num -> ret = BN_ERR /\ (rp, rq, st') = (rsa_p, rsa_q, st)) /\
  (ret = UADK_E_SUCCESS ->
   num < 2 /\
   exists t prime,
     (g_calls st <= t < g_calls st')%nat /\
     accepted_prime env (bitsr num) e_pub t prime /\
     (rp, rq) = set_primes num prime rsa_p rsa_q /\
     (1 <= num -> prime <> rp)).
Proof.
  unfold get_prime_once, RSA_MAX_PRIME_NUM.
  destruct (Z.geb_spec num 2) as [Hge|Hlt].
  { intros [= <- <- <- <-]. split; [auto|]. split; [reflexivity|].
    split; [auto|discriminate]. }
  intros H. destruct (get_prime_loop_cases _ _ _ _ _ _ _ _ _ _ _ _ H)
    as (Hr & Hretr & Hcalls & Hok).
  split; [exact Hr|]. split; [exact Hretr|]. split; [lia|].
  intros Hs. split; [lia|].
  destruct (Hok Hs) as (t & prime & Ht & Hst & Hacc & Hpair & Hne).
  exists t, prime. split; [lia|]. split; [exact Hacc|]. split; [exact Hpair|exact Hne].
Qed.

(** X10. [get_prime_once] returns 1 or [-1], and [-1] at once for an index
    of 2 or more.  When it returns 1, the prime it has written through
    [prime] (to [rsa_p] for the index 0, to [rsa_q] otherwise, the other
    one being left as it was) is an answer of the generator to a request
    of [bitsr[num]] bits, [prime - 1] was found invertible modulo
    [e_pub], and for the index 1 it differs from the first prime.  The
    retry counter is not touched. *)
Theorem get_prime_once_spec (fuel : nat) (env : bn_env) (num : Z) (bitsr : Z -> Z)
  (rsa_p rsa_q e_pub : Z) (st st' : gen_state) (ret rp rq : Z) :
  get_prime_once fuel env num bitsr rsa_p rsa_q e_pub st = Some (ret, rp, rq, st') ->
  (ret = UADK_E_SUCCESS \/ ret = BN_ERR) /\
  g_retries st' = g_retries st /\
  (2 <= num -> ret = BN_ERR /\ (rp, rq, st') = (rsa_p, rsa_q, st)) /\
  (ret = UADK_E_SUCCESS ->
   num < 2 /\
   exists t prime,
     (g_calls st <= t < g_calls st')%nat /\
     accepted_prime env (bitsr num) e_pub t prime /\
     (rp, rq) = set_primes num prime rsa_p rsa_q /\
     (1 <= num -> prime <> rp)).
Proof. apply get_prime_once_cases. Qed.

Lemma get_prime_once_spec_witness :
  get_prime_once 2 bn_env0 1 (bitsr 10) 29 0 11 {| g_calls := 4; g_retries := 0 |}
    = Some (UADK_E_SUCCESS, 29, 31, {| g_calls := 7; g_retries := 0 |}) /\
  exists t prime,
    accepted_prime bn_env0 (bitsr 10 1) 11 t prime /\
    (29, 31) = set_primes 1 prime 29 0 /\ prime <> 29.
Proof.
  split; [reflexivity|].
  destruct (get_prime_once_spec 2 bn_env0 1 (bitsr 10) 29 0 11
              {| g_calls := 4; g_retries := 0 |} {| g_calls := 7; g_retries := 0 |}
              UADK_E_SUCCESS 29 31 eq_refl) as (_ & _ & _ & Hok).
  destruct (Hok eq_refl) as (_ & t & prime & _ & Hacc & Hpair & Hne).
  exists t, prime. split; [exact Hacc|]. split; [exact Hpair|apply Hne; lia].
Defined.

Lemma bitsr_sum bits : 0 <= bits -> bitsr bits 0 + bitsr bits 1 = bits.
Proof.
  intros Hb. unfold bitsr.
  pose proof (Z.quot_rem' bits 2) as Hqr.
  pose proof (Z.rem_bound_pos bits 2 Hb ltac:(lia)) as Hrem.
  destruct (Z.ltb_spec 0 (Z.rem bits 2)), (Z.ltb_spec 1 (Z.rem bits 2)); lia.
Qed.

Lemma switch_p_q_copied a b p0 q0 :
  a <> b ->
  switch_p_q a b p0 q0 true true = (Z.max a b, Z.min a b) /\
  Z.min a b < Z.max a b /\ Z.max a b * Z.min a b = a * b.
Proof.
  intros Hne. unfold switch_p_q, BN_cmp.
  destruct (Z.ltb_spec a b); simpl.
  - rewrite Z.max_r, Z.min_l by lia. split; [reflexivity|]. split; lia.
  - destruct (Z.eqb_spec a b); [contradiction|]. simpl.
    rewrite Z.max_l, Z.min_r by lia. split; [reflexivity|]. split; lia.
Qed.

Lemma primes_loop_reaches fuel env bits e_pub p0 q0 :
  forall i bitse ret rsa_p rsa_q st r p q st',
    primes_loop fuel env bits e_pub p0 q0 i bitse ret rsa_p rsa_q st
    = Some (r, Some (p, q), st') ->
    primes_loop_inv env bits e_pub i bitse rsa_p rsa_q st ->
    r = UADK_E_SUCCESS /\ g_retries st' = 0 /\
    exists a b t,
      generated_pair env bits e_pub a b /\
      g_calls st' = S (S t) /\
      (p, q) = switch_p_q a b p0 q0 (b_copy env t) (b_copy env (S t)).
Proof.
  induction fuel as [|fuel IH]; intros i bitse ret rsa_p rsa_q st r p q st';
    [discriminate|].
  simpl. unfold RSA_MAX_PRIME_NUM.
  destruct (Z.ltb_spec i 2) as [Hi|Hi].
  2:{ intros [= <- <- <-] [[-> _]|[(-> & _)|(_ & Hretr & Hpair)]]; try lia.
      split; [reflexivity|]. split; [exact Hretr|].
      exists rsa_p, rsa_q, (g_calls st). split; [exact Hpair|].
      split; [reflexivity|]. reflexivity. }
  destruct (get_prime_once _ _ _ _ _ _ _ _) as [[[[got rp] rq] st1]|] eqn:Hget;
    [|discriminate].
  destruct (get_prime_once_cases _ _ _ _ _ _ _ _ _ _ _ _ Hget)
    as (Hgot & Hretr1 & _ & Hok).
  destruct (Z.eqb_spec got (-1)) as [->|Hne]; [discriminate|].
  destruct Hgot as [-> | ->]; [|contradiction].
  destruct (Hok eq_refl) as (_ & t & prime & Ht & Hacc & Hpair & Hdiff).
  destruct (check_prime_sufficient _ _ _ _ _ _ _) as [[[r1 i1] bitse1] st2] eqn:Hsuff.
  destruct (check_prime_sufficient_cases _ _ _ _ _ _ _ _ _ _ _ Hsuff)
    as (Hr1 & _ & Hvalid & Hredo & Hcont).
  intros Hrun Hinv.
  destruct (Z.eqb_spec r1 BN_ERR) as [->|Herr]; [discriminate|].
  assert (Hcalls2 : (g_calls st1 <= g_calls st2)%nat).
  { revert Hsuff. unfold check_prime_sufficient, prime_mul_res.
    repeat match goal with
           | |- context [if ?b then _ else _] => destruct b
           end; simpl; intros [= _ _ _ <-]; simpl; lia. }
  destruct (Z.eqb_spec r1 BN_REDO) as [->|Hnredo].
  - destruct (Hredo eq_refl) as (-> & -> & -> & _).
    apply (IH _ _ _ _ _ _ _ _ _ _ Hrun).
    destruct Hinv as [[? _]|[(_ & -> & ta & Hta & Hfirst)|(? & _)]]; try lia.
    right. left. split; [reflexivity|]. split; [lia|].
    unfold set_primes in Hpair. simpl in Hpair. injection Hpair as -> ->.
    exists ta. split; [lia|exact Hfirst].
  - apply (IH _ _ _ _ _ _ _ _ _ _ Hrun).
    destruct Hr1 as [-> | [-> | [-> | ->]]]; try contradiction.
    + destruct (Hvalid eq_refl) as (-> & -> & -> & Hfour & Hretr2 & Hbound).
      destruct Hinv as [[? _]|[(_ & -> & ta & Hta & Hfirst)|(? & _)]]; try lia.
      right. right. split; [reflexivity|]. split; [exact Hretr2|].
      unfold set_primes in Hpair. simpl in Hpair. injection Hpair as -> ->.
      exists ta, t. split; [lia|]. split; [exact Hfirst|]. split; [exact Hacc|].
      split; [apply Hdiff; lia|]. split; [exact Hfour|exact Hbound].
    + destruct (Hcont eq_refl) as [(Hn1 & -> & -> & _)|(-> & _ & -> & -> & _)].
      * destruct Hinv as [[-> ->]|[(-> & _)|(? & _)]]; try lia.
        right. left. split; [reflexivity|]. split; [simpl; lia|].
        unfold set_primes in Hpair. simpl in Hpair. injection Hpair as -> ->.
        exists t. split; [lia|exact Hacc].
      * left. split; reflexivity.
Qed.

(** X11. When [rsa_primes_gen] reaches [switch_p_q], it returns 1 with
    the retry counter at 0, and the two primes [a] and [b] it hands over
    were each accepted by [get_prime_once] for its share of the bits
    ([a - 1] and [b - 1] invertible modulo [e_pub]), are different, and
    have a product of exactly [bitsr[0] + bitsr[1]] bits whose four
    leading bits are at least 9; this sum is [bits] for a non-negative
    [bits].  When both [BN_copy] succeed, [p] is the larger prime and [q]
    the smaller one. *)
Theorem rsa_primes_gen_sound (fuel : nat) (env : bn_env) (bits e_pub p0 q0 : Z)
  (st st' : gen_state) (r p q : Z) :
  rsa_primes_gen fuel env bits e_pub p0 q0 st = Some (r, Some (p, q), st') ->
  r = UADK_E_SUCCESS /\ g_retries st' = 0 /\
  (0 <= bits -> bitsr bits 0 + bitsr bits 1 = bits) /\
  exists a b t,
    generated_pair env bits e_pub a b /\
    (p, q) = switch_p_q a b p0 q0 (b_copy env t) (b_copy env (S t)) /\
    (b_copy env t = true -> b_copy env (S t) = true ->
     p = Z.max a b /\ q = Z.min a b /\ q < p /\ p * q = a * b).
Proof.
  unfold rsa_primes_gen.
  destruct (b_ctx_new env); [|discriminate].
  destruct (b_ctx_get env); [|discriminate]. simpl.
  intros H.
  destruct (primes_loop_reaches _ _ _ _ _ _ _ _ _ _ _ _ _ _ _ _ H)
    as (Hr & Hretr & a & b & t & Hpair & _ & Hpq).
  { left. split; reflexivity. }
  split; [exact Hr|]. split; [exact Hretr|]. split; [apply bitsr_sum|].
  exists a, b, t. split; [exact Hpair|]. split; [exact Hpq|].
  intros Hc1 Hc2. rewrite Hc1, Hc2 in Hpq.
  destruct Hpair as (_ & _ & _ & _ & _ & Hne & _).
  destruct (switch_p_q_copied a b p0 q0 ltac:(congruence)) as (Hsw & Hlt & Hmul).
  rewrite Hsw in Hpq. injection Hpq as -> ->.
  split; [reflexivity|]. split; [reflexivity|]. split; [exact Hlt|exact Hmul].
Qed.

Lemma rsa_primes_gen_sound_witness :
  rsa_primes_gen 3 bn_env0 10 11 0 0 gen_state0
    = Some (UADK_E_SUCCESS, Some (31, 29), {| g_calls := 12; g_retries := 0 |}) /\
  exists a b, generated_pair bn_env0 10 11 a b /\ 31 = Z.max a b /\ 29 = Z.min a b.
Proof.
  split; [reflexivity|].
  destruct (rsa_primes_gen_sound 3 bn_env0 10 11 0 0 gen_state0
              {| g_calls := 12; g_retries := 0 |} UADK_E_SUCCESS 31 29 eq_refl)
    as (_ & _ & _ & a & b & t & Hpair & _ & Hcopied).
  destruct (Hcopied eq_refl eq_refl) as (Hp & Hq & _).
  exists a, b. split; [exact Hpair|]. split; [exact Hp|exact Hq].
Defined.

(** X12. [rsa_primes_gen] returns the last status it has stored in [ret]
    when it leaves through [err].  If the first prime is accepted and the
    generator then fails for the second one, the function returns 1, the
    value of [UADK_E_SUCCESS], with [p] and [q] not written: the status
    [BN_CONTINUE] of [check_prime_sufficient] for the first prime is still
    in [ret]. *)
Theorem rsa_primes_gen_late_failure (fuel : nat) (env : bn_env) (bits e_pub p0 q0 a : Z)
  (st : gen_state) :
  (3 <= fuel)%nat ->
  b_ctx_new env = true ->
  b_ctx_get env = true ->
  b_generate_prime env (g_calls st) (bitsr bits 0) = Some a ->
  b_sub env (S (g_calls st)) = true ->
  b_mod_inverse env (S (S (g_calls st))) (a - 1) e_pub = InverseFound ->
  b_gencb_call env (S (S (S (g_calls st)))) = true ->
  b_generate_prime env (S (S (S (S (g_calls st))))) (bitsr bits 1) = None ->
  rsa_primes_gen fuel env bits e_pub p0 q0 st
  = Some (UADK_E_SUCCESS, None, tick (tick (tick (tick (tick st))))).
Proof.
  intros Hfuel Hnew Hget Hgen Hsub Hinv Hcb Hfail.
  destruct fuel as [|[|[|fuel]]]; try lia.
  unfold rsa_primes_gen. rewrite Hnew, Hget. simpl negb. cbv iota.
  cbn [primes_loop]. unfold RSA_MAX_PRIME_NUM.
  change (0 <? 2) with true. cbv iota.
  unfold get_prime_once at 1. unfold RSA_MAX_PRIME_NUM.
  change (0 >=? 2) with false. cbv iota.
  cbn [get_prime_loop]. rewrite Hgen.
  unfold set_primes at 1. change (0 =? 0) with true. cbv iota.
  change (check_prime_equal 0 a 0 a =? 0) with false. cbv iota.
  unfold check_prime_useful. simpl g_calls. rewrite Hsub. simpl negb. cbv iota.
  rewrite Hinv. cbv iota beta.
  change (UADK_E_SUCCESS =? BN_ERR) with false.
  change (UADK_E_SUCCESS =? UADK_E_SUCCESS) with true.
  change (UADK_E_SUCCESS =? -1) with false. cbv iota.
  unfold check_prime_sufficient, prime_mul_res.
  change (0 =? 1) with false. cbv iota. simpl g_calls. rewrite Hcb. simpl negb.
  cbv iota. change (negb (BN_CONTINUE =? 0)) with true. cbv iota.
  change (BN_CONTINUE =? BN_ERR) with false.
  change (BN_CONTINUE =? BN_REDO) with false. cbv iota.
  change (0 + 1 <? 2) with true. cbv iota.
  unfold get_prime_once. unfold RSA_MAX_PRIME_NUM.
  change (0 + 1 >=? 2) with false. cbv iota.
  cbn [get_prime_loop]. simpl g_calls. change (0 + 1) with 1. rewrite Hfail.
  change (BN_ERR =? -1) with true. cbv iota. reflexivity.
Qed.

Lemma rsa_primes_gen_late_failure_witness :
  rsa_primes_gen 3 bn_env_late_failure 2048 65537 0 0 gen_state0
  = Some (UADK_E_SUCCESS, None, {| g_calls := 5; g_retries := 0 |}).
Proof.
  apply (rsa_primes_gen_late_failure 3 bn_env_late_failure 2048 65537 0 0 29 gen_state0);
    reflexivity.
Defined.

(** X13. The test of the leading bits cannot fail for two primes whose
    two leading bits are set, which is how [BN_generate_prime_ex] makes
    them: for primes of [b0] and [b1] bits with
    [3 * 2^(b - 2) <= prime < 2^b], and calls that succeed,
    [check_prime_sufficient] returns [BN_VALID] for the second prime,
    asks for no retry and resets the counter. *)
Theorem check_prime_sufficient_top_bits (env : bn_env) (bitsr : Z -> Z)
  (b0 b1 rsa_p rsa_q : Z) (st : gen_state) :
  2 <= b0 -> 2 <= b1 ->
  3 * 2 ^ (b0 - 2) <= rsa_p < 2 ^ b0 ->
  3 * 2 ^ (b1 - 2) <= rsa_q < 2 ^ b1 ->
  b_mul env (g_calls st) = true ->
  b_rshift env (S (g_calls st)) = true ->
  b_gencb_call env (S (S (g_calls st))) = true ->
  check_prime_sufficient env 1 bitsr (b0 + b1) rsa_p rsa_q st
  = (BN_VALID, 1, b0 + b1, set_retries 0 (tick (tick (tick st)))).
Proof.
  intros Hb0 Hb1 Hp Hq Hmul Hshift Hcb.
  assert (H0 : 0 < 2 ^ (b0 - 2)) by (apply Z.pow_pos_nonneg; lia).
  assert (H1 : 0 < 2 ^ (b1 - 2)) by (apply Z.pow_pos_nonneg; lia).
  assert (E0 : 2 ^ b0 = 4 * 2 ^ (b0 - 2)).
  { replace b0 with (2 + (b0 - 2)) at 1 by lia. rewrite Z.pow_add_r by lia. reflexivity. }
  assert (E1 : 2 ^ b1 = 4 * 2 ^ (b1 - 2)).
  { replace b1 with (2 + (b1 - 2)) at 1 by lia. rewrite Z.pow_add_r by lia. reflexivity. }
  assert (E : 2 ^ (b0 + b1 - 4) = 2 ^ (b0 - 2) * 2 ^ (b1 - 2)).
  { rewrite <- Z.pow_add_r by lia. f_equal. lia. }
  assert (Hrange : 9 * 2 ^ (b0 + b1 - 4) <= Z.abs (rsa_p * rsa_q)
                   < 2 ^ (b0 + b1 - 4 + 4)).
  { replace (b0 + b1 - 4 + 4) with (b0 + b1) by lia.
    rewrite Z.pow_add_r, E, E0, E1 by lia. rewrite Z.abs_eq by nia. nia. }
  apply (bitst_in_range (rsa_p * rsa_q) (b0 + b1 - 4) ltac:(lia)) in Hrange.
  unfold check_prime_sufficient, prime_mul_res.
  change (1 =? 1) with true. cbv iota. rewrite Hmul. simpl negb. cbv iota.
  change (negb (BN_VALID =? 0)) with false. cbv iota beta zeta.
  simpl g_calls. rewrite Hshift.
  destruct (Z.leb_spec 0 (b0 + b1 - 4)) as [_|?]; [|lia]. simpl negb. cbv iota.
  simpl default. rewrite Hrange. rewrite Hcb. reflexivity.
Qed.

Lemma check_prime_sufficient_top_bits_witness :
  check_prime_sufficient bn_env0 1 (bitsr 10) (5 + 5) 29 31 gen_state0
  = (BN_VALID, 1, 5 + 5, set_retries 0 (tick (tick (tick gen_state0)))).
Proof.
  apply (check_prime_sufficient_top_bits bn_env0 (bitsr 10) 5 5 29 31 gen_state0);
    first [reflexivity | lia | (simpl; lia)].
Defined.

(** *** The resources of the engine *)

Lemma heap_insert_last (h : Res.heap) x y rest :
  <[length h := x]> (h ++ y :: rest) = h ++ x :: rest.
Proof.
  rewrite insert_app_r_alt by lia. rewrite Nat.sub_diag. reflexivity.
Qed.

Lemma heap_insert_next (h : Res.heap) x y z rest :
  <[S (length h) := x]> (h ++ y :: z :: rest) = h ++ y :: x :: rest.
Proof.
  rewrite insert_app_r_alt by lia.
  replace (S (length h) - length h)%nat with 1%nat by lia. reflexivity.
Qed.

Lemma heap_lookup_last (h : Res.heap) x rest : (h ++ x :: rest) !! length h = Some x.
Proof. apply list_lookup_middle. reflexivity. Qed.

Lemma heap_lookup_next (h : Res.heap) x y rest :
  (h ++ x :: y :: rest) !! S (length h) = Some y.
Proof.
  change (h ++ x :: y :: rest) with (h ++ [x] ++ y :: rest).
  rewrite app_assoc. apply list_lookup_middle. rewrite length_app. simpl. lia.
Qed.

Lemma live_app (h1 h2 : Res.heap) : Res.live (h1 ++ h2) = Res.live h1 ++ Res.live h2.
Proof. apply omap_app. Qed.

Lemma wd_release_ctx_head h l : Res.wd_release_ctx h (h :: l) = l.
Proof. simpl. rewrite Z.eqb_refl. reflexivity. Qed.

Lemma wd_release_ctx_second h1 h0 l :
  Res.wd_release_ctx h1 (Res.wd_release_ctx h0 (h1 :: h0 :: l)) = l.
Proof.
  simpl. destruct (Z.eqb_spec h1 h0) as [->|Hne].
  - apply wd_release_ctx_head.
  - rewrite Z.eqb_refl. apply wd_release_ctx_head.
Qed.

Lemma uadk_e_wd_rsa_init_ok o e :
  Res.s_env_enabled o <> Res.ENV_ENABLED ->
  wd_init_ok o ->
  Res.uadk_e_wd_rsa_init o e =
  Res.async_register_poll_fn o Res.Poll_uadk_e_rsa_poll
    {| Res.g_ctx_res := Some (length (Res.mem e));
       Res.g_pid := Res.g_pid e; Res.g_numa_id := Res.g_numa_id e;
       Res.g_lock := Res.g_lock e;
       Res.mem :=
         Res.mem e ++
         [Some (Res.Cfg {| Res.ctx_num := Res.CTX_NUM;
                           Res.ctxs := Some (S (length (Res.mem e))) |});
          Some (Res.Ctxs [{| Res.ctx := Res.s_request_ctx o 0;
                             Res.ctx_mode := CTX_SYNC |};
                          {| Res.ctx := Res.s_request_ctx o 1;
                             Res.ctx_mode := CTX_ASYNC |}])];
       Res.held := Res.s_request_ctx o 1 :: Res.s_request_ctx o 0 :: Res.held e;
       Res.wd_inited := true; Res.env_inited := Res.env_inited e;
       Res.registered := Res.registered e |}.
Proof.
  intros Henv (Hcfg & Hctxs & H0 & H1 & Hinit).
  apply Z.eqb_neq in Henv, H0, H1.
  unfold Res.uadk_e_wd_rsa_init. rewrite Henv, Hcfg, Hctxs. simpl negb. cbv iota.
  unfold Res.alloc. cbv beta iota zeta. simpl Res.mem.
  rewrite heap_insert_last.
  change (Z.to_nat Res.CTX_NUM) with 2%nat.
  cbn [Res.request_ctxs replicate]. rewrite H0, H1. cbn.
  rewrite Hinit. cbn.
  rewrite length_app. cbn. rewrite Nat.add_1_r.
  rewrite <- !app_assoc. cbn.
  rewrite !heap_insert_last, !heap_insert_next.
  reflexivity.
Qed.

Lemma uadk_e_wd_rsa_init_fails o e :
  Res.s_env_enabled o <> Res.ENV_ENABLED ->
  ~ wd_init_ok o ->
  exists ret n,
    ret <> 0 /\
    Res.uadk_e_wd_rsa_init o e =
    (ret,
     {| Res.g_ctx_res := if Res.s_calloc_cfg o then Some (length (Res.mem e))
                         else Res.g_ctx_res e;
        Res.g_pid := Res.g_pid e; Res.g_numa_id := Res.g_numa_id e;
        Res.g_lock := Res.g_lock e;
        Res.mem := Res.mem e ++ replicate n None;
        Res.held := Res.held e;
        Res.wd_inited := Res.wd_inited e; Res.env_inited := Res.env_inited e;
        Res.registered := Res.registered e |}) /\
    (Res.s_calloc_cfg o = true -> (0 < n)%nat).
Proof.
  intros Henv Hnok. apply Z.eqb_neq in Henv.
  unfold Res.uadk_e_wd_rsa_init. rewrite Henv.
  destruct (Res.s_calloc_cfg o) eqn:Hcfg; simpl negb; cbv iota.
  2:{ exists (- ENOMEM), 0%nat. split; [discriminate|]. split; [|discriminate].
      simpl. rewrite app_nil_r. destruct e; reflexivity. }
  unfold Res.alloc. cbv beta iota zeta. simpl Res.mem. rewrite heap_insert_last.
  destruct (Res.s_calloc_ctxs o) eqn:Hctxs; simpl negb; cbv iota.
  2:{ exists (- ENOMEM), 1%nat. split; [discriminate|]. split; [|lia].
      simpl. unfold Res.free. rewrite heap_insert_last. reflexivity. }
  change (Z.to_nat Res.CTX_NUM) with 2%nat.
  cbn [Res.request_ctxs replicate].
  destruct (Z.eqb_spec (Res.s_request_ctx o 0) 0) as [E0|E0].
  { exists (- ENOMEM), 2%nat. split; [discriminate|]. split; [|lia].
    cbn. rewrite E0. cbn. unfold Res.free.
    rewrite length_app. cbn. rewrite Nat.add_1_r.
    rewrite <- !app_assoc. cbn.
    rewrite !heap_insert_last, !heap_insert_next, !heap_insert_last. reflexivity. }
  destruct (Z.eqb_spec (Res.s_request_ctx o 1) 0) as [E1|E1].
  { exists (- ENOMEM), 2%nat. split; [discriminate|]. split; [|lia].
    cbn. rewrite E1. cbn. apply Z.eqb_neq in E0. rewrite E0. cbn.
    rewrite Z.eqb_refl. unfold Res.free.
    rewrite length_app. cbn. rewrite Nat.add_1_r.
    rewrite <- !app_assoc. cbn.
    rewrite !heap_insert_last, !heap_insert_next, !heap_insert_last. reflexivity. }
  destruct (Z.eqb_spec (Res.s_wd_rsa_init o) 0) as [Ei|Ei].
  { exfalso. apply Hnok. repeat split; assumption. }
  exists (Res.s_wd_rsa_init o), 2%nat. split; [exact Ei|]. split; [|lia].
  apply Z.eqb_neq in E0, E1, Ei. cbn. rewrite E0. cbn. rewrite E1. cbn.
  rewrite ?Ei. cbn. rewrite ?E0, ?E1. cbn.
  pose proof (wd_release_ctx_second (Res.s_request_ctx o 1) (Res.s_request_ctx o 0)
                (Res.held e)) as Hrel.
  cbn in Hrel. rewrite Hrel. unfold Res.free.
  rewrite length_app. cbn. rewrite Nat.add_1_r.
  rewrite <- !app_assoc. cbn.
  rewrite !heap_insert_last, !heap_insert_next, !heap_insert_last. reflexivity.
Qed.

Lemma wd_init_ok_dec o : wd_init_ok o \/ ~ wd_init_ok o.
Proof.
  unfold wd_init_ok.
  destruct (Res.s_calloc_cfg o), (Res.s_calloc_ctxs o),
    (Z.eq_dec (Res.s_request_ctx o 0) 0), (Z.eq_dec (Res.s_request_ctx o 1) 0),
    (Z.eq_dec (Res.s_wd_rsa_init o) 0);
    first [left; repeat split; (assumption || reflexivity)
          | right; intros (? & ? & ? & ? & ?); (congruence || contradiction)].
Qed.

Lemma live_replicate_None n : Res.live (replicate n None) = [].
Proof. induction n as [|n IH]; [reflexivity|exact IH]. Qed.

(** X14. When [uadk_e_wd_rsa_init] fails in its own set-up (an
    allocation, a context request or [wd_rsa_init]), it returns a
    non-zero status and holds nothing more than before: every context it
    had requested is released, both allocations are freed, the SDK is not
    initialised and no poll function is registered.  When the
    configuration had been allocated, [g_rsa_res.ctx_res] is left
    pointing to the freed block. *)
Theorem uadk_e_wd_rsa_init_cleanup (o : Res.sys) (e e' : Res.engine) (ret : Z) :
  Res.s_env_enabled o <> Res.ENV_ENABLED ->
  ~ wd_init_ok o ->
  Res.uadk_e_wd_rsa_init o e = (ret, e') ->
  ret <> 0 /\
  Res.held e' = Res.held e /\
  Res.live (Res.mem e') = Res.live (Res.mem e) /\
  Res.wd_inited e' = Res.wd_inited e /\
  Res.registered e' = Res.registered e /\
  (Res.s_calloc_cfg o = true ->
   exists a, Res.g_ctx_res e' = Some a /\ Res.mem e' !! a = Some None).
Proof.
  intros Henv Hnok H.
  destruct (uadk_e_wd_rsa_init_fails o e Henv Hnok) as (r & n & Hr & Hrun & Hn).
  rewrite Hrun in H. injection H as <- <-. simpl.
  split; [exact Hr|]. split; [reflexivity|].
  split; [rewrite live_app, live_replicate_None; apply app_nil_r|].
  split; [reflexivity|]. split; [reflexivity|].
  intros Hcfg. rewrite Hcfg. exists (length (Res.mem e)). split; [reflexivity|].
  specialize (Hn Hcfg). destruct n as [|n]; [lia|].
  apply heap_lookup_last.
Qed.

Lemma uadk_e_wd_rsa_init_cleanup_witness :
  exists ret e',
    Res.uadk_e_wd_rsa_init Res.sys_no_ctx Res.engine0 = (ret, e') /\
    ret <> 0 /\ Res.held e' = [] /\ Res.live (Res.mem e') = [].
Proof.
  eexists _, _. split; [reflexivity|].
  destruct (uadk_e_wd_rsa_init_cleanup Res.sys_no_ctx Res.engine0 _ _
              ltac:(discriminate)
              ltac:(intros (_ & _ & _ & H & _); apply H; reflexivity) eq_refl)
    as (Hret & Hheld & Hlive & _).
  split; [exact Hret|]. split; [exact Hheld|exact Hlive].
Defined.

(** X15. When its own set-up succeeds, [uadk_e_wd_rsa_init] holds two
    contexts, the first in synchronous and the second in asynchronous
    mode, so that [rsa_pick_next_ctx] gives for every scheduling mode the
    index of a context of that mode; the SDK is initialised,
    [uadk_e_rsa_poll] is the function registered, and the status returned
    is the one of [async_register_poll_fn]: when that call fails, the
    failure is returned with the contexts and the two allocations
    kept. *)
Theorem uadk_e_wd_rsa_init_success (o : Res.sys) (e e' : Res.engine) (ret : Z) :
  Res.s_env_enabled o <> Res.ENV_ENABLED ->
  wd_init_ok o ->
  Res.uadk_e_wd_rsa_init o e = (ret, e') ->
  ret = Res.s_register o /\
  Res.held e' = Res.s_request_ctx o 1 :: Res.s_request_ctx o 0 :: Res.held e /\
  Res.wd_inited e' = true /\
  Res.registered e' = Res.registered e ++ [(Res.Poll_uadk_e_rsa_poll, ret)] /\
  exists cfg_a arr_a arr,
    Res.g_ctx_res e' = Some cfg_a /\
    Res.mem e' !! cfg_a
    = Some (Some (Res.Cfg {| Res.ctx_num := 2; Res.ctxs := Some arr_a |})) /\
    Res.mem e' !! arr_a = Some (Some (Res.Ctxs arr)) /\
    Res.live (Res.mem e')
    = Res.live (Res.mem e)
      ++ [Res.Cfg {| Res.ctx_num := 2; Res.ctxs := Some arr_a |}; Res.Ctxs arr] /\
    Res.ctx <$> arr = [Res.s_request_ctx o 0; Res.s_request_ctx o 1] /\
    forall sched_mode,
      Res.ctx_mode <$> (arr !! Z.to_nat (Res.rsa_pick_next_ctx sched_mode))
      = Some (if sched_mode =? 0 then CTX_SYNC else CTX_ASYNC).
Proof.
  intros Henv Hok H. rewrite (uadk_e_wd_rsa_init_ok o e Henv Hok) in H.
  unfold Res.async_register_poll_fn in H. injection H as <- <-. simpl.
  split; [reflexivity|]. split; [reflexivity|]. split; [reflexivity|].
  split; [reflexivity|].
  eexists _, _, _. split; [reflexivity|].
  split; [apply heap_lookup_last|]. split; [apply heap_lookup_next|].
  split; [rewrite live_app; reflexivity|]. split; [reflexivity|].
  intros sched_mode. unfold Res.rsa_pick_next_ctx.
  destruct (sched_mode =? 0); reflexivity.
Qed.

Lemma uadk_e_wd_rsa_init_success_witness :
  exists e',
    Res.uadk_e_wd_rsa_init Res.sys0 Res.engine0 = (0, e') /\
    Res.held e' = [8; 7] /\ Res.wd_inited e' = true.
Proof.
  eexists. split; [reflexivity|].
  destruct (uadk_e_wd_rsa_init_success Res.sys0 Res.engine0 _ _
              ltac:(discriminate)
              ltac:(repeat split; discriminate) eq_refl)
    as (_ & Hheld & Hinit & _).
  split; [exact Hheld|exact Hinit].
Defined.

(** What [uadk_e_wd_rsa_init] does in every mode: it leaves the lock, the
    process and the node as they are, and adds cells to the heap, none of
    which is a device structure. *)
Lemma uadk_e_wd_rsa_init_keeps o e :
  Res.g_pid (Res.uadk_e_wd_rsa_init o e).2 = Res.g_pid e /\
  Res.g_lock (Res.uadk_e_wd_rsa_init o e).2 = Res.g_lock e /\
  Res.g_numa_id (Res.uadk_e_wd_rsa_init o e).2 = Res.g_numa_id e /\
  exists tail,
    Res.mem (Res.uadk_e_wd_rsa_init o e).2 = Res.mem e ++ tail /\ no_dev tail.
Proof.
  destruct (Z.eq_dec (Res.s_env_enabled o) Res.ENV_ENABLED) as [Henv|Henv].
  { unfold Res.uadk_e_wd_rsa_init, Res.uadk_e_wd_rsa_env_init.
    rewrite Henv, Z.eqb_refl.
    assert (Hnil : exists tail, Res.mem e = Res.mem e ++ tail /\ no_dev tail).
    { exists []. split; [symmetry; apply app_nil_r|]. intros n []. }
    destruct (negb _); [simpl; auto|]. destruct (negb _); simpl; auto. }
  destruct (wd_init_ok_dec o) as [Hok|Hnok].
  - rewrite (uadk_e_wd_rsa_init_ok o e Henv Hok). simpl.
    split; [reflexivity|]. split; [reflexivity|]. split; [reflexivity|].
    eexists. split; [reflexivity|].
    intros n [H|[H|[]]]; discriminate.
  - destruct (uadk_e_wd_rsa_init_fails o e Henv Hnok) as (r & n & _ & Hrun & _).
    rewrite Hrun. simpl.
    split; [reflexivity|]. split; [reflexivity|]. split; [reflexivity|].
    eexists. split; [reflexivity|].
    intros m Hin. apply list_elem_of_In, elem_of_replicate in Hin as [Hin _].
    discriminate.
Qed.

Lemma engine_set_lock_id e : Res.g_lock e = false -> Res.set_lock false (Res.set_lock true e) = e.
Proof. destruct e. simpl. intros ->. reflexivity. Qed.

(** X16. [uadk_e_rsa_init] called with the lock free returns with the
    lock free on every path.  In a process that is already recorded it
    returns success and changes nothing, so that a call that has
    succeeded makes every later call of the same process a successful
    no-op.  On success the process is recorded; on failure the process
    and the node recorded are left as they were, and without a device the
    status is [-ENOMEM] and nothing is changed.  The device structure of
    [wd_get_accel_dev] is freed on every path: the heap is extended by
    cells none of which is a device structure. *)
Theorem uadk_e_rsa_init_spec (o : Res.sys) (e : Res.engine) :
  Res.g_lock e = false ->
  exists ret e',
    Res.uadk_e_rsa_init o e = Some (ret, e') /\
    Res.g_lock e' = false /\
    (Res.g_pid e = Res.s_getpid o -> ret = 0 /\ e' = e) /\
    (ret = 0 ->
     Res.g_pid e' = Res.s_getpid o /\
     forall o', Res.s_getpid o' = Res.s_getpid o ->
                Res.uadk_e_rsa_init o' e' = Some (0, e')) /\
    (ret <> 0 -> Res.g_pid e' = Res.g_pid e /\ Res.g_numa_id e' = Res.g_numa_id e) /\
    (Res.g_pid e <> Res.s_getpid o -> Res.s_dev o = None -> ret = - ENOMEM /\ e' = e) /\
    exists tail, Res.mem e' = Res.mem e ++ tail /\ no_dev tail.
Proof.
  intros Hlock.
  assert (Hnil : exists tail, Res.mem e = Res.mem e ++ tail /\ no_dev tail).
  { exists []. split; [symmetry; apply app_nil_r|]. intros n []. }
  assert (Hagain : forall e1, Res.g_pid e1 = Res.s_getpid o ->
            forall o', Res.s_getpid o' = Res.s_getpid o ->
                       Res.uadk_e_rsa_init o' e1 = Some (0, e1)).
  { intros e1 Hp o' Ho'. unfold Res.uadk_e_rsa_init.
    rewrite Ho', Hp, Z.eqb_refl. reflexivity. }
  unfold Res.uadk_e_rsa_init.
  destruct (Z.eqb_spec (Res.g_pid e) (Res.s_getpid o)) as [Hpid|Hpid]; simpl negb;
    cbv iota.
  { exists 0, e. split; [reflexivity|]. split; [exact Hlock|].
    split; [auto|]. split; [intros _; split; [exact Hpid|apply Hagain, Hpid]|].
    split; [intros H; contradiction H; reflexivity|].
    split; [intros H; contradiction|exact Hnil]. }
  rewrite Hlock. simpl Res.g_pid.
  destruct (Z.eqb_spec (Res.g_pid e) (Res.s_getpid o)) as [|_]; [contradiction|].
  destruct (Res.s_dev o) as [numa_id|] eqn:Hdev.
  2:{ rewrite (engine_set_lock_id e Hlock).
      exists (- ENOMEM), e. split; [reflexivity|]. split; [exact Hlock|].
      split; [intros H; contradiction|]. split; [discriminate|].
      split; [auto|]. split; [auto|exact Hnil]. }
  unfold Res.alloc. cbv beta iota zeta.
  set (e0 := Res.set_mem _ _).
  destruct (uadk_e_wd_rsa_init_keeps o e0) as (Hp & Hl & Hn & tail & Hmem & Htail).
  destruct (Res.uadk_e_wd_rsa_init o e0) as [ret e1]. simpl in Hp, Hl, Hn, Hmem.
  assert (Hfreed : Res.free (length (Res.mem e)) (Res.mem e1)
                   = Res.mem e ++ None :: tail).
  { rewrite Hmem. subst e0. simpl. unfold Res.free. rewrite <- app_assoc.
    apply heap_insert_last. }
  assert (Hnodev : no_dev (None :: tail)).
  { intros n [H|H]; [discriminate|exact (Htail n H)]. }
  destruct (Z.eqb_spec ret 0) as [->|Hret]; simpl negb; cbv iota.
  - eexists 0, _. split; [reflexivity|]. split; [reflexivity|].
    split; [intros H; contradiction|].
    split; [intros _; split; [reflexivity|apply Hagain; reflexivity]|].
    split; [intros H; contradiction H; reflexivity|].
    split; [discriminate|]. exists (None :: tail). split; [exact Hfreed|exact Hnodev].
  - eexists ret, _. split; [reflexivity|]. split; [reflexivity|].
    split; [intros H; contradiction|]. split; [intros H; contradiction|].
    split; [intros _; split; [exact Hp|exact Hn]|].
    split; [discriminate|]. exists (None :: tail). split; [exact Hfreed|exact Hnodev].
Qed.

Lemma uadk_e_rsa_init_spec_witness :
  exists e',
    Res.uadk_e_rsa_init Res.sys0 Res.engine0 = Some (0, e') /\
    Res.g_lock e' = false /\ Res.g_pid e' = 100 /\
    Res.uadk_e_rsa_init Res.sys0 e' = Some (0, e').
Proof.
  destruct (uadk_e_rsa_init_spec Res.sys0 Res.engine0 eq_refl)
    as (ret & e' & Hrun & Hlock & _ & Hok & _).
  assert (Hret : ret = 0).
  { vm_compute in Hrun. injection Hrun as <- _. reflexivity. }
  subst ret. destruct (Hok eq_refl) as [Hpid Hagain].
  exists e'. split; [exact Hrun|]. split; [exact Hlock|]. split; [exact Hpid|].
  apply Hagain. reflexivity.
Defined.

Lemma heap_lookup_third (h : Res.heap) x y z rest :
  (h ++ x :: y :: z :: rest) !! S (S (length h)) = Some z.
Proof.
  change (h ++ x :: y :: z :: rest) with (h ++ [x; y] ++ z :: rest).
  rewrite app_assoc. apply list_lookup_middle. rewrite length_app. simpl. lia.
Qed.

Lemma heap_insert_third (h : Res.heap) w x y z rest :
  <[S (S (length h)) := w]> (h ++ x :: y :: z :: rest) = h ++ x :: y :: w :: rest.
Proof.
  rewrite insert_app_r_alt by lia.
  replace (S (S (length h)) - length h)%nat with 2%nat by lia. reflexivity.
Qed.

(** X17. Initialisation and release are inverse.  After a successful
    [uadk_e_rsa_init] in a new process (device found, set-up and
    registration succeeded), [uadk_e_rsa_uninit] in the same process
    releases the two contexts, frees the two allocations and clears the
    process: the contexts held and the live allocations are those from
    before the initialisation.  A second [uadk_e_rsa_uninit] changes
    nothing. *)
Theorem uadk_e_rsa_init_uninit (o o2 : Res.sys) (e : Res.engine) :
  Res.s_env_enabled o <> Res.ENV_ENABLED ->
  Res.s_env_enabled o2 <> Res.ENV_ENABLED ->
  Res.s_getpid o2 = Res.s_getpid o ->
  Res.s_getpid o <> 0 ->
  Res.g_pid e <> Res.s_getpid o ->
  Res.g_lock e = false ->
  Res.s_dev o <> None ->
  wd_init_ok o ->
  Res.s_register o = 0 ->
  exists e1 e2,
    Res.uadk_e_rsa_init o e = Some (0, e1) /\
    Res.held e1 = Res.s_request_ctx o 1 :: Res.s_request_ctx o 0 :: Res.held e /\
    Res.uadk_e_rsa_uninit o2 e1 = Some e2 /\
    Res.held e2 = Res.held e /\
    Res.live (Res.mem e2) = Res.live (Res.mem e) /\
    Res.wd_inited e2 = false /\
    Res.g_pid e2 = 0 /\
    Res.g_lock e2 = false /\
    Res.uadk_e_rsa_uninit o2 e2 = Some e2.
Proof.
  intros Henv Henv2 Hpid2 Hpid0 Hpid Hlock Hdev Hok Hreg.
  destruct (Res.s_dev o) as [numa_id|] eqn:Hd; [clear Hdev|contradiction].
  apply Z.eqb_neq in Hpid.
  exists
    {| Res.g_ctx_res := Some (S (length (Res.mem e)));
       Res.g_pid := Res.s_getpid o; Res.g_numa_id := numa_id; Res.g_lock := false;
       Res.mem :=
         Res.mem e ++
         [None;
          Some (Res.Cfg {| Res.ctx_num := Res.CTX_NUM;
                           Res.ctxs := Some (S (S (length (Res.mem e)))) |});
          Some (Res.Ctxs [{| Res.ctx := Res.s_request_ctx o 0;
                             Res.ctx_mode := CTX_SYNC |};
                          {| Res.ctx := Res.s_request_ctx o 1;
                             Res.ctx_mode := CTX_ASYNC |}])];
       Res.held := Res.s_request_ctx o 1 :: Res.s_request_ctx o 0 :: Res.held e;
       Res.wd_inited := true; Res.env_inited := Res.env_inited e;
       Res.registered := Res.registered e ++ [(Res.Poll_uadk_e_rsa_poll, 0)] |}.
  eexists. split.
  { unfold Res.uadk_e_rsa_init. rewrite Hpid, Hlock. simpl negb. cbv iota.
    simpl Res.g_pid. rewrite Hpid, Hd. unfold Res.alloc. cbv beta iota zeta.
    rewrite (uadk_e_wd_rsa_init_ok o _ Henv Hok).
    unfold Res.async_register_poll_fn. rewrite Hreg. simpl negb. cbv iota.
    cbn. rewrite <- !app_assoc. cbn. unfold Res.free.
    rewrite heap_insert_last, length_app, Nat.add_1_r. reflexivity. }
  split; [reflexivity|].
  apply Z.eqb_neq in Henv2.
  assert (Hzero : (0 =? Res.s_getpid o2) = false) by (apply Z.eqb_neq; lia).
  split.
  { unfold Res.uadk_e_rsa_uninit. cbn [Res.g_pid Res.g_ctx_res].
    rewrite Hpid2, Z.eqb_refl, Henv2.
    cbn [Res.set_wd_inited Res.mem Res.held Res.g_ctx_res Res.g_pid Res.g_numa_id
         Res.g_lock Res.wd_inited Res.env_inited Res.registered].
    rewrite heap_lookup_next. cbn [Res.ctxs Res.ctx_num].
    rewrite heap_lookup_third.
    change (Z.to_nat Res.CTX_NUM) with 2%nat.
    cbn [Res.release_all lookup list_lookup Res.ctx].
    rewrite wd_release_ctx_second.
    unfold Res.free.
    cbn [Res.set_wd_inited Res.set_held Res.set_mem Res.set_pid Res.mem Res.held
         Res.g_ctx_res Res.g_pid Res.g_numa_id Res.g_lock Res.wd_inited
         Res.env_inited Res.registered].
    rewrite heap_insert_third, heap_insert_next. reflexivity. }
  cbn [Res.held Res.mem Res.wd_inited Res.g_pid Res.g_lock Res.set_pid Res.set_mem
       Res.set_held].
  split; [reflexivity|].
  split; [rewrite live_app; cbn; apply app_nil_r|].
  split; [reflexivity|]. split; [reflexivity|]. split; [reflexivity|].
  unfold Res.uadk_e_rsa_uninit. cbn [Res.g_pid Res.set_pid]. rewrite Hzero.
  reflexivity.
Qed.

Lemma uadk_e_rsa_init_uninit_witness :
  exists e1 e2,
    Res.uadk_e_rsa_init Res.sys0 Res.engine0 = Some (0, e1) /\
    Res.held e1 = [8; 7] /\
    Res.uadk_e_rsa_uninit Res.sys0 e1 = Some e2 /\
    Res.held e2 = [] /\ Res.live (Res.mem e2) = [].
Proof.
  destruct (uadk_e_rsa_init_uninit Res.sys0 Res.sys0 Res.engine0)
    as (e1 & e2 & H1 & Hh1 & H2 & Hh2 & Hl2 & _);
    try discriminate; try reflexivity.
  { repeat split; discriminate. }
  exists e1, e2. split; [exact H1|]. split; [exact Hh1|]. split; [exact H2|].
  split; [exact Hh2|exact Hl2].
Defined.

(** *** Allocation of the parameters and of the method tables *)

Lemma heap_insert_at (h : Res.heap) k x tail :
  <[(length h + k)%nat := x]> (h ++ tail) = h ++ <[k := x]> tail.
Proof. apply insert_app_r. Qed.

(** Addresses as offsets from the end of the first heap, and writes
    pushed to the cells that were added. *)
Ltac heap_norm :=
  unfold Mem.OPENSSL_free, Res.free, Res.alloc; cbn beta iota zeta;
  rewrite <- ?app_assoc; rewrite ?length_app; cbn [length app Nat.add];
  rewrite ?Nat.add_0_r;
  repeat (first [rewrite heap_insert_at | rewrite heap_insert_last]; cbn).

(** X18. [rsa_keygen_param_alloc] returns [-ENOMEM] exactly when one of
    its three allocations fails, and then leaves no allocation behind: what it
    had obtained is freed.  On success the three structures and the
    [BIGNUM]s that [BN_new] could make are allocated, and
    [rsa_keygen_param_free] frees the three structures only: those
    [BIGNUM]s stay allocated. *)
Theorem rsa_keygen_param_alloc_spec (c : collab) (bn_new : nat -> bool)
  (p p' : Mem.keygen_ptrs) (h h' : Res.heap) (ret : Z) :
  Mem.rsa_keygen_param_alloc c bn_new p h = (ret, p', h') ->
  ret = rsa_keygen_param_alloc c /\
  (ret = - ENOMEM <->
   c_malloc_kg c = false \/ c_malloc_kg_bn c = false \/ c_malloc_kg_pair c = false) /\
  (ret = - ENOMEM -> Res.live h' = Res.live h) /\
  (ret <> - ENOMEM ->
   ret = UADK_E_SUCCESS /\
   (exists e bp bq,
      Res.live h' = Res.live h ++ [Res.Raw; Res.KeygenBn e bp bq; Res.Raw]
                    ++ new_bignums bn_new) /\
   Res.live (Mem.rsa_keygen_param_free p' h') = Res.live h ++ new_bignums bn_new).
Proof.
  unfold Mem.rsa_keygen_param_alloc, rsa_keygen_param_alloc, Mem.new_block,
    Mem.rsa_keygen_param_free, new_bignums.
  destruct (c_malloc_kg c); cbn.
  2:{ intros [= <- <- <-]. split; [reflexivity|]. split; [tauto|].
      split; [reflexivity|]. intros H; contradiction H; reflexivity. }
  destruct (c_malloc_kg_bn c); cbn.
  2:{ intros [= <- <- <-]. split; [reflexivity|].
      split; [split; [auto|reflexivity]|].
      split; [|intros H; contradiction H; reflexivity].
      intros _. heap_norm. rewrite live_app. cbn. apply app_nil_r. }
  destruct (c_malloc_kg_pair c); cbn.
  2:{ intros [= <- <- <-]. split; [reflexivity|].
      split; [split; [auto|reflexivity]|].
      split; [|intros H; contradiction H; reflexivity].
      intros _. heap_norm. rewrite live_app. cbn. apply app_nil_r. }
  destruct (bn_new 0%nat), (bn_new 1%nat), (bn_new 2%nat); cbn;
    intros [= <- <- <-]; (split; [reflexivity|]);
    (split; [split; [discriminate|intros [H|[H|H]]; discriminate]|]);
    (split; [discriminate|]); intros _; (split; [reflexivity|]);
    cbn; heap_norm; rewrite ?live_app; cbn; (split; [|reflexivity]);
    eexists _, _, _; reflexivity.
Qed.

Lemma rsa_keygen_param_alloc_spec_witness :
  exists p' h',
    Mem.rsa_keygen_param_alloc collab0 (fun _ => true) Mem.keygen_ptrs0 [] = (1, p', h') /\
    Res.live (Mem.rsa_keygen_param_free p' h') = [Res.Bn; Res.Bn; Res.Bn].
Proof.
  eexists _, _. split; [reflexivity|].
  destruct (rsa_keygen_param_alloc_spec collab0 (fun _ => true) Mem.keygen_ptrs0 _ [] _ 1
              eq_refl) as (_ & _ & _ & Hok).
  destruct (Hok ltac:(discriminate)) as (_ & _ & Hfree). exact Hfree.
Defined.

(** X19. [rsa_pkey_param_alloc] returns [-ENOMEM] exactly when an
    allocation it was asked for fails, and then leaves no allocation
    behind (the public parameters are freed when the private ones cannot
    be allocated).  On success it has allocated exactly the structures
    asked for, and [rsa_pkey_param_free] on the same arguments frees
    them all. *)
Theorem rsa_pkey_param_alloc_spec (c : collab) (want_pub want_pri : bool)
  (pub pri pub' pri' : option addr) (h h' : Res.heap) (ret : Z) :
  Mem.rsa_pkey_param_alloc c want_pub want_pri pub pri h = (ret, pub', pri', h') ->
  ret = rsa_pkey_param_alloc want_pub want_pri c /\
  (ret = - ENOMEM <->
   (want_pub = true /\ c_malloc_pub c = false) \/
   (want_pri = true /\ c_malloc_pri c = false)) /\
  (ret = - ENOMEM -> Res.live h' = Res.live h) /\
  (ret <> - ENOMEM ->
   ret = UADK_E_SUCCESS /\
   Res.live h' = Res.live h ++ (if want_pub then [Res.Raw] else [])
                            ++ (if want_pri then [Res.Raw] else []) /\
   (want_pub = false -> pub' = pub) /\ (want_pri = false -> pri' = pri) /\
   Res.live (Mem.rsa_pkey_param_free want_pub want_pri pub' pri' h') = Res.live h).
Proof.
  unfold Mem.rsa_pkey_param_alloc, rsa_pkey_param_alloc, Mem.new_block,
    Mem.rsa_pkey_param_free.
  destruct want_pub, want_pri, (c_malloc_pub c), (c_malloc_pri c); cbn;
    intros [= <- <- <- <-];
    (split; [reflexivity|]);
    (split; [split; [first [discriminate | tauto]
                    |first [reflexivity
                           | intros [[? ?]|[? ?]]; discriminate]]|]);
    (split; [intros H;
             first [discriminate H
                   | heap_norm; rewrite ?live_app; cbn; rewrite ?app_nil_r;
                     reflexivity]|]);
    intros Hne; try (contradiction Hne; reflexivity);
    (split; [reflexivity|]);
    (split; [rewrite ?live_app; cbn; rewrite <- ?app_assoc; cbn;
             rewrite ?app_nil_r; reflexivity|]);
    (split; [first [reflexivity | discriminate]|]);
    (split; [first [reflexivity | discriminate]|]);
    heap_norm; rewrite ?live_app; cbn; rewrite ?app_nil_r; reflexivity.
Qed.

Lemma rsa_pkey_param_alloc_spec_witness :
  exists pub' pri' h',
    Mem.rsa_pkey_param_alloc collab0 true false None None [] = (1, pub', pri', h') /\
    Res.live h' = [Res.Raw] /\
    Res.live (Mem.rsa_pkey_param_free true false pub' pri' h') = [].
Proof.
  eexists _, _, _. split; [reflexivity|].
  destruct (rsa_pkey_param_alloc_spec collab0 true false None None _ _ [] _ 1 eq_refl)
    as (_ & _ & _ & Hok).
  destruct (Hok ltac:(discriminate)) as (_ & Hlive & _ & _ & Hfree).
  split; [exact Hlive|exact Hfree].
Defined.

(** X20. The hardware method table is made once.  Starting with neither
    table made: when
    [uadk_e_get_rsa_hw_methods] has made it, every later call returns the
    same table and allocates nothing, whether [RSA_meth_new] would
    succeed or not; when the allocation fails the call returns a null
    pointer and changes nothing.  [uadk_e_delete_rsa_meth] then frees the
    table and clears the pointer, so that the live allocations are those
    from before, and a second [uadk_e_delete_rsa_meth] changes nothing. *)
Theorem uadk_e_get_rsa_hw_methods_once (m : Mem.meths) (h : Res.heap) :
  Mem.rsa_hw_meth m = None ->
  Mem.rsa_sw_meth m = None ->
  Mem.uadk_e_get_rsa_hw_methods false m h = (None, m, h) /\
  exists a m1 h1,
    Mem.uadk_e_get_rsa_hw_methods true m h = (Some a, m1, h1) /\
    Res.live h1 = Res.live h ++ [Res.Meth true] /\
    (forall meth_new, Mem.uadk_e_get_rsa_hw_methods meth_new m1 h1 = (Some a, m1, h1)) /\
    (Mem.uadk_e_delete_rsa_meth m1 h1).1 = m /\
    Res.live (Mem.uadk_e_delete_rsa_meth m1 h1).2 = Res.live h /\
    Mem.uadk_e_delete_rsa_meth (Mem.uadk_e_delete_rsa_meth m1 h1).1
      (Mem.uadk_e_delete_rsa_meth m1 h1).2
    = Mem.uadk_e_delete_rsa_meth m1 h1.
Proof.
  destruct m as [hw sw]. simpl. intros -> ->.
  unfold Mem.uadk_e_get_rsa_hw_methods, Mem.new_block. cbn.
  split; [reflexivity|].
  eexists _, _, _. split; [reflexivity|].
  split; [rewrite live_app; reflexivity|].
  split; [intros meth_new; reflexivity|].
  unfold Mem.uadk_e_delete_rsa_meth. cbn.
  split; [reflexivity|]. split; [|reflexivity].
  heap_norm. rewrite live_app. cbn. apply app_nil_r.
Qed.

Lemma uadk_e_get_rsa_hw_methods_once_witness :
  exists a m1 h1,
    Mem.uadk_e_get_rsa_hw_methods true Mem.meths0 [] = (Some a, m1, h1) /\
    Mem.uadk_e_get_rsa_hw_methods false m1 h1 = (Some a, m1, h1) /\
    Res.live (Mem.uadk_e_delete_rsa_meth m1 h1).2 = [].
Proof.
  destruct (uadk_e_get_rsa_hw_methods_once Mem.meths0 [] eq_refl eq_refl)
    as (_ & a & m1 & h1 & Hrun & _ & Hagain & _ & Hlive & _).
  exists a, m1, h1. split; [exact Hrun|]. split; [apply Hagain|exact Hlive].
Defined.

(** X21. The software method table is made at every call.  With no
    hardware table made,
    [uadk_e_get_rsa_sw_methods] allocates a new table and stores it in
    [rsa_sw_meth] also when a table is there already, and the table it
    replaces is neither freed then nor by [uadk_e_delete_rsa_meth], which
    frees the last one only. *)
Theorem uadk_e_get_rsa_sw_methods_twice (m : Mem.meths) (h : Res.heap) :
  Mem.rsa_hw_meth m = None ->
  exists a1 m1 h1 a2 m2 h2,
    Mem.uadk_e_get_rsa_sw_methods true m h = Some (Some a1, m1, h1) /\
    Mem.uadk_e_get_rsa_sw_methods true m1 h1 = Some (Some a2, m2, h2) /\
    a1 <> a2 /\
    Res.live h2 = Res.live h ++ [Res.Meth false; Res.Meth false] /\
    Res.live (Mem.uadk_e_delete_rsa_meth m1 h1).2 = Res.live h /\
    Res.live (Mem.uadk_e_delete_rsa_meth m2 h2).2 = Res.live h ++ [Res.Meth false].
Proof.
  destruct m as [hw sw]. simpl. intros ->.
  unfold Mem.uadk_e_get_rsa_sw_methods, Mem.new_block. cbn.
  eexists _, _, _, _, _, _. split; [reflexivity|]. split; [reflexivity|].
  split; [rewrite length_app; simpl; lia|].
  split; [rewrite !live_app; cbn; rewrite <- app_assoc; reflexivity|].
  unfold Mem.uadk_e_delete_rsa_meth. cbn.
  split.
  - heap_norm. rewrite live_app. cbn. apply app_nil_r.
  - heap_norm. rewrite live_app. reflexivity.
Qed.

Lemma uadk_e_get_rsa_sw_methods_twice_witness :
  exists a1 m1 h1 a2 m2 h2,
    Mem.uadk_e_get_rsa_sw_methods true Mem.meths0 [] = Some (Some a1, m1, h1) /\
    Mem.uadk_e_get_rsa_sw_methods true m1 h1 = Some (Some a2, m2, h2) /\
    Res.live (Mem.uadk_e_delete_rsa_meth m2 h2).2 = [Res.Meth false].
Proof.
  destruct (uadk_e_get_rsa_sw_methods_twice Mem.meths0 [] eq_refl)
    as (a1 & m1 & h1 & a2 & m2 & h2 & H1 & H2 & _ & _ & _ & Hlive).
  exists a1, m1, h1, a2, m2, h2. split; [exact H1|]. split; [exact H2|exact Hlive].
Defined.

(** X22. [uadk_e_get_rsa_methods] gives the hardware table when a device
    is found and the software table otherwise.  With a device, the device
    structure is freed before the function returns, the software pointer
    is not touched, and the only allocation that stays is the hardware
    table when it had to be made; when it was there already nothing
    changes.  Without a device, the hardware pointer is not touched and
    one software table is added. *)
Theorem uadk_e_get_rsa_methods_spec (dev : option Z) (meth_new : bool) (m m' : Mem.meths)
  (h h' : Res.heap) (r : option addr) :
  Mem.uadk_e_get_rsa_methods dev meth_new m h = Some (r, m', h') ->
  (dev <> None ->
   r = Mem.rsa_hw_meth m' /\ Mem.rsa_sw_meth m' = Mem.rsa_sw_meth m /\
   (Mem.rsa_hw_meth m <> None -> m' = m /\ Res.live h' = Res.live h) /\
   (Mem.rsa_hw_meth m = None ->
    Res.live h' = Res.live h ++ (if meth_new then [Res.Meth true] else []) /\
    (meth_new = false -> r = None))) /\
  (dev = None ->
   meth_new = true /\
   r = Mem.rsa_sw_meth m' /\ r <> None /\ Mem.rsa_hw_meth m' = Mem.rsa_hw_meth m /\
   Res.live h' = Res.live h ++ [Res.Meth false]).
Proof.
  destruct m as [hw sw].
  unfold Mem.uadk_e_get_rsa_methods, Mem.uadk_e_get_rsa_sw_methods,
    Mem.uadk_e_get_rsa_hw_methods, Mem.new_block.
  destruct dev as [numa_id|]; cbn.
  - destruct hw as [a|]; cbn.
    + intros [= <- <- <-]. split; [|discriminate]. intros _.
      split; [reflexivity|]. split; [reflexivity|].
      split; [|discriminate]. intros _. split; [reflexivity|].
      heap_norm. rewrite live_app. cbn. apply app_nil_r.
    + destruct meth_new; cbn; intros [= <- <- <-]; (split; [|discriminate]);
        intros _; (split; [reflexivity|]); (split; [reflexivity|]);
        (split; [intros H; contradiction H; reflexivity|]); intros _;
        heap_norm; rewrite ?live_app; cbn; rewrite <- ?app_assoc; cbn;
        rewrite ?app_nil_r; (split; [reflexivity|]);
        first [discriminate | reflexivity].
  - destruct meth_new; cbn; [|discriminate].
    intros [= <- <- <-]. split; [intros H; contradiction H; reflexivity|].
    intros _. split; [reflexivity|]. split; [reflexivity|].
    split; [discriminate|]. split; [reflexivity|].
    rewrite live_app. reflexivity.
Qed.

Lemma uadk_e_get_rsa_methods_spec_witness :
  exists r m' h',
    Mem.uadk_e_get_rsa_methods (Some 1) true Mem.meths0 [] = Some (r, m', h') /\
    r = Mem.rsa_hw_meth m' /\ Res.live h' = [Res.Meth true].
Proof.
  eexists _, _, _. split; [reflexivity|].
  destruct (uadk_e_get_rsa_methods_spec (Some 1) true Mem.meths0 _ [] _ _ eq_refl)
    as [Hdev _].
  destruct (Hdev ltac:(discriminate)) as (Hr & _ & _ & Hnew).
  destruct (Hnew eq_refl) as [Hlive _]. split; [exact Hr|exact Hlive].
Defined.
